(** * SpecFileDecoder: the decoding core of [sp_trans.py]

    A shallow embedding of [process_spectro_file] (header location, format
    detection, sample decoding and wavelength-axis reconstruction) together
    with the properties the specification states about it.

    Python values are modelled as follows:
    - [bytes] objects are [list byte];
    - Python [int] is [Z]; indices and the [-1] of [bytes.find] are kept as
      they are in the source;
    - Python [float] is IEEE-754 binary64, given by the Standard Library's
      executable specification [SpecFloat] at [prec = 53], [emax = 1024];
    - raised exceptions are the [Raise] branch of [result].

    The file gives the embedding first, then the definitions the statements
    use, then a small theory of binary64 rounding over [SpecFloat], and
    last the properties of the pipeline, each named after the claim (C1 to
    C10) it settles, followed by further properties of the code (X1 to
    X21).  The name of the output file and the text written to it are
    embedded as pure functions, and the runs of the function and of the
    command line pass a file system along explicitly. *)

From Stdlib Require Import ZArith List Bool Lia.
From Stdlib Require Import Strings.Byte.
From Stdlib Require Import Floats.SpecFloat.
From Stdlib Require DecimalPos.
Import ListNotations.
Local Open Scope Z_scope.

Set Implicit Arguments.

(** ** Exceptions *)

Inductive exn : Type :=
| StructError
| ZeroDivisionError
| OverflowError.

Inductive result (A : Type) : Type :=
| Ok (a : A)
| Raise (e : exn).

Arguments Ok {A} a.
Arguments Raise {A} e.

Definition bind {A B : Type} (r : result A) (k : A -> result B) : result B :=
  match r with
  | Ok a => k a
  | Raise e => Raise e
  end.

Notation "x <- r ;; k" := (bind r (fun x => k))
  (at level 61, r at next level, right associativity).

(** [try: r except Exception: h] *)
Definition try_except {A : Type} (r : result A) (h : result A) : result A :=
  match r with
  | Ok a => Ok a
  | Raise _ => h
  end.

(** ** Python floats (binary64) *)

Definition float : Type := spec_float.

Module F64.

Definition prec : Z := 53.
Definition emax : Z := 1024.

Definition add : float -> float -> float := SFadd prec emax.
Definition sub : float -> float -> float := SFsub prec emax.
Definition mul : float -> float -> float := SFmul prec emax.
Definition div : float -> float -> float := SFdiv prec emax.
Definition eqb : float -> float -> bool := SFeqb.
Definition ltb : float -> float -> bool := SFltb.
Definition leb : float -> float -> bool := SFleb.

Definition zero : float := S754_zero false.
Definition inf : float := S754_infinity false.
Definition neg_inf : float := S754_infinity true.

(** The binary64 number nearest to [m * 2^e] (ties to even). *)
Definition of_scaled (m e : Z) (szero : bool) : float :=
  binary_normalize prec emax m e szero.

Definition is_zero (x : float) : bool :=
  match x with S754_zero _ => true | _ => false end.

Definition is_finite (x : float) : bool :=
  match x with S754_zero _ | S754_finite _ _ _ => true | _ => false end.

End F64.

(** [float(z)] and the implicit conversion of an [int] operand in mixed
    arithmetic: rounds to nearest even, [OverflowError] when the rounded
    value does not fit binary64. *)
Definition float_of_int (z : Z) : result float :=
  match F64.of_scaled z 0 false with
  | S754_infinity _ => Raise OverflowError
  | f => Ok f
  end.

(** A Python number: the source mixes [int] and [float] values. *)
Inductive pynum : Type :=
| PyInt (z : Z)
| PyFloat (f : float).

(** Coercion of an operand to [float] in mixed arithmetic. *)
Definition to_float (x : pynum) : result float :=
  match x with
  | PyInt z => float_of_int z
  | PyFloat f => Ok f
  end.

(** [a + b] *)
Definition py_add (a b : pynum) : result pynum :=
  match a, b with
  | PyInt x, PyInt y => Ok (PyInt (x + y))
  | _, _ => x <- to_float a ;; y <- to_float b ;; Ok (PyFloat (F64.add x y))
  end.

(** [a * b] *)
Definition py_mul (a b : pynum) : result pynum :=
  match a, b with
  | PyInt x, PyInt y => Ok (PyInt (x * y))
  | _, _ => x <- to_float a ;; y <- to_float b ;; Ok (PyFloat (F64.mul x y))
  end.

(** [a / b] with a [float] on the left, the only form the source uses. *)
Definition py_truediv (a : float) (b : pynum) : result pynum :=
  y <- to_float b ;;
  if F64.is_zero y then Raise ZeroDivisionError
  else Ok (PyFloat (F64.div a y)).

(** ** Python [bytes] *)

Definition bytes : Type := list byte.

Definition len {A : Type} (l : list A) : Z := Z.of_nat (length l).

(** Largest length of a Python sequence ([sys.maxsize]). *)
Definition PY_SSIZE_T_MAX : Z := 2 ^ 63 - 1.

(** Normalisation of one slice bound, as [PySlice_AdjustIndices] does for a
    step of 1: negative bounds count from the end, then clamp. *)
Definition slice_index (n i : Z) : Z :=
  if i <? 0 then Z.max (n + i) 0 else Z.min i n.

(** [s[a:b]] *)
Definition py_slice {A : Type} (s : list A) (a b : Z) : list A :=
  let lo := slice_index (len s) a in
  let hi := slice_index (len s) b in
  firstn (Z.to_nat (hi - lo)) (skipn (Z.to_nat lo) s).

(** [s[a:]] *)
Definition py_slice_from {A : Type} (s : list A) (a : Z) : list A :=
  skipn (Z.to_nat (slice_index (len s) a)) s.

Fixpoint starts_with (sub s : bytes) : bool :=
  match sub, s with
  | [], _ => true
  | _ :: _, [] => false
  | x :: sub', y :: s' => Byte.eqb x y && starts_with sub' s'
  end.

(** Scan of the suffix [s] that begins at offset [pos]. *)
Fixpoint find_at (sub s : bytes) (pos : Z) : Z :=
  if starts_with sub s then pos
  else match s with
       | [] => -1
       | _ :: s' => find_at sub s' (pos + 1)
       end.

(** [s.find(sub, start)]: lowest index at or after [start] where [sub]
    occurs, [-1] if there is none; a negative [start] counts from the end. *)
Definition bytes_find (s sub : bytes) (start : Z) : Z :=
  let start := if start <? 0 then Z.max (len s + start) 0 else start in
  if len s <? start then -1
  else find_at sub (skipn (Z.to_nat start) s) start.

(** ** [struct.unpack] *)

Definition byte_val (b : byte) : Z := Z.of_N (Byte.to_N b).

(** IEEE-754 binary32 bit pattern to the Python float of the same value. *)
Definition float_of_bits32 (x : Z) : float :=
  let s := Z.testbit x 31 in
  let e := Z.land (Z.shiftr x 23) 255 in
  let m := Z.land x (2 ^ 23 - 1) in
  if e =? 255 then (if m =? 0 then S754_infinity s else S754_nan)
  else if e =? 0 then F64.of_scaled (cond_Zopp s m) (-149) s
  else F64.of_scaled (cond_Zopp s (m + 2 ^ 23)) (e - 150) s.

(** The four bytes of one ['f'] item to its 32 bits, most significant byte
    first when [big]. *)
Definition bits32 (big : bool) (b0 b1 b2 b3 : byte) : Z :=
  if big
  then Z.lor (Z.shiftl (byte_val b0) 24) (Z.lor (Z.shiftl (byte_val b1) 16)
         (Z.lor (Z.shiftl (byte_val b2) 8) (byte_val b3)))
  else Z.lor (Z.shiftl (byte_val b3) 24) (Z.lor (Z.shiftl (byte_val b2) 16)
         (Z.lor (Z.shiftl (byte_val b1) 8) (byte_val b0))).

Fixpoint decode_f (big : bool) (s : bytes) : list float :=
  match s with
  | b0 :: b1 :: b2 :: b3 :: s' =>
      float_of_bits32 (bits32 big b0 b1 b2 b3) :: decode_f big s'
  | _ => []
  end.

Fixpoint decode_H (s : bytes) : list Z :=
  match s with
  | b0 :: b1 :: s' =>
      Z.lor (Z.shiftl (byte_val b1) 8) (byte_val b0) :: decode_H s'
  | _ => []
  end.

(** [struct.unpack(('>' or '<') + 'f'*count, s)]: [struct.error] unless [s]
    has exactly [4*count] bytes. *)
Definition unpack_f (big : bool) (count : Z) (s : bytes) : result (list float) :=
  if len s =? 4 * Z.max count 0 then Ok (decode_f big s) else Raise StructError.

(** [struct.unpack('<' + 'H'*count, s)] *)
Definition unpack_H (count : Z) (s : bytes) : result (list Z) :=
  if len s =? 2 * Z.max count 0 then Ok (decode_H s) else Raise StructError.

(** ** [process_spectro_file], without its file input and output *)

Inductive data_type : Type :=
| float32_be
| float32_le
| int16
| raw_bytes.

(** [data_type.startswith('float32')] *)
Definition is_float32 (t : data_type) : bool :=
  match t with
  | float32_be | float32_le => true
  | _ => false
  end.

Definition WAV : bytes := ["."%byte; "W"%byte; "A"%byte; "V"%byte].

Definition pattern : bytes := [x00; x00; x00; x00; x40; x40; x00; x00].

(** Step 1: the offset just after the null byte that follows [".WAV"]. *)
Definition wav_header_end (content : bytes) : Z :=
  let header_end := 0 in
  let idx := bytes_find content WAV 0 in
  if negb (idx =? -1) then
    let null_pos := bytes_find content [x00] idx in
    if negb (null_pos =? -1) then null_pos + 1 else header_end
  else header_end.

(** Step 2: [(header_end, pat_idx)]. *)
Definition locate_header (content : bytes) : Z * Z :=
  let header_end := wav_header_end content in
  let pat_idx := bytes_find content pattern header_end in
  if negb (pat_idx =? -1) then (pat_idx + len pattern, pat_idx)
  else (Z.max header_end 100, pat_idx).

Definition plausible (x : float) : bool :=
  (negb (F64.eqb x F64.inf) && negb (F64.eqb x F64.neg_inf)
   && negb (negb (F64.eqb x x)))
  && (F64.ltb (F64.of_scaled (-1000) 0 false) x
      && F64.ltb x (F64.of_scaled 1000 0 false)).

Definition score_float_array (arr : list float) : Z :=
  fold_left (fun valid_vals x => if plausible x then valid_vals + 1 else valid_vals)
            arr 0.

(** Step 3a: [(data_type, data_point_count, values)]. *)
Definition decode_data (data_bytes : bytes) : result (data_type * Z * list pynum) :=
  let n := len data_bytes in
  if (n mod 4 =? 0) && (0 <? n) then
    let data_point_count := n / 4 in
    floats_le <- unpack_f false data_point_count data_bytes ;;
    floats_be <- unpack_f true data_point_count data_bytes ;;
    let score_le := score_float_array floats_le in
    let score_be := score_float_array floats_be in
    if score_le <=? score_be
    then Ok (float32_be, data_point_count, map PyFloat floats_be)
    else Ok (float32_le, data_point_count, map PyFloat floats_le)
  else if (n mod 2 =? 0) && (0 <? n) then
    let data_point_count := n / 2 in
    ints <- unpack_H data_point_count data_bytes ;;
    Ok (int16, data_point_count, map PyInt ints)
  else
    Ok (raw_bytes, n, map (fun b => PyInt (byte_val b)) data_bytes).

(** [range(n)] *)
Definition py_range (n : Z) : list Z :=
  map Z.of_nat (seq 0 (Z.to_nat n)).

(** [struct.unpack('>f', s)[0]] *)
Definition unpack_one_f (s : bytes) : result float :=
  l <- unpack_f true 1 s ;;
  match l with
  | x :: _ => Ok x
  | [] => Raise StructError
  end.

(** The metadata read of step 4: [None] stands for the [None] the source
    leaves in [start_wl] and [end_wl]. *)
Definition read_axis_range (content : bytes) (pat_idx : Z) : result (option (float * float)) :=
  if negb (pat_idx =? -1) then
    try_except
      (start_wl <- unpack_one_f (py_slice content (pat_idx - 8) (pat_idx - 4)) ;;
       end_wl <- unpack_one_f (py_slice content (pat_idx - 4) pat_idx) ;;
       Ok (Some (start_wl, end_wl)))
      (Ok None)
  else Ok None.

(** [(start_wl, end_wl)] after the default has been applied. *)
Definition axis_range (content : bytes) (pat_idx data_point_count : Z) : result (float * float) :=
  r <- read_axis_range content pat_idx ;;
  match r with
  | Some se => Ok se
  | None =>
      end_wl <- float_of_int (data_point_count - 1) ;;
      Ok (F64.zero, end_wl)
  end.

(** [step] *)
Definition axis_step (start_wl end_wl : float) (data_point_count : Z) : result pynum :=
  if 1 <? data_point_count then
    py_truediv (F64.sub end_wl start_wl) (PyInt (data_point_count - 1))
  else Ok (PyInt 0).

(** [start_wl + i*step] *)
Definition wavelength_at (start_wl : float) (step : pynum) (i : Z) : result pynum :=
  p <- py_mul (PyInt i) step ;;
  py_add (PyFloat start_wl) p.

(** A list comprehension whose body may raise. *)
Fixpoint map_result {A B : Type} (f : A -> result B) (l : list A) : result (list B) :=
  match l with
  | [] => Ok []
  | x :: l' => y <- f x ;; ys <- map_result f l' ;; Ok (y :: ys)
  end.

(** Step 4 *)
Definition wavelength_axis (content : bytes) (t : data_type)
           (pat_idx data_point_count : Z) : result (list pynum) :=
  if is_float32 t then
    se <- axis_range content pat_idx data_point_count ;;
    step <- axis_step (fst se) (snd se) data_point_count ;;
    map_result (wavelength_at (fst se) step) (py_range data_point_count)
  else Ok (map PyInt (py_range data_point_count)).

Record spectrum : Type := {
  sp_type : data_type;
  sp_header_end : Z;
  sp_pat_idx : Z;
  sp_count : Z;
  sp_wavelengths : list pynum;
  sp_values : list pynum;
  sp_rows : list (pynum * pynum)   (* [zip(wavelengths, values)] *)
}.

Definition process_spectro_file (content : bytes) : result spectrum :=
  let '(header_end, pat_idx) := locate_header content in
  let data_bytes := py_slice_from content header_end in
  d <- decode_data data_bytes ;;
  let '(t, data_point_count, values) := d in
  wavelengths <- wavelength_axis content t pat_idx data_point_count ;;
  Ok {| sp_type := t;
        sp_header_end := header_end;
        sp_pat_idx := pat_idx;
        sp_count := data_point_count;
        sp_wavelengths := wavelengths;
        sp_values := values;
        sp_rows := combine wavelengths values |}.

(** ** The output file: its name and its text

    A [str] is the list of the bytes of its UTF-8 encoding.  The characters
    the source looks for or writes are ASCII: each is one byte, and no byte
    of the encoding of another character equals it. *)

(** [s.rfind('.')], [None] for [-1]. *)
Fixpoint rfind_dot (s : bytes) : option nat :=
  match s with
  | [] => None
  | c :: s' =>
      match rfind_dot s' with
      | Some k => Some (S k)
      | None => if Byte.eqb c "."%byte then Some O else None
      end
  end.

(** [s.rsplit('.', 1)[0]]: [s] up to its last ['.'], all of [s] without one. *)
Definition rsplit_dot_head (s : bytes) : bytes :=
  match rfind_dot s with
  | Some k => firstn k s
  | None => s
  end.

Definition csv_suffix : bytes := ["."; "c"; "s"; "v"]%byte.

(** [output_path = input_path.rsplit('.', 1)[0] + ".csv"] *)
Definition output_path (input_path : bytes) : bytes :=
  rsplit_dot_head input_path ++ csv_suffix.

(** The decimal digits of a natural number, most significant first. *)
Fixpoint bytes_of_uint (d : Decimal.uint) : bytes :=
  match d with
  | Decimal.Nil => []
  | Decimal.D0 d' => "0"%byte :: bytes_of_uint d'
  | Decimal.D1 d' => "1"%byte :: bytes_of_uint d'
  | Decimal.D2 d' => "2"%byte :: bytes_of_uint d'
  | Decimal.D3 d' => "3"%byte :: bytes_of_uint d'
  | Decimal.D4 d' => "4"%byte :: bytes_of_uint d'
  | Decimal.D5 d' => "5"%byte :: bytes_of_uint d'
  | Decimal.D6 d' => "6"%byte :: bytes_of_uint d'
  | Decimal.D7 d' => "7"%byte :: bytes_of_uint d'
  | Decimal.D8 d' => "8"%byte :: bytes_of_uint d'
  | Decimal.D9 d' => "9"%byte :: bytes_of_uint d'
  end.

Definition decimal (n : Z) : bytes := bytes_of_uint (N.to_uint (Z.to_N n)).

Definition digit (d : Z) : byte :=
  match Byte.of_N (Z.to_N (48 + d)) with
  | Some b => b
  | None => "0"%byte
  end.

(** The [p] decimal digits of [q mod 10^p], most significant first. *)
Fixpoint fraction_digits (p : nat) (q : Z) : bytes :=
  match p with
  | O => []
  | S p' => digit ((q / 10 ^ Z.of_nat p') mod 10) :: fraction_digits p' q
  end.

(** The integer nearest to [a / b], ties to the even one. *)
Definition div_half_even (a b : Z) : Z :=
  let q := a / b in
  let r := a mod b in
  if 2 * r <? b then q
  else if b <? 2 * r then q + 1
  else if Z.even q then q else q + 1.

(** [m * 2^e * 10^p] rounded to an integer: the conversion of ['f'] is
    correctly rounded from the exact binary value, ties to even. *)
Definition scaled_digits (p : nat) (m : positive) (e : Z) : Z :=
  if 0 <=? e then Zpos m * 2 ^ e * 10 ^ Z.of_nat p
  else div_half_even (Zpos m * 10 ^ Z.of_nat p) (2 ^ (- e)).

(** [q / 10^p] written with [p] digits after the point. *)
Definition fixed (p : nat) (q : Z) : bytes :=
  decimal (q / 10 ^ Z.of_nat p)
  ++ match p with
     | O => []
     | S _ => "."%byte :: fraction_digits p q
     end.

Definition sign_text (s : bool) : bytes := if s then ["-"%byte] else [].

(** [format(x, '.<p>f')] for a [float] [x]. *)
Definition format_float (p : nat) (x : float) : bytes :=
  match x with
  | S754_nan => ["n"; "a"; "n"]%byte
  | S754_infinity s => sign_text s ++ ["i"; "n"; "f"]%byte
  | S754_zero s => sign_text s ++ fixed p 0
  | S754_finite s m e => sign_text s ++ fixed p (scaled_digits p m e)
  end.

(** [format(x, '.<p>f')]: an [int] is converted to [float] first. *)
Definition format_f (p : nat) (x : pynum) : result bytes :=
  f <- to_float x ;; Ok (format_float p f).

(** ["Wavelength,Absorbance\n"] *)
Definition csv_header : bytes :=
  ["W"; "a"; "v"; "e"; "l"; "e"; "n"; "g"; "t"; "h"; ",";
   "A"; "b"; "s"; "o"; "r"; "b"; "a"; "n"; "c"; "e"]%byte ++ [x0a].

(** [f"{wl:.3f},{val:.6f}\n"] *)
Definition csv_line (row : pynum * pynum) : result bytes :=
  wl <- format_f 3 (fst row) ;;
  val <- format_f 6 (snd row) ;;
  Ok (wl ++ ","%byte :: val ++ [x0a]).

(** The text the source writes to [out]: the header line, then one line per
    row of [zip(wavelengths, values)]. *)
Definition csv_text (rows : list (pynum * pynum)) : result bytes :=
  lines <- map_result csv_line rows ;;
  Ok (csv_header ++ concat lines).

(** ** Files and the command line

    The file system is a map from names to the contents of regular files: a
    name denotes at most one file, different names denote different files,
    and every file can be opened for reading and for writing.  A file
    written in text mode holds the text as it is written (no translation
    of line ends, as on POSIX systems). *)

Definition fs : Type := bytes -> option bytes.

Fixpoint bytes_eqb (p q : bytes) : bool :=
  match p, q with
  | [], [] => true
  | a :: p', b :: q' => Byte.eqb a b && bytes_eqb p' q'
  | _, _ => false
  end.

(** The file [path] created or replaced with contents [data]. *)
Definition fs_write (path data : bytes) (d : fs) : fs :=
  fun p => if bytes_eqb p path then Some data else d p.

(** What [process_spectro_file] can raise: the failure of
    [open(input_path, 'rb')], or an exception of the decoding steps. *)
Inductive io_exn : Type :=
| FileNotFoundError
| DecodeError (e : exn).

(** The lines printed, by what they report. *)
Inductive event : Type :=
| Processed (input_path : bytes) (t : data_type) (output_path : bytes)
| ErrorProcessing (filepath : bytes) (e : io_exn)
| Usage.

(** The [out.write] calls of the loop over the rows: the text written, and
    the exception that ended the loop, if any. *)
Fixpoint write_rows (rows : list (pynum * pynum)) : bytes * option exn :=
  match rows with
  | [] => ([], None)
  | row :: rows' =>
      match csv_line row with
      | Raise e => ([], Some e)
      | Ok line =>
          let '(text, e) := write_rows rows' in (line ++ text, e)
      end
  end.

(** [process_spectro_file(input_path)] on a file system: the input is opened,
    then the output is opened for writing, which creates or empties it, and
    only then is the input read.  Leaving the [with] block closes [out],
    which then holds what has been written. *)
Definition process_spectro_file_io (input_path : bytes) (d : fs)
  : fs * (io_exn + event) :=
  let out := output_path input_path in
  match d input_path with
  | None => (d, inl FileNotFoundError)
  | Some _ =>
      let d1 := fs_write out [] d in
      let content := match d1 input_path with Some c => c | None => [] end in
      match process_spectro_file content with
      | Raise e => (d1, inl (DecodeError e))
      | Ok sp =>
          let '(text, err) := write_rows (sp_rows sp) in
          let d2 := fs_write out (csv_header ++ text) d1 in
          match err with
          | Some e => (d2, inl (DecodeError e))
          | None => (d2, inr (Processed input_path (sp_type sp) out))
          end
      end
  end.



(** * The specification side

    What the statements compare the code with: occurrences of a byte
    sequence, the score and the sample count in the words of the
    specification, the axis formula, and the buffers of Scenario 1. *)

(** [sub] occurs in [s] at offset [i]. *)
Definition occurs_at (sub s : bytes) (i : Z) : Prop :=
  0 <= i /\ firstn (length sub) (skipn (Z.to_nat i) s) = sub.

(** The score in the words of the specification: the number of values that
    are finite (neither infinity nor NaN) and strictly between -1000 and
    1000. *)
Definition in_range (x : float) : bool :=
  F64.is_finite x
  && F64.ltb (F64.of_scaled (-1000) 0 false) x
  && F64.ltb x (F64.of_scaled 1000 0 false).

Definition plausibility_score (arr : list float) : Z :=
  len (filter in_range arr).

(** The number of samples a data region of [n] bytes decodes to. *)
Definition sample_count (n : Z) : Z :=
  if n mod 4 =? 0 then n / 4
  else if n mod 2 =? 0 then n / 2
  else n.

(** The axis in the words of the specification, all in binary64. *)
Definition float_of_Z (z : Z) : float := F64.of_scaled z 0 false.

Definition spec_step (start_wl end_wl : float) (n : Z) : float :=
  if 1 <? n then F64.div (F64.sub end_wl start_wl) (float_of_Z (n - 1))
  else F64.zero.

Definition spec_wavelength (start_wl step : float) (i : Z) : float :=
  F64.add start_wl (F64.mul (float_of_Z i) step).

(** The format the length of the data region selects, up to byte order. *)
Definition format_class (n : Z) (t : data_type) : Prop :=
  if (n mod 4 =? 0) && (0 <? n) then t = float32_be \/ t = float32_le
  else if (n mod 2 =? 0) && (0 <? n) then t = int16
  else t = raw_bytes.

(** 400.0 and 700.0, then 1.0 and 2.0, as big-endian float32. *)
Definition axis_400_700 : bytes := [x43; xc8; x00; x00; x44; x2f; x00; x00].
Definition data_1_2 : bytes := [x3f; x80; x00; x00; x40; x00; x00; x00].

(** The buffer as the scenario words it: the axis bytes after the marker. *)
Definition scenario1_as_stated (filler : bytes) : bytes :=
  WAV ++ [x00] ++ filler ++ pattern ++ axis_400_700 ++ data_1_2.

(** The buffer with the axis bytes where the decoder looks for them: just
    before the marker, as the last 8 of the 92 header bytes. *)
Definition scenario1 (filler : bytes) : bytes :=
  WAV ++ [x00] ++ filler ++ axis_400_700 ++ pattern ++ data_1_2.

Definition scenario1_rows : list (pynum * pynum) :=
  [(PyFloat (float_of_Z 400), PyFloat (float_of_Z 1));
   (PyFloat (float_of_Z 700), PyFloat (float_of_Z 2))].

(** The endpoints [2^100] and its binary32 successor, the marker, and a
    data region. *)
Definition long_region (tail : bytes) : bytes :=
  [x71; x80; x00; x00; x71; x80; x00; x01] ++ pattern ++ tail.

(** * Binary64 values and rounding on integers

    The proofs about float arithmetic read every finite float as an integer
    number of units of [2^-K] and rounding as a function on such integers. *)

(** Quotient of [m] by [2^k], rounded to nearest, ties to even. *)
Definition rne (m k : Z) : Z :=
  let q := m / 2 ^ k in
  let r := m mod 2 ^ k in
  if 2 * r <? 2 ^ k then q
  else if 2 ^ k <? 2 * r then q + 1
  else if Z.even q then q else q + 1.

(** The exponent of the binary64 grid around magnitude [x]. *)
Definition fexp64 (x : Z) : Z := Z.max (x - 53) (-1074).

(** The float with sign [s] and magnitude [q * 2^E], for [q <= 2^53]. *)
Definition pack (s : bool) (q E : Z) : float :=
  match (if Zdigits2 q <=? 53 then (q, E) else (q / 2, E + 1)) with
  | (Z0, _) => S754_zero s
  | (Zpos p, e) => if e <=? 971 then S754_finite s p e else S754_infinity s
  | (Zneg _, _) => S754_nan
  end.

(** The value of a finite float in units of [2^-K]. *)
Definition Fnum (K : Z) (f : float) : Z :=
  match f with
  | S754_finite s m e => cond_Zopp s (Zpos m * 2 ^ (e + K))
  | _ => 0
  end.

(** The sign bit; [false] for NaN. *)
Definition Fsign (f : float) : bool :=
  match f with
  | S754_zero s | S754_infinity s | S754_finite s _ _ => s
  | S754_nan => false
  end.

(** Canonical binary64 representation: what every operation returns. *)
Definition valid64 (f : float) : bool := valid_binary F64.prec F64.emax f.

(** Rounding on integers that count units of [2^-K]: [gexp K X] is the
    exponent of the binary64 grid at [X], in the same units. *)
Definition gexp (K X : Z) : Z := fexp64 (Zdigits2 X - K) + K.

Definition RND (K X : Z) : Z := rne X (gexp K X) * 2 ^ gexp K X.

(** Rounding of a signed value: symmetric around zero. *)
Definition sRND (K z : Z) : Z := if z <? 0 then - RND K (- z) else RND K z.

(** The binary magnitude of a finite float, [|f| < 2^(Fmag f)]; the lowest
    exponent for zero. *)
Definition Fmag (f : float) : Z :=
  match f with
  | S754_finite _ m e => Zdigits2 (Zpos m) + e
  | _ => -1074
  end.

(** The value of a float in units of [2^-1074], the smallest binary64
    subnormal: an integer for every finite float. *)
Definition V (f : float) : Z := Fnum 1074 f.

(** * Definitions for the further properties *)

(** [1.0] *)
Definition one_f64 : float := S754_finite false 4503599627370496 (-52).

(** A byte that can stand inside a field: neither the separator nor the end
    of a line. *)
Definition field_byte (b : byte) : bool :=
  negb (Byte.eqb b ","%byte) && negb (Byte.eqb b x0a).

(** The [float] a number is formatted as. *)
Definition as_float (x : pynum) : float :=
  match x with
  | PyInt z => float_of_Z z
  | PyFloat f => f
  end.

(** The two fields of the line of one row. *)
Definition csv_fields (row : pynum * pynum) : bytes * bytes :=
  (format_float 3 (as_float (fst row)), format_float 6 (as_float (snd row))).

(** The line made of two fields. *)
Definition join_fields (ab : bytes * bytes) : bytes :=
  fst ab ++ ","%byte :: snd ab ++ [x0a].

(** A number the source can format: every [float], and an [int] that
    converts to [float]. *)
Definition formattable (x : pynum) : Prop :=
  match x with
  | PyInt z => 0 <= z <= PY_SSIZE_T_MAX
  | PyFloat _ => True
  end.

(** * Binary64 rounding *)

Section Digits.

Lemma digits2_pos_size (p : positive) : digits2_pos p = Pos.size p.
Proof. induction p; simpl; congruence. Qed.

Lemma Zdigits2_log2 (m : Z) : 0 < m -> Zdigits2 m = Z.log2 m + 1.
Proof.
  destruct m as [|p|p]; try lia; intros _.
  unfold Zdigits2. rewrite digits2_pos_size.
  destruct p; simpl; lia.
Qed.

Lemma Zdigits2_bounds (m : Z) :
  0 < m -> 2 ^ (Zdigits2 m - 1) <= m < 2 ^ Zdigits2 m.
Proof.
  intros H. rewrite Zdigits2_log2 by assumption.
  replace (Z.log2 m + 1 - 1) with (Z.log2 m) by lia.
  replace (Z.log2 m + 1) with (Z.succ (Z.log2 m)) by lia.
  apply Z.log2_spec; assumption.
Qed.

Lemma Zdigits2_pos (m : Z) : 0 < m -> 0 < Zdigits2 m.
Proof.
  intros H. rewrite Zdigits2_log2 by assumption.
  pose proof (Z.log2_nonneg m). lia.
Qed.

Lemma Zdigits2_unique (m d : Z) :
  2 ^ (d - 1) <= m < 2 ^ d -> 0 < m -> Zdigits2 m = d.
Proof.
  intros H Hm. rewrite Zdigits2_log2 by assumption.
  assert (0 < d).
  { destruct (Z_lt_le_dec 0 d) as [|Hd]; [assumption|].
    assert (2 ^ d <= 1).
    { destruct (Z.eq_dec d 0) as [->|]; [simpl; lia|].
      rewrite Z.pow_neg_r by lia. lia. }
    lia. }
  enough (Z.log2 m = d - 1) by lia.
  apply Z.log2_unique; [lia|].
  replace (Z.succ (d - 1)) with d by lia. assumption.
Qed.

Lemma Zdigits2_le (m d : Z) : 0 < m -> 0 <= d -> m < 2 ^ d -> Zdigits2 m <= d.
Proof.
  intros Hm Hd H.
  destruct (Z_le_gt_dec (Zdigits2 m) d) as [|Hgt]; [assumption|].
  pose proof (Zdigits2_bounds Hm) as [Hlo _].
  assert (2 ^ d <= 2 ^ (Zdigits2 m - 1)) by (apply Z.pow_le_mono_r; lia).
  lia.
Qed.

Lemma Zdigits2_ge (m d : Z) : 0 < m -> 2 ^ (d - 1) <= m -> d <= Zdigits2 m.
Proof.
  intros Hm H.
  destruct (Z_le_gt_dec d (Zdigits2 m)) as [|Hgt]; [assumption|].
  pose proof (Zdigits2_bounds Hm) as [_ Hhi].
  pose proof (Zdigits2_pos Hm).
  assert (2 ^ Zdigits2 m <= 2 ^ (d - 1)) by (apply Z.pow_le_mono_r; lia).
  lia.
Qed.

Lemma Zdigits2_mono (a b : Z) : 0 < a -> a <= b -> Zdigits2 a <= Zdigits2 b.
Proof.
  intros Ha Hab.
  apply Zdigits2_ge; [lia|].
  pose proof (Zdigits2_bounds Ha). lia.
Qed.

Lemma Zdigits2_mul_pow2 (m k : Z) :
  0 < m -> 0 <= k -> Zdigits2 (m * 2 ^ k) = Zdigits2 m + k.
Proof.
  intros Hm Hk.
  assert (0 < 2 ^ k) by (apply Z.pow_pos_nonneg; lia).
  pose proof (Zdigits2_bounds Hm) as [Hlo Hhi].
  pose proof (Zdigits2_pos Hm).
  apply Zdigits2_unique; [|nia].
  replace (Zdigits2 m + k - 1) with (Zdigits2 m - 1 + k) by lia.
  rewrite !Z.pow_add_r by lia. nia.
Qed.

End Digits.

Section Shift.

Lemma iter_pos_nat (A : Type) (f : A -> A) (p : positive) (x : A) :
  iter_pos f p x = Nat.iter (Pos.to_nat p) f x.
Proof.
  revert x; induction p as [p IH|p IH|]; intros x; cbn [iter_pos].
  - rewrite !IH, Pos2Nat.inj_xI.
    replace (S (2 * Pos.to_nat p)) with (Pos.to_nat p + (Pos.to_nat p + 1))%nat by lia.
    rewrite !Nat.iter_add. reflexivity.
  - rewrite !IH, Pos2Nat.inj_xO.
    replace (2 * Pos.to_nat p)%nat with (Pos.to_nat p + Pos.to_nat p)%nat by lia.
    rewrite Nat.iter_add. reflexivity.
  - reflexivity.
Qed.

Lemma shr_1_spec (m : Z) (r s : bool) :
  0 <= m ->
  shr_1 (Build_shr_record m r s) = Build_shr_record (m / 2) (Z.odd m) (r || s).
Proof.
  intros Hm. destruct m as [|p|p]; [reflexivity| |lia].
  destruct p as [p|p|]; unfold shr_1.
  - replace (Z.pos p~1 / 2) with (Z.pos p)
      by (apply Z.div_unique with (r := 1); lia).
    reflexivity.
  - replace (Z.pos p~0 / 2) with (Z.pos p)
      by (apply Z.div_unique with (r := 0); lia).
    reflexivity.
  - reflexivity.
Qed.

Lemma shr_iter_m (k : nat) (R : shr_record) :
  0 <= shr_m R ->
  shr_m (Nat.iter k shr_1 R) = shr_m R / 2 ^ Z.of_nat k.
Proof.
  intros HR. induction k as [|k IH].
  - simpl. rewrite Z.div_1_r. reflexivity.
  - rewrite Nat2Z.inj_succ, Z.pow_succ_r by lia.
    change (Nat.iter (S k) shr_1 R) with (shr_1 (Nat.iter k shr_1 R)).
    destruct (Nat.iter k shr_1 R) as [m r s] eqn:E. cbn [shr_m] in IH.
    assert (0 <= m) by (subst m; apply Z.div_pos; [assumption|apply Z.pow_pos_nonneg; lia]).
    rewrite shr_1_spec by assumption. cbn [shr_m].
    assert (0 < 2 ^ Z.of_nat k) by (apply Z.pow_pos_nonneg; lia).
    rewrite IH, Z.div_div by lia.
    f_equal. lia.
Qed.

Lemma mod_pow2_succ (m k : Z) :
  0 <= k ->
  m mod 2 ^ (k + 1) = m mod 2 ^ k + 2 ^ k * (if Z.odd (m / 2 ^ k) then 1 else 0).
Proof.
  intros Hk.
  assert (0 < 2 ^ k) by (apply Z.pow_pos_nonneg; lia).
  rewrite Z.pow_add_r, Z.pow_1_r by lia.
  rewrite Z.rem_mul_r by lia. rewrite Zmod_odd. reflexivity.
Qed.

Lemma shr_iter_exact (m : Z) (k : nat) :
  0 <= m ->
  Nat.iter (S k) shr_1 (Build_shr_record m false false)
  = Build_shr_record (m / 2 ^ Z.of_nat (S k)) (Z.odd (m / 2 ^ Z.of_nat k))
                     (negb (m mod 2 ^ Z.of_nat k =? 0)).
Proof.
  intros Hm. induction k as [|k IH].
  - change (Nat.iter 1 shr_1 ?R) with (shr_1 R).
    rewrite shr_1_spec by assumption.
    change (2 ^ Z.of_nat 1) with 2. change (2 ^ Z.of_nat 0) with 1.
    rewrite Z.div_1_r, Z.mod_1_r. reflexivity.
  - change (Nat.iter (S (S k)) shr_1 ?R) with (shr_1 (Nat.iter (S k) shr_1 R)).
    rewrite IH.
    assert (0 < 2 ^ Z.of_nat (S k)) by (apply Z.pow_pos_nonneg; lia).
    rewrite shr_1_spec by (apply Z.div_pos; lia).
    f_equal.
    + rewrite Z.div_div by lia.
      rewrite (Nat2Z.inj_succ (S k)), (Z.pow_succ_r _ (Z.of_nat (S k))) by lia.
      f_equal; lia.
    + rewrite (Nat2Z.inj_succ k). unfold Z.succ.
      rewrite mod_pow2_succ by lia.
      assert (0 < 2 ^ Z.of_nat k) by (apply Z.pow_pos_nonneg; lia).
      pose proof (Z.mod_pos_bound m (2 ^ Z.of_nat k) ltac:(lia)).
      destruct (Z.odd (m / 2 ^ Z.of_nat k));
        destruct (Z.eqb_spec (m mod 2 ^ Z.of_nat k) 0); simpl;
        symmetry; rewrite ?negb_true_iff, ?negb_false_iff;
        try (apply Z.eqb_neq; lia); try (apply Z.eqb_eq; lia).
Qed.

Lemma shr_nat (R : shr_record) (e n : Z) :
  shr R e n = (Nat.iter (Z.to_nat n) shr_1 R, e + Z.max n 0).
Proof.
  destruct n as [|p|p]; simpl.
  - f_equal; lia.
  - rewrite iter_pos_nat. f_equal; lia.
  - f_equal; lia.
Qed.

End Shift.

Section Rne.

Lemma rne_0_r (m : Z) : rne m 0 = m.
Proof. unfold rne. rewrite Z.mod_1_r, Z.div_1_r. reflexivity. Qed.

Lemma rne_bounds (m k : Z) :
  0 <= k -> m / 2 ^ k <= rne m k <= m / 2 ^ k + 1.
Proof.
  intros _. unfold rne.
  destruct (_ <? _); [lia|]. destruct (_ <? _); [lia|].
  destruct (Z.even _); lia.
Qed.

Lemma rne_exact (q k : Z) : 0 <= k -> rne (q * 2 ^ k) k = q.
Proof.
  intros Hk. unfold rne.
  assert (0 < 2 ^ k) by (apply Z.pow_pos_nonneg; lia).
  rewrite Z.mod_mul, Z.div_mul by lia.
  destruct (Z.ltb_spec (2 * 0) (2 ^ k)); [reflexivity|lia].
Qed.

Lemma rne_scale (m j k : Z) :
  0 <= j -> 0 <= k -> rne (m * 2 ^ j) (k + j) = rne m k.
Proof.
  intros Hj Hk. unfold rne.
  assert (0 < 2 ^ k) by (apply Z.pow_pos_nonneg; lia).
  assert (0 < 2 ^ j) by (apply Z.pow_pos_nonneg; lia).
  rewrite Z.pow_add_r by lia.
  rewrite Z.div_mul_cancel_r by lia.
  rewrite Zmult_mod_distr_r.
  destruct (Z.ltb_spec (2 * (m mod 2 ^ k)) (2 ^ k));
    destruct (Z.ltb_spec (2 * (m mod 2 ^ k * 2 ^ j)) (2 ^ k * 2 ^ j)); try nia.
  destruct (Z.ltb_spec (2 ^ k) (2 * (m mod 2 ^ k)));
    destruct (Z.ltb_spec (2 ^ k * 2 ^ j) (2 * (m mod 2 ^ k * 2 ^ j))); try nia;
    reflexivity.
Qed.

Lemma rne_mono (a b k : Z) : 0 <= k -> a <= b -> rne a k <= rne b k.
Proof.
  intros Hk Hab.
  assert (Hp : 0 < 2 ^ k) by (apply Z.pow_pos_nonneg; lia).
  pose proof (Z.div_le_mono a b (2 ^ k) Hp Hab) as Hq.
  pose proof (rne_bounds a Hk). pose proof (rne_bounds b Hk).
  destruct (Z.eq_dec (a / 2 ^ k) (b / 2 ^ k)) as [E|NE]; [|lia].
  assert (a mod 2 ^ k <= b mod 2 ^ k).
  { rewrite !Z.mod_eq by lia. rewrite E. lia. }
  unfold rne. rewrite E.
  destruct (Z.ltb_spec (2 * (a mod 2 ^ k)) (2 ^ k));
    destruct (Z.ltb_spec (2 * (b mod 2 ^ k)) (2 ^ k));
    destruct (Z.ltb_spec (2 ^ k) (2 * (a mod 2 ^ k)));
    destruct (Z.ltb_spec (2 ^ k) (2 * (b mod 2 ^ k)));
    destruct (Z.even (b / 2 ^ k)); lia.
Qed.

Lemma round_shr_exact (m e k : Z) :
  0 <= m ->
  let R := fst (shr (shr_record_of_loc m loc_Exact) e k) in
  round_nearest_even (shr_m R) (loc_of_shr_record R) = rne m (Z.max k 0).
Proof.
  intros Hm R. subst R. rewrite shr_nat. simpl fst.
  destruct (Z.to_nat k) as [|n] eqn:En.
  - replace (Z.max k 0) with 0 by lia. rewrite rne_0_r. reflexivity.
  - cbn [shr_record_of_loc]. rewrite shr_iter_exact by assumption.
    replace (Z.max k 0) with (Z.of_nat (S n)) by lia.
    unfold rne. rewrite (Nat2Z.inj_succ n). unfold Z.succ.
    rewrite (mod_pow2_succ m (k:=Z.of_nat n)) by lia.
    assert (0 < 2 ^ Z.of_nat n) by (apply Z.pow_pos_nonneg; lia).
    pose proof (Z.mod_pos_bound m (2 ^ Z.of_nat n) ltac:(lia)).
    rewrite Z.pow_add_r, Z.pow_1_r by lia.
    set (P := 2 ^ Z.of_nat n) in *. set (r0 := m mod P) in *.
    destruct (Z.odd (m / P)); destruct (Z.eqb_spec r0 0);
      cbn [negb loc_of_shr_record round_nearest_even shr_m].
    + destruct (Z.ltb_spec (2 * (r0 + P * 1)) (P * 2)); [lia|].
      destruct (Z.ltb_spec (P * 2) (2 * (r0 + P * 1))); [lia|].
      reflexivity.
    + destruct (Z.ltb_spec (2 * (r0 + P * 1)) (P * 2)); [lia|].
      destruct (Z.ltb_spec (P * 2) (2 * (r0 + P * 1))); [|lia].
      reflexivity.
    + destruct (Z.ltb_spec (2 * (r0 + P * 0)) (P * 2)); [|lia].
      reflexivity.
    + destruct (Z.ltb_spec (2 * (r0 + P * 0)) (P * 2)); [|lia].
      reflexivity.
Qed.

Lemma round_shr_bounds (m e k : Z) (l : location) :
  0 <= m ->
  let R := fst (shr (shr_record_of_loc m l) e k) in
  let q := m / 2 ^ Z.max k 0 in
  shr_m R = q /\
  q <= round_nearest_even (shr_m R) (loc_of_shr_record R) <= q + 1.
Proof.
  intros Hm R q. subst R q. rewrite shr_nat. simpl fst.
  assert (Hs : shr_m (shr_record_of_loc m l) = m)
    by (destruct l as [|[]]; reflexivity).
  rewrite shr_iter_m by (rewrite Hs; assumption).
  rewrite Hs. replace (Z.of_nat (Z.to_nat k)) with (Z.max k 0) by lia.
  split; [reflexivity|].
  destruct (Nat.iter (Z.to_nat k) shr_1 (shr_record_of_loc m l)) as [m' r s].
  unfold round_nearest_even, loc_of_shr_record.
  destruct r, s; try destruct (Z.even _); lia.
Qed.

End Rne.

Section Round.

Lemma le_1074_1074 : 1074 <= 1074.
Proof. lia. Qed.

Lemma le_1074_2148 : 1074 <= 2148.
Proof. lia. Qed.

Lemma fexp_eq (x : Z) : fexp F64.prec F64.emax x = fexp64 x.
Proof. reflexivity. Qed.

Lemma pow2_pos (k : Z) : 0 <= k -> 0 < 2 ^ k.
Proof. intros; apply Z.pow_pos_nonneg; lia. Qed.

Lemma div_pow2_lt (m d k : Z) :
  0 <= m -> 0 <= k -> 0 <= d - k -> m < 2 ^ d -> m / 2 ^ k < 2 ^ (d - k).
Proof.
  intros Hm Hk Hd H.
  pose proof (pow2_pos Hk).
  apply Z.div_lt_upper_bound; [lia|].
  rewrite <- Z.pow_add_r by lia. replace (k + (d - k)) with d by lia. assumption.
Qed.

Lemma div_pow2_ge (m d k : Z) :
  0 <= k -> 0 <= d - k -> 2 ^ d <= m -> 2 ^ (d - k) <= m / 2 ^ k.
Proof.
  intros Hk Hd H.
  pose proof (pow2_pos Hk).
  apply Z.div_le_lower_bound; [lia|].
  rewrite <- Z.pow_add_r by lia. replace (k + (d - k)) with d by lia. assumption.
Qed.

(** The quotient kept by the first shift has at most 53 bits. *)
Lemma quotient_lt (m e : Z) :
  0 <= m -> e <= fexp64 (Zdigits2 m + e) ->
  m / 2 ^ (fexp64 (Zdigits2 m + e) - e) < 2 ^ 53.
Proof.
  intros Hm He.
  destruct (Z.eq_dec m 0) as [->|Hne].
  { rewrite Z.div_0_l; [reflexivity|].
    pose proof (@pow2_pos (fexp64 (Zdigits2 0 + e) - e)). lia. }
  assert (Hpos : 0 < m) by lia.
  pose proof (Zdigits2_bounds Hpos) as [_ Hhi].
  pose proof (Zdigits2_pos Hpos).
  set (k := fexp64 (Zdigits2 m + e) - e) in *.
  assert (Zdigits2 m - 53 <= k) by (unfold k, fexp64; lia).
  destruct (Z_le_gt_dec k (Zdigits2 m)).
  - apply Z.lt_le_trans with (2 ^ (Zdigits2 m - k)).
    + apply div_pow2_lt; lia.
    + apply Z.pow_le_mono_r; lia.
  - rewrite Z.div_small; [reflexivity|]. split; [lia|].
    apply Z.lt_le_trans with (1 := Hhi). apply Z.pow_le_mono_r; lia.
Qed.

Lemma Zdigits2_le_54 (q : Z) : 0 <= q <= 2 ^ 53 -> Zdigits2 q <= 54.
Proof.
  intros H. destruct (Z.eq_dec q 0) as [->|]; [simpl; lia|].
  apply Zdigits2_le; [lia|lia|].
  change (2 ^ 54) with (2 * 2 ^ 53). lia.
Qed.

Lemma Zdigits2_gt_53 (q : Z) : 0 <= q <= 2 ^ 53 -> 53 < Zdigits2 q -> q = 2 ^ 53.
Proof.
  intros H Hd. destruct (Z.eq_dec q (2 ^ 53)); [assumption|].
  destruct (Z.eq_dec q 0) as [->|]; [simpl in Hd; lia|].
  assert (Zdigits2 q <= 53) by (apply Zdigits2_le; lia). lia.
Qed.

(** What [binary_round_aux] computes on an input that is aligned with the
    grid or finer. *)
Lemma binary_round_aux_pack (s : bool) (m e : Z) (l : location) :
  0 <= m -> e <= fexp64 (Zdigits2 m + e) ->
  let E := fexp64 (Zdigits2 m + e) in
  exists q,
    binary_round_aux F64.prec F64.emax s m e l = pack s q E
    /\ m / 2 ^ (E - e) <= q <= m / 2 ^ (E - e) + 1
    /\ (l = loc_Exact -> q = rne m (E - e)).
Proof.
  intros Hm He E.
  unfold binary_round_aux, shr_fexp. rewrite !fexp_eq. fold E.
  pose proof (round_shr_bounds e (E - e) l Hm) as HB. cbv zeta in HB.
  pose proof (fun Hl : l = loc_Exact => round_shr_exact e (E - e) Hm) as HX.
  cbv zeta in HX.
  replace (Z.max (E - e) 0) with (E - e) in * by lia.
  destruct (shr (shr_record_of_loc m l) e (E - e)) as [R e'] eqn:ER.
  assert (e' = E).
  { rewrite shr_nat in ER. injection ER as _ <-. lia. }
  subst e'. cbn [fst] in HB.
  set (q := round_nearest_even (shr_m R) (loc_of_shr_record R)) in *.
  exists q. destruct HB as [HR Hq].
  split; [|split; [exact Hq|]].
  2:{ intros ->. rewrite ER in HX. cbn [fst] in HX. exact (HX eq_refl). }
  pose proof (quotient_lt Hm He) as Hlt. fold E in Hlt.
  assert (Hq0 : 0 <= m / 2 ^ (E - e)).
  { apply Z.div_pos; [assumption|apply pow2_pos; lia]. }
  assert (Hq53 : 0 <= q <= 2 ^ 53) by lia.
  assert (HE : -1074 <= E) by (unfold E, fexp64; lia).
  unfold pack. rewrite ?fexp_eq. change (F64.emax - F64.prec) with 971.
  destruct (Z.leb_spec (Zdigits2 q) 53) as [Hd|Hd].
  - assert (Hn : fexp64 (Zdigits2 q + E) - E <= 0) by (unfold fexp64; lia).
    rewrite shr_nat.
    replace (Z.to_nat (fexp64 (Zdigits2 q + E) - E)) with 0%nat by lia.
    replace (E + Z.max (fexp64 (Zdigits2 q + E) - E) 0) with E by lia.
    cbn [Nat.iter nat_rect shr_record_of_loc shr_m]. reflexivity.
  - pose proof (Zdigits2_le_54 Hq53).
    assert (Hn : fexp64 (Zdigits2 q + E) - E = 1) by (unfold fexp64; lia).
    rewrite Hn, shr_nat. change (Z.to_nat 1) with 1%nat.
    change (Nat.iter 1 shr_1 ?X) with (shr_1 X).
    cbn [shr_record_of_loc]. rewrite shr_1_spec by lia.
    cbn [shr_m]. replace (E + Z.max 1 0) with (E + 1) by lia. reflexivity.
Qed.

Lemma pack_cases (s : bool) (q E : Z) :
  0 <= q <= 2 ^ 53 -> E <= 970 ->
  (q = 0 /\ pack s q E = S754_zero s)
  \/ (0 < q /\ Zdigits2 q <= 53 /\ pack s q E = S754_finite s (Z.to_pos q) E)
  \/ (q = 2 ^ 53 /\ pack s q E = S754_finite s (Z.to_pos (2 ^ 52)) (E + 1)).
Proof.
  intros Hq HE. unfold pack.
  destruct (Z.leb_spec (Zdigits2 q) 53) as [Hd|Hd].
  - destruct q as [|p|p]; [left; auto| |lia].
    right; left. split; [lia|]. split; [assumption|].
    destruct (Z.leb_spec E 971); [reflexivity|lia].
  - right; right. pose proof (Zdigits2_gt_53 Hq Hd) as ->.
    split; [reflexivity|].
    change (2 ^ 53 / 2) with (Z.pos (Z.to_pos (2 ^ 52))).
    cbv iota beta.
    destruct (Z.leb_spec (E + 1) 971); [reflexivity|lia].
Qed.

Lemma pack_finite (s : bool) (q E : Z) :
  0 <= q <= 2 ^ 53 -> E <= 970 -> F64.is_finite (pack s q E) = true.
Proof.
  intros Hq HE.
  destruct (pack_cases s Hq HE) as [[_ ->]|[(_ & _ & ->)|[_ ->]]]; reflexivity.
Qed.

Lemma pack_sign (s : bool) (q E : Z) :
  0 <= q <= 2 ^ 53 -> E <= 970 -> Fsign (pack s q E) = s.
Proof.
  intros Hq HE.
  destruct (pack_cases s Hq HE) as [[_ ->]|[(_ & _ & ->)|[_ ->]]]; reflexivity.
Qed.

Lemma pack_num (K : Z) (s : bool) (q E : Z) :
  0 <= q <= 2 ^ 53 -> E <= 970 -> 0 <= E + K ->
  Fnum K (pack s q E) = cond_Zopp s (q * 2 ^ (E + K)).
Proof.
  intros Hq HE HK.
  destruct (pack_cases s Hq HE) as [[-> ->]|[(H0 & _ & ->)|[-> ->]]].
  - destruct s; reflexivity.
  - cbn [Fnum]. rewrite Z2Pos.id by assumption. reflexivity.
  - cbn [Fnum]. f_equal.
    replace (E + 1 + K) with (1 + (E + K)) by lia.
    rewrite (Z.pow_add_r 2 1) by lia.
    change (Z.pos (Z.to_pos (2 ^ 52)) * (2 ^ 1 * 2 ^ (E + K)))
      with (2 ^ 52 * (2 * 2 ^ (E + K))).
    change (2 ^ 53) with (2 ^ 52 * 2). lia.
Qed.

(** [pack] is a canonical float when [q] fills the precision or sits on
    the lowest grid. *)
Lemma pack_valid (s : bool) (q E : Z) :
  0 <= q <= 2 ^ 53 -> -1074 <= E <= 970 ->
  q = 0 \/ 53 <= Zdigits2 q \/ E = -1074 ->
  valid64 (pack s q E) = true.
Proof.
  intros Hq HE HC.
  destruct (pack_cases s Hq (proj2 HE)) as [[_ ->]|[(H0 & Hd & ->)|[_ ->]]].
  - reflexivity.
  - unfold valid64, valid_binary, bounded, canonical_mantissa.
    rewrite fexp_eq.
    replace (Z.pos (digits2_pos (Z.to_pos q))) with (Zdigits2 q)
      by (destruct q; try lia; reflexivity).
    apply andb_true_intro; split; [apply Z.eqb_eq|apply Z.leb_le].
    + unfold fexp64. pose proof (Zdigits2_pos H0). lia.
    + change (F64.emax - F64.prec) with 971. lia.
  - unfold valid64, valid_binary, bounded, canonical_mantissa.
    rewrite fexp_eq.
    change (Z.pos (digits2_pos (Z.to_pos (2 ^ 52)))) with 53.
    apply andb_true_intro; split; [apply Z.eqb_eq|apply Z.leb_le].
    + unfold fexp64. lia.
    + change (F64.emax - F64.prec) with 971. lia.
Qed.

End Round.

Section Rounding.

Variable K : Z.
Hypothesis HK : 1074 <= K.

Lemma gexp_nonneg (X : Z) : 0 <= gexp K X.
Proof using HK. unfold gexp, fexp64. lia. Qed.

Lemma gexp_mono (X Y : Z) : 0 < X -> X <= Y -> gexp K X <= gexp K Y.
Proof using HK.
  intros HX HXY. pose proof (Zdigits2_mono HX HXY).
  unfold gexp, fexp64. lia.
Qed.

Lemma RND_0 : RND K 0 = 0.
Proof using HK.
  unfold RND, rne. rewrite Z.div_0_l, Z.mod_0_l.
  - pose proof (pow2_pos (gexp_nonneg 0)).
    destruct (Z.ltb_spec (2 * 0) (2 ^ gexp K 0)); lia.
  - pose proof (pow2_pos (gexp_nonneg 0)). lia.
  - pose proof (pow2_pos (gexp_nonneg 0)). lia.
Qed.

Lemma RND_nonneg (X : Z) : 0 <= X -> 0 <= RND K X.
Proof using HK.
  intros HX. unfold RND.
  pose proof (pow2_pos (gexp_nonneg X)).
  pose proof (rne_bounds X (gexp_nonneg X)).
  assert (0 <= X / 2 ^ gexp K X) by (apply Z.div_pos; lia).
  nia.
Qed.

(** Below the next power of two, a rounded value does not pass it. *)
Lemma RND_le_pow2 (X : Z) :
  0 < X -> RND K X <= 2 ^ Zdigits2 X.
Proof using HK.
  intros HX. unfold RND.
  pose proof (Zdigits2_bounds HX) as [_ Hhi].
  pose proof (Zdigits2_pos HX) as Hd.
  set (g := gexp K X). set (D := Zdigits2 X) in *.
  assert (Hg : 0 <= g) by apply gexp_nonneg.
  pose proof (pow2_pos Hg) as Hpg.
  destruct (Z_le_gt_dec g D) as [Hle|Hgt].
  - pose proof (rne_bounds X Hg) as [_ Hr]. fold g in Hr.
    assert (X / 2 ^ g < 2 ^ (D - g)) by (apply div_pow2_lt; lia).
    replace (2 ^ D) with (2 ^ (D - g) * 2 ^ g)
      by (rewrite <- Z.pow_add_r by lia; f_equal; lia).
    nia.
  - assert (Hlt : 2 * X < 2 ^ g).
    { replace g with (1 + (g - 1)) by lia. rewrite Z.pow_add_r by lia.
      change (2 ^ 1) with 2.
      assert (2 ^ D <= 2 ^ (g - 1)) by (apply Z.pow_le_mono_r; lia). lia. }
    unfold rne. rewrite Z.mod_small, Z.div_small by lia.
    destruct (Z.ltb_spec (2 * X) (2 ^ g)); [|lia].
    pose proof (pow2_pos (Z.lt_le_incl _ _ Hd)). lia.
Qed.

(** On a grid that is not the lowest one, rounding keeps the leading power
    of two. *)
Lemma RND_ge_pow2 (X : Z) :
  0 < X -> gexp K X <= Zdigits2 X - 1 -> 2 ^ (Zdigits2 X - 1) <= RND K X.
Proof using HK.
  intros HX Hg. unfold RND.
  pose proof (Zdigits2_bounds HX) as [Hlo _].
  set (g := gexp K X) in *. set (D := Zdigits2 X) in *.
  assert (Hg0 : 0 <= g) by apply gexp_nonneg.
  pose proof (pow2_pos Hg0) as Hpg.
  pose proof (rne_bounds X Hg0) as [Hr _]. fold g in Hr.
  assert (2 ^ (D - 1 - g) <= X / 2 ^ g) by (apply div_pow2_ge; lia).
  replace (2 ^ (D - 1)) with (2 ^ (D - 1 - g) * 2 ^ g)
    by (rewrite <- Z.pow_add_r by lia; f_equal; lia).
  nia.
Qed.

Theorem RND_mono (X Y : Z) : 0 <= X -> X <= Y -> RND K X <= RND K Y.
Proof using HK.
  intros HX HXY.
  destruct (Z.eq_dec X 0) as [->|HX0].
  { rewrite RND_0. apply RND_nonneg. lia. }
  assert (HXp : 0 < X) by lia. assert (HYp : 0 < Y) by lia.
  pose proof (gexp_mono HXp HXY) as Hg.
  pose proof (Zdigits2_mono HXp HXY) as Hd.
  destruct (Z.eq_dec (gexp K X) (gexp K Y)) as [E|NE].
  - unfold RND. rewrite E.
    pose proof (pow2_pos (gexp_nonneg Y)).
    pose proof (rne_mono (gexp_nonneg Y) HXY). nia.
  - assert (HgY : gexp K Y = Zdigits2 Y - 53).
    { pose proof (gexp_nonneg X). unfold gexp, fexp64 in *. lia. }
    assert (HdXY : Zdigits2 X < Zdigits2 Y).
    { unfold gexp, fexp64 in *. lia. }
    apply Z.le_trans with (2 ^ Zdigits2 X); [apply RND_le_pow2; assumption|].
    apply Z.le_trans with (2 ^ (Zdigits2 Y - 1)).
    + apply Z.pow_le_mono_r; lia.
    + apply RND_ge_pow2; lia.
Qed.

Lemma sRND_mono (x y : Z) : x <= y -> sRND K x <= sRND K y.
Proof using HK.
  intros Hxy. unfold sRND.
  destruct (Z.ltb_spec x 0); destruct (Z.ltb_spec y 0); try lia.
  - pose proof (@RND_mono (- y) (- x)). lia.
  - pose proof (@RND_nonneg (- x)). pose proof (@RND_nonneg y). lia.
  - apply RND_mono; lia.
Qed.

Lemma sRND_0 : sRND K 0 = 0.
Proof using HK. unfold sRND. simpl. apply RND_0. Qed.

(** A value on its own grid is not changed. *)
Lemma RND_exact (m e : Z) :
  0 < m -> 0 <= e + K -> fexp64 (Zdigits2 m + e) <= e ->
  RND K (m * 2 ^ (e + K)) = m * 2 ^ (e + K).
Proof using HK.
  intros Hm He Hc. unfold RND, gexp.
  rewrite Zdigits2_mul_pow2 by lia.
  replace (Zdigits2 m + (e + K) - K) with (Zdigits2 m + e) by lia.
  set (g := fexp64 (Zdigits2 m + e) + K).
  assert (0 <= g) by (unfold g, fexp64; lia).
  replace (m * 2 ^ (e + K)) with (m * 2 ^ (e + K - g) * 2 ^ g).
  - rewrite rne_exact by lia. reflexivity.
  - rewrite <- Z.mul_assoc, <- Z.pow_add_r by lia. do 2 f_equal. lia.
Qed.

(** The value [binary_round_aux] returns for an exact input. *)
Lemma binary_round_aux_num (s : bool) (m e : Z) :
  0 < m -> e <= fexp64 (Zdigits2 m + e) -> - K <= e ->
  Zdigits2 m + e <= 1023 ->
  let f := binary_round_aux F64.prec F64.emax s m e loc_Exact in
  F64.is_finite f = true /\ Fsign f = s /\ valid64 f = true
  /\ Fnum K f = cond_Zopp s (RND K (m * 2 ^ (e + K))).
Proof using HK.
  intros Hm He HeK Hmag f. subst f.
  destruct (@binary_round_aux_pack s m e loc_Exact) as (q & -> & Hq & Hx);
    [lia|assumption|].
  specialize (Hx eq_refl).
  set (E := fexp64 (Zdigits2 m + e)) in *.
  pose proof (@quotient_lt m e ltac:(lia) He) as Hlt. fold E in Hlt.
  assert (0 <= m / 2 ^ (E - e)) by (apply Z.div_pos; [lia|apply pow2_pos; lia]).
  assert (Hq53 : 0 <= q <= 2 ^ 53) by lia.
  assert (HE : -1074 <= E <= 970) by (unfold E, fexp64; lia).
  split; [apply pack_finite; lia|].
  split; [apply pack_sign; lia|].
  split.
  - apply pack_valid; try lia.
    destruct (Z.eq_dec E (-1074)) as [|HEn]; [auto|].
    right; left.
    assert (HEd : E - e = Zdigits2 m - 53) by (unfold E, fexp64 in *; lia).
    pose proof (Zdigits2_bounds Hm) as [Hlo _].
    assert (2 ^ (Zdigits2 m - 1 - (E - e)) <= m / 2 ^ (E - e))
      by (apply div_pow2_ge; lia).
    replace (Zdigits2 m - 1 - (E - e)) with 52 in * by lia.
    apply Zdigits2_ge; lia.
  - rewrite pack_num by lia. f_equal.
    unfold RND, gexp. rewrite Zdigits2_mul_pow2 by lia.
    replace (Zdigits2 m + (e + K) - K) with (Zdigits2 m + e) by lia.
    fold E. replace (E + K) with (E - e + (e + K)) at 2 by lia.
    rewrite rne_scale by lia. rewrite <- Hx. reflexivity.
Qed.

Lemma Fmag_pack (s : bool) (q E B : Z) :
  0 <= q <= 2 ^ 53 -> E <= 970 -> -1074 <= B ->
  (0 < q -> Zdigits2 q + E <= B) ->
  Fmag (pack s q E) <= B.
Proof.
  intros Hq HE HB Hm.
  destruct (pack_cases s Hq HE) as [[_ ->]|[(H0 & Hd & ->)|[-> ->]]].
  - simpl. assumption.
  - cbn [Fmag]. rewrite Z2Pos.id by assumption. auto.
  - cbn [Fmag]. specialize (Hm eq_refl).
    change (Zdigits2 (2 ^ 53)) with 54 in Hm.
    change (Zdigits2 (Z.pos (Z.to_pos (2 ^ 52)))) with 53. lia.
Qed.

(** What is known of [binary_round_aux] whatever the location. *)
Lemma binary_round_aux_bound (s : bool) (m e : Z) (l : location) :
  0 <= m -> e <= fexp64 (Zdigits2 m + e) -> Zdigits2 m + e <= 1023 ->
  let f := binary_round_aux F64.prec F64.emax s m e l in
  F64.is_finite f = true /\ Fsign f = s /\ valid64 f = true
  /\ Fmag f <= Z.max (Zdigits2 m + e + 1) (-1073).
Proof using HK.
  intros Hm He Hmag f. subst f.
  destruct (@binary_round_aux_pack s m e l) as (q & -> & Hq & _);
    [lia|assumption|].
  set (E := fexp64 (Zdigits2 m + e)) in *.
  pose proof (@quotient_lt m e ltac:(lia) He) as Hlt. fold E in Hlt.
  assert (Hk : 0 <= E - e) by lia.
  assert (Hq0 : 0 <= m / 2 ^ (E - e)) by (apply Z.div_pos; [lia|apply pow2_pos; lia]).
  assert (Hq53 : 0 <= q <= 2 ^ 53) by lia.
  assert (HE : -1074 <= E <= 970) by (unfold E, fexp64; lia).
  split; [apply pack_finite; lia|].
  split; [apply pack_sign; lia|].
  destruct (Z.eq_dec m 0) as [->|Hm0].
  { rewrite Z.div_0_l in Hq by (pose proof (pow2_pos Hk); lia).
    assert (HE0 : E = -1074).
    { unfold E, fexp64 in *. change (Zdigits2 0) with 0 in *. lia. }
    split; [apply pack_valid; lia|].
    apply Fmag_pack; try lia. intros Hq1.
    assert (q = 1) by lia. subst q. change (Zdigits2 1) with 1. lia. }
  assert (Hmp : 0 < m) by lia.
  pose proof (Zdigits2_bounds Hmp) as [Hlo Hhi].
  pose proof (Zdigits2_pos Hmp) as Hdp.
  split.
  - apply pack_valid; try lia.
    destruct (Z.eq_dec E (-1074)) as [|HEn]; [auto|].
    right; left.
    assert (HEd : E - e = Zdigits2 m - 53) by (unfold E, fexp64 in *; lia).
    assert (2 ^ (Zdigits2 m - 1 - (E - e)) <= m / 2 ^ (E - e))
      by (apply div_pow2_ge; lia).
    replace (Zdigits2 m - 1 - (E - e)) with 52 in * by lia.
    apply Zdigits2_ge; lia.
  - apply Fmag_pack; try lia. intros Hq1.
    destruct (Z_le_gt_dec (E - e) (Zdigits2 m)) as [Hle|Hgt].
    + assert (m / 2 ^ (E - e) < 2 ^ (Zdigits2 m - (E - e)))
        by (apply div_pow2_lt; lia).
      assert (Zdigits2 q <= Zdigits2 m - (E - e) + 1); [|lia].
      apply Zdigits2_le; try lia.
      rewrite Z.pow_add_r by lia. change (2 ^ 1) with 2. lia.
    + rewrite Z.div_small in Hq.
      2:{ split; [lia|]. apply Z.lt_le_trans with (1 := Hhi).
          apply Z.pow_le_mono_r; lia. }
      assert (q = 1) by lia. subst q. change (Zdigits2 1) with 1.
      unfold E, fexp64 in *. lia.
Qed.

End Rounding.

Section Normalize.

Variable K : Z.
Hypothesis HK : 1074 <= K.

Lemma iter_xO (m d : positive) : Zpos (Pos.iter xO m d) = Zpos m * 2 ^ Zpos d.
Proof.
  induction d as [|d IH] using Pos.peano_ind.
  - cbn [Pos.iter]. rewrite Pos2Z.inj_xO. change (2 ^ 1) with 2. lia.
  - rewrite Pos.iter_succ, Pos2Z.inj_xO, IH, Pos2Z.inj_succ, Z.pow_succ_r by lia.
    lia.
Qed.

Lemma shl_align_spec (m : positive) (e e' : Z) :
  snd (shl_align m e e') = Z.min e e'
  /\ Zpos (fst (shl_align m e e')) = Zpos m * 2 ^ (e - Z.min e e').
Proof.
  unfold shl_align. destruct (e' - e) as [|d|d] eqn:Ed; cbn [fst snd].
  - replace (e - Z.min e e') with 0 by lia. split; lia.
  - replace (e - Z.min e e') with 0 by lia. split; lia.
  - rewrite iter_xO. replace (e - Z.min e e') with (Zpos d) by lia.
    split; lia.
Qed.

Lemma binary_round_num (s : bool) (m : positive) (e : Z) :
  - K <= e -> Zdigits2 (Zpos m) + e <= 1023 ->
  let f := binary_round F64.prec F64.emax s m e in
  F64.is_finite f = true /\ Fsign f = s /\ valid64 f = true
  /\ Fnum K f = cond_Zopp s (RND K (Zpos m * 2 ^ (e + K)))
  /\ Fmag f <= Z.max (Zdigits2 (Zpos m) + e + 1) (-1073).
Proof using HK.
  intros He Hmag f. subst f. unfold binary_round.
  rewrite fexp_eq. change (Z.pos (digits2_pos m)) with (Zdigits2 (Zpos m)).
  set (E := fexp64 (Zdigits2 (Zpos m) + e)).
  pose proof (shl_align_spec m e E) as [Hs Hm].
  destruct (shl_align m e E) as [mz ez]. cbn [fst snd] in Hs, Hm. subst ez.
  assert (Hd : Zdigits2 (Zpos mz) + Z.min e E = Zdigits2 (Zpos m) + e).
  { rewrite Hm, Zdigits2_mul_pow2 by lia. lia. }
  assert (Hal : Z.min e E <= fexp64 (Zdigits2 (Zpos mz) + Z.min e E)).
  { rewrite Hd. fold E. lia. }
  assert (HEl : -1074 <= E) by (unfold E, fexp64; lia).
  destruct (@binary_round_aux_num K HK s (Zpos mz) (Z.min e E))
    as (Hf & Hsg & Hv & Hn); try lia.
  destruct (@binary_round_aux_bound K HK s (Zpos mz) (Z.min e E) loc_Exact)
    as (_ & _ & _ & Hb); try lia.
  repeat split; try assumption.
  - rewrite Hn. do 2 f_equal. rewrite Hm, <- Z.mul_assoc, <- Z.pow_add_r by lia.
    do 2 f_equal. lia.
  - rewrite Hd in Hb. exact Hb.
Qed.

Lemma cond_Zopp_sRND (s : bool) (X : Z) :
  0 < X -> cond_Zopp s (RND K X) = sRND K (cond_Zopp s X).
Proof using HK.
  intros HX. unfold sRND. destruct s; cbn [cond_Zopp].
  - destruct (Z.ltb_spec (- X) 0); [|lia]. rewrite Z.opp_involutive. reflexivity.
  - destruct (Z.ltb_spec X 0); [lia|]. reflexivity.
Qed.

Lemma binary_normalize_num (z e : Z) (szero : bool) :
  - K <= e -> Zdigits2 z + e <= 1023 ->
  let f := binary_normalize F64.prec F64.emax z e szero in
  F64.is_finite f = true /\ valid64 f = true
  /\ Fnum K f = sRND K (z * 2 ^ (e + K))
  /\ Fmag f <= Z.max (Zdigits2 z + e + 1) (-1073)
  /\ (0 < z -> Fsign f = false) /\ (z < 0 -> Fsign f = true)
  /\ (z = 0 -> f = S754_zero szero).
Proof using HK.
  intros He Hmag f. subst f.
  assert (Hp : 0 < 2 ^ (e + K)) by (apply pow2_pos; lia).
  destruct z as [|p|p]; cbn [binary_normalize].
  - cbn [Fmag Fnum Fsign F64.is_finite].
    rewrite Z.mul_0_l, sRND_0 by assumption.
    repeat split; try reflexivity; lia.
  - destruct (@binary_round_num false p e He Hmag) as (Hf & Hs & Hv & Hn & Hb).
    repeat split; intros; try assumption; try lia.
    rewrite Hn. apply (@cond_Zopp_sRND false). lia.
  - destruct (@binary_round_num true p e He Hmag) as (Hf & Hs & Hv & Hn & Hb).
    repeat split; intros; try assumption; try lia.
    rewrite Hn, cond_Zopp_sRND by lia. f_equal. cbn [cond_Zopp]. lia.
Qed.

End Normalize.

Section Compare.

Lemma valid_finite_inv (s : bool) (m : positive) (e : Z) :
  valid64 (S754_finite s m e) = true ->
  fexp64 (Zdigits2 (Zpos m) + e) = e /\ -1074 <= e <= 971
  /\ Zdigits2 (Zpos m) <= 53.
Proof.
  unfold valid64, valid_binary, bounded, canonical_mantissa.
  rewrite fexp_eq. change (F64.emax - F64.prec) with 971.
  change (Z.pos (digits2_pos m)) with (Zdigits2 (Zpos m)).
  intros H. apply andb_prop in H as [H1 H2].
  apply Z.eqb_eq in H1. apply Z.leb_le in H2.
  unfold fexp64 in *. lia.
Qed.

Lemma canonical_lt (m1 m2 : positive) (e1 e2 : Z) :
  fexp64 (Zdigits2 (Zpos m1) + e1) = e1 ->
  fexp64 (Zdigits2 (Zpos m2) + e2) = e2 ->
  e1 < e2 ->
  Zpos m1 * 2 ^ (e1 + 1074) < Zpos m2 * 2 ^ (e2 + 1074).
Proof.
  intros H1 H2 Hlt.
  pose proof (@Zdigits2_bounds (Zpos m1) ltac:(lia)) as [_ Hhi].
  pose proof (@Zdigits2_bounds (Zpos m2) ltac:(lia)) as [Hlo _].
  pose proof (@Zdigits2_pos (Zpos m1) ltac:(lia)).
  pose proof (@Zdigits2_pos (Zpos m2) ltac:(lia)).
  set (d1 := Zdigits2 (Zpos m1)) in *. set (d2 := Zdigits2 (Zpos m2)) in *.
  assert (Hd : d1 + e1 < d2 + e2) by (unfold fexp64 in *; lia).
  assert (He1 : 0 <= e1 + 1074) by (unfold fexp64 in *; lia).
  assert (He2 : 0 <= e2 + 1074) by lia.
  pose proof (pow2_pos He1). pose proof (pow2_pos He2).
  apply Z.lt_le_trans with (2 ^ d1 * 2 ^ (e1 + 1074)); [nia|].
  apply Z.le_trans with (2 ^ (d2 - 1) * 2 ^ (e2 + 1074)); [|nia].
  rewrite <- !Z.pow_add_r by lia. apply Z.pow_le_mono_r; lia.
Qed.

Lemma compare_scaled (m1 m2 : positive) (e1 e2 : Z) :
  valid64 (S754_finite false m1 e1) = true ->
  valid64 (S754_finite false m2 e2) = true ->
  (Zpos m1 * 2 ^ (e1 + 1074) ?= Zpos m2 * 2 ^ (e2 + 1074))
  = match e1 ?= e2 with
    | Lt => Lt
    | Gt => Gt
    | Eq => Pos.compare_cont Eq m1 m2
    end.
Proof.
  intros H1 H2.
  apply valid_finite_inv in H1 as (C1 & B1 & _).
  apply valid_finite_inv in H2 as (C2 & B2 & _).
  destruct (Z.compare_spec e1 e2) as [->|Hlt|Hgt].
  - change (Pos.compare_cont Eq m1 m2) with (Zpos m1 ?= Zpos m2).
    symmetry. apply Zmult_compare_compat_r.
    assert (0 < 2 ^ (e2 + 1074)) by (apply pow2_pos; lia). lia.
  - apply Z.compare_lt_iff. apply canonical_lt; assumption.
  - apply Z.compare_gt_iff. apply canonical_lt; assumption.
Qed.

Theorem SFcompare_V (x y : float) :
  F64.is_finite x = true -> F64.is_finite y = true ->
  valid64 x = true -> valid64 y = true ->
  SFcompare x y = Some (V x ?= V y).
Proof.
  intros Fx Fy Vx Vy.
  destruct x as [sx|sx| |sx mx ex]; try discriminate;
    destruct y as [sy|sy| |sy my ey]; try discriminate.
  - reflexivity.
  - apply valid_finite_inv in Vy as (_ & By & _).
    assert (0 < 2 ^ (ey + 1074)) by (apply pow2_pos; lia).
    unfold V, Fnum. cbn [SFcompare].
    destruct sy; cbn [cond_Zopp]; f_equal; symmetry.
    + apply Z.compare_gt_iff. nia.
    + apply Z.compare_lt_iff. nia.
  - apply valid_finite_inv in Vx as (_ & Bx & _).
    assert (0 < 2 ^ (ex + 1074)) by (apply pow2_pos; lia).
    unfold V, Fnum. cbn [SFcompare].
    destruct sx; cbn [cond_Zopp]; f_equal; symmetry.
    + apply Z.compare_lt_iff. nia.
    + apply Z.compare_gt_iff. nia.
  - assert (Vx' : valid64 (S754_finite false mx ex) = true) by exact Vx.
    assert (Vy' : valid64 (S754_finite false my ey) = true) by exact Vy.
    pose proof (@compare_scaled mx my ex ey Vx' Vy') as Hc.
    pose proof (@compare_scaled my mx ey ex Vy' Vx') as Hc'.
    apply valid_finite_inv in Vx as (_ & Bx & _).
    apply valid_finite_inv in Vy as (_ & By & _).
    assert (0 < 2 ^ (ex + 1074)) by (apply pow2_pos; lia).
    assert (0 < 2 ^ (ey + 1074)) by (apply pow2_pos; lia).
    unfold V, Fnum. cbn [SFcompare].
    destruct sx, sy; cbn [cond_Zopp]; f_equal.
    + rewrite Z.compare_opp, Hc'.
      rewrite (Z.compare_antisym ex ey), (Pos.compare_cont_antisym mx my Eq).
      destruct (ex ?= ey); reflexivity.
    + symmetry. apply Z.compare_lt_iff. nia.
    + symmetry. apply Z.compare_gt_iff. nia.
    + rewrite Hc. reflexivity.
Qed.

Lemma SFleb_V (x y : float) :
  F64.is_finite x = true -> F64.is_finite y = true ->
  valid64 x = true -> valid64 y = true ->
  SFleb x y = (V x <=? V y).
Proof.
  intros. unfold SFleb. rewrite SFcompare_V by assumption.
  unfold Z.leb. destruct (V x ?= V y); reflexivity.
Qed.

Lemma SFltb_V (x y : float) :
  F64.is_finite x = true -> F64.is_finite y = true ->
  valid64 x = true -> valid64 y = true ->
  SFltb x y = (V x <? V y).
Proof.
  intros. unfold SFltb. rewrite SFcompare_V by assumption.
  unfold Z.ltb. destruct (V x ?= V y); reflexivity.
Qed.

End Compare.

Section Operations.

Lemma Zdigits2_opp (z : Z) : Zdigits2 (- z) = Zdigits2 z.
Proof. destruct z; reflexivity. Qed.

Lemma Zdigits2_nonneg (z : Z) : 0 <= Zdigits2 z.
Proof. destruct z; simpl; lia. Qed.

Lemma Zdigits2_abs_le (z d : Z) : 0 <= d -> Z.abs z < 2 ^ d -> Zdigits2 z <= d.
Proof.
  intros Hd H. destruct (Z.eq_dec z 0) as [->|Hz]; [simpl; lia|].
  destruct (Z_lt_le_dec z 0).
  - rewrite <- Zdigits2_opp. apply Zdigits2_le; lia.
  - apply Zdigits2_le; lia.
Qed.

Lemma Zdigits2_mul (a b : Z) :
  0 < a -> 0 < b ->
  Zdigits2 a + Zdigits2 b - 1 <= Zdigits2 (a * b) <= Zdigits2 a + Zdigits2 b.
Proof.
  intros Ha Hb.
  pose proof (Zdigits2_bounds Ha) as [La Ua].
  pose proof (Zdigits2_bounds Hb) as [Lb Ub].
  pose proof (Zdigits2_pos Ha). pose proof (Zdigits2_pos Hb).
  assert (0 < 2 ^ (Zdigits2 a - 1)) by (apply pow2_pos; lia).
  assert (0 < 2 ^ (Zdigits2 b - 1)) by (apply pow2_pos; lia).
  split.
  - apply Zdigits2_ge; [nia|].
    replace (Zdigits2 a + Zdigits2 b - 1 - 1)
      with ((Zdigits2 a - 1) + (Zdigits2 b - 1)) by lia.
    rewrite Z.pow_add_r by lia. nia.
  - apply Zdigits2_le; [nia|lia|].
    rewrite Z.pow_add_r by lia. nia.
Qed.

(** *** Values of valid floats *)

Lemma sRND_V (f : float) :
  F64.is_finite f = true -> valid64 f = true -> sRND 1074 (V f) = V f.
Proof.
  intros Hf Hv. destruct f as [s|s| |s m e]; try discriminate;
    try (apply sRND_0; lia).
  apply valid_finite_inv in Hv as (Hc & Hb & _).
  unfold V, Fnum.
  assert (0 < 2 ^ (e + 1074)) by (apply pow2_pos; lia).
  rewrite <- cond_Zopp_sRND by nia.
  rewrite RND_exact by lia. reflexivity.
Qed.

Lemma V_pos_sign (f : float) : 0 < V f -> Fsign f = false.
Proof.
  destruct f as [s|s| |s m e]; unfold V, Fnum; try lia.
  destruct s; cbn [cond_Zopp Fsign]; [|reflexivity].
  intros H. destruct (Z_le_gt_dec 0 (e + 1074)) as [He|He].
  - pose proof (pow2_pos He). nia.
  - rewrite Z.pow_neg_r in H by lia. lia.
Qed.

Lemma Fmag_lower (f : float) : valid64 f = true -> -1074 <= Fmag f.
Proof.
  destruct f as [s|s| |s m e]; cbn [Fmag]; try lia.
  intros Hv. apply valid_finite_inv in Hv as (_ & Hb & _).
  pose proof (@Zdigits2_pos (Zpos m) ltac:(lia)). lia.
Qed.

Lemma V_abs_lt (f : float) :
  valid64 f = true -> Z.abs (V f) < 2 ^ (Fmag f + 1074).
Proof.
  intros Hv. destruct f as [s|s| |s m e]; try reflexivity.
  apply valid_finite_inv in Hv as (_ & Hb & _).
  pose proof (@Zdigits2_bounds (Zpos m) ltac:(lia)) as [_ Hhi].
  pose proof (@Zdigits2_pos (Zpos m) ltac:(lia)).
  assert (0 < 2 ^ (e + 1074)) by (apply pow2_pos; lia).
  unfold V, Fnum, Fmag.
  replace (Zdigits2 (Z.pos m) + e + 1074) with (Zdigits2 (Z.pos m) + (e + 1074)) by lia.
  rewrite (Z.pow_add_r 2 (Zdigits2 (Z.pos m)) (e + 1074)) by lia.
  destruct s; cbn [cond_Zopp].
  - rewrite Z.abs_opp, Z.abs_eq by nia. nia.
  - rewrite Z.abs_eq by nia. nia.
Qed.

(** *** [float(z)] *)

Lemma RND_pos (X : Z) : 0 < X -> 0 < RND 1074 X.
Proof.
  intros HX. pose proof (Zdigits2_pos HX).
  apply Z.lt_le_trans with (2 ^ (Zdigits2 X - 1)); [apply pow2_pos; lia|].
  apply RND_ge_pow2; [lia|assumption|]. unfold gexp, fexp64. lia.
Qed.

Lemma float_of_int_num (z : Z) :
  0 <= z -> Zdigits2 z <= 1023 ->
  exists f,
    float_of_int z = Ok f /\ F64.is_finite f = true /\ valid64 f = true
    /\ V f = RND 1074 (z * 2 ^ 1074) /\ Fsign f = false
    /\ Fmag f <= Z.max (Zdigits2 z + 1) (-1073).
Proof.
  intros Hz Hd. unfold float_of_int, F64.of_scaled.
  destruct (@binary_normalize_num 1074 le_1074_1074 z 0 false)
    as (Hf & Hv & Hn & Hb & Hs & _ & H0); try lia.
  exists (binary_normalize F64.prec F64.emax z 0 false).
  assert (Hsg : Fsign (binary_normalize F64.prec F64.emax z 0 false) = false).
  { destruct (Z.eq_dec z 0) as [E|NE]; [rewrite (H0 E); reflexivity|apply Hs; lia]. }
  repeat split; try assumption.
  - destruct (binary_normalize F64.prec F64.emax z 0 false); try reflexivity; discriminate.
  - unfold V. rewrite Hn. unfold sRND.
    assert (0 < 2 ^ (0 + 1074)) by (apply pow2_pos; lia).
    destruct (Z.ltb_spec (z * 2 ^ (0 + 1074)) 0); [nia|reflexivity].
  - replace (Zdigits2 z + 0 + 1) with (Zdigits2 z + 1) in Hb by lia. exact Hb.
Qed.

Lemma Zdigits2_ssize (z : Z) : 0 <= z <= PY_SSIZE_T_MAX -> Zdigits2 z <= 63.
Proof.
  unfold PY_SSIZE_T_MAX. intros H.
  destruct (Z.eq_dec z 0) as [->|]; [simpl; lia|].
  apply Zdigits2_le; lia.
Qed.

(** *** Negation, addition, subtraction *)

Lemma SFopp_props (f : float) :
  F64.is_finite (SFopp f) = F64.is_finite f /\ valid64 (SFopp f) = valid64 f
  /\ V (SFopp f) = - V f /\ Fmag (SFopp f) = Fmag f.
Proof.
  destruct f as [s|s| |s m e]; repeat split; try reflexivity.
  unfold V, Fnum. cbn [SFopp]. destruct s; cbn [negb cond_Zopp]; lia.
Qed.

Lemma SFsub_add_opp (x y : float) :
  F64.is_finite x = true -> F64.is_finite y = true ->
  F64.sub x y = F64.add x (SFopp y).
Proof.
  intros Hx Hy. unfold F64.sub, F64.add.
  destruct x as [sx|sx| |sx mx ex]; try discriminate;
    destruct y as [sy|sy| |sy my ey]; try discriminate;
    cbn [SFsub SFadd SFopp].
  - destruct sx, sy; reflexivity.
  - reflexivity.
  - reflexivity.
  - f_equal. destruct sy; cbn [negb cond_Zopp]; lia.
Qed.

Theorem add_V (x y : float) (B : Z) :
  F64.is_finite x = true -> F64.is_finite y = true ->
  valid64 x = true -> valid64 y = true ->
  Fmag x <= B -> Fmag y <= B -> B <= 1021 ->
  let z := F64.add x y in
  F64.is_finite z = true /\ valid64 z = true
  /\ V z = sRND 1074 (V x + V y) /\ Fmag z <= B + 2.
Proof.
  intros Fx Fy Vx Vy Bx By HB z. subst z. unfold F64.add.
  pose proof (Fmag_lower _ Vx) as Lx. pose proof (Fmag_lower _ Vy) as Ly.
  destruct x as [sx|sx| |sx mx ex]; try discriminate;
    destruct y as [sy|sy| |sy my ey]; try discriminate.
  - cbn [SFadd]. destruct sx, sy; cbn [V Fnum Fmag];
      rewrite sRND_0 by lia; repeat split; cbn [Fmag] in *; lia.
  - cbn [SFadd]. change (V (S754_zero sx)) with 0. rewrite Z.add_0_l.
    rewrite sRND_V by assumption. repeat split; try assumption; lia.
  - cbn [SFadd]. change (V (S754_zero sy)) with 0. rewrite Z.add_0_r.
    rewrite sRND_V by assumption. repeat split; try assumption; lia.
  - cbn [SFadd].
    pose proof (valid_finite_inv _ _ _ Vx) as (_ & Ex & _).
    pose proof (valid_finite_inv _ _ _ Vy) as (_ & Ey & _).
    pose proof (V_abs_lt _ Vx) as Ax. pose proof (V_abs_lt _ Vy) as Ay.
    set (ez := Z.min ex ey).
    pose proof (shl_align_spec mx ex ez) as [_ Hmx].
    pose proof (shl_align_spec my ey ez) as [_ Hmy].
    replace (Z.min ex ez) with ez in Hmx by lia.
    replace (Z.min ey ez) with ez in Hmy by lia.
    rewrite Hmx, Hmy.
    set (S := cond_Zopp sx (Z.pos mx * 2 ^ (ex - ez))
              + cond_Zopp sy (Z.pos my * 2 ^ (ey - ez))).
    assert (Hp : 0 < 2 ^ (ez + 1074)) by (apply pow2_pos; lia).
    assert (HS : S * 2 ^ (ez + 1074)
                 = V (S754_finite sx mx ex) + V (S754_finite sy my ey)).
    { unfold S, V, Fnum.
      replace (2 ^ (ex + 1074)) with (2 ^ (ex - ez) * 2 ^ (ez + 1074))
        by (rewrite <- Z.pow_add_r by lia; f_equal; lia).
      replace (2 ^ (ey + 1074)) with (2 ^ (ey - ez) * 2 ^ (ez + 1074))
        by (rewrite <- Z.pow_add_r by lia; f_equal; lia).
      destruct sx, sy; cbn [cond_Zopp]; ring. }
    assert (HdS : Zdigits2 S + ez <= B + 1).
    { assert (Zdigits2 S <= B + 1 - ez); [|lia].
      cbn [Fmag] in *.
      pose proof (@Zdigits2_pos (Zpos mx) ltac:(lia)).
      pose proof (@Zdigits2_pos (Zpos my) ltac:(lia)).
      apply Zdigits2_abs_le; [lia|].
      assert (2 ^ (Zdigits2 (Z.pos mx) + ex + 1074) <= 2 ^ (B + 1074))
        by (apply Z.pow_le_mono_r; lia).
      assert (2 ^ (Zdigits2 (Z.pos my) + ey + 1074) <= 2 ^ (B + 1074))
        by (apply Z.pow_le_mono_r; lia).
      assert (Z.abs S * 2 ^ (ez + 1074) < 2 ^ (B + 1 - ez) * 2 ^ (ez + 1074)); [|nia].
      rewrite <- Z.pow_add_r by lia.
      replace (B + 1 - ez + (ez + 1074)) with (1 + (B + 1074)) by lia.
      rewrite (Z.pow_add_r 2 1 (B + 1074)) by lia. change (2 ^ 1) with 2.
      assert (Habs : Z.abs S * 2 ^ (ez + 1074)
                     = Z.abs (V (S754_finite sx mx ex) + V (S754_finite sy my ey))).
      { rewrite <- HS, Z.abs_mul, (Z.abs_eq (2 ^ (ez + 1074))) by lia. reflexivity. }
      rewrite Habs. lia. }
    destruct (@binary_normalize_num 1074 le_1074_1074 S ez false)
      as (Hf & Hv & Hn & Hb & _); try lia.
    repeat split; try assumption.
    + unfold V at 1. rewrite Hn, HS. reflexivity.
    + lia.
Qed.

Theorem sub_V (x y : float) (B : Z) :
  F64.is_finite x = true -> F64.is_finite y = true ->
  valid64 x = true -> valid64 y = true ->
  Fmag x <= B -> Fmag y <= B -> B <= 1021 ->
  let z := F64.sub x y in
  F64.is_finite z = true /\ valid64 z = true
  /\ V z = sRND 1074 (V x - V y) /\ Fmag z <= B + 2.
Proof.
  intros Fx Fy Vx Vy Bx By HB z. subst z.
  rewrite SFsub_add_opp by assumption.
  destruct (SFopp_props y) as (Ho & Hvo & Hno & Hmo).
  destruct (@add_V x (SFopp y) B) as (Hf & Hv & Hn & Hb); try congruence.
  repeat split; try assumption.
  rewrite Hn, Hno. reflexivity.
Qed.

End Operations.

Section MulDiv.

Lemma Fnum_scale (f : float) :
  valid64 f = true -> Fnum 2148 f = V f * 2 ^ 1074.
Proof.
  intros Hv. destruct f as [s|s| |s m e]; try reflexivity.
  apply valid_finite_inv in Hv as (_ & Hb & _).
  unfold V, Fnum.
  replace (e + 2148) with ((e + 1074) + 1074) by lia.
  rewrite Z.pow_add_r by lia.
  destruct s; cbn [cond_Zopp]; ring.
Qed.

Lemma cond_Zopp_mul (s1 s2 : bool) (a b : Z) :
  cond_Zopp s1 a * cond_Zopp s2 b = cond_Zopp (xorb s1 s2) (a * b).
Proof. destruct s1, s2; cbn [cond_Zopp xorb]; ring. Qed.

Theorem mul_V (x y : float) :
  F64.is_finite x = true -> F64.is_finite y = true ->
  valid64 x = true -> valid64 y = true ->
  Fmag x + Fmag y <= 1023 ->
  let z := F64.mul x y in
  F64.is_finite z = true /\ valid64 z = true
  /\ Fnum 2148 z = sRND 2148 (V x * V y)
  /\ Fmag z <= Z.max (Fmag x + Fmag y + 1) (-1073).
Proof.
  intros Fx Fy Vx Vy HB z. subst z. unfold F64.mul.
  destruct x as [sx|sx| |sx mx ex]; try discriminate;
    destruct y as [sy|sy| |sy my ey]; try discriminate;
    cbn [SFmul];
    try (change (V (S754_zero sx)) with 0; rewrite Z.mul_0_l);
    try (change (V (S754_zero sy)) with 0; rewrite Z.mul_0_r);
    try (rewrite sRND_0 by exact le_1074_2148; cbn [Fmag Fnum];
         repeat split; lia).
  pose proof (valid_finite_inv _ _ _ Vx) as (Cx & Ex & Dx).
  pose proof (valid_finite_inv _ _ _ Vy) as (Cy & Ey & Dy).
  pose proof (@Zdigits2_mul (Zpos mx) (Zpos my) ltac:(lia) ltac:(lia)) as [Dl Du].
  pose proof (@Zdigits2_pos (Zpos mx) ltac:(lia)).
  pose proof (@Zdigits2_pos (Zpos my) ltac:(lia)).
  cbn [Fmag] in *. rewrite Pos2Z.inj_mul.
  assert (Hal : ex + ey <= fexp64 (Zdigits2 (Z.pos mx * Z.pos my) + (ex + ey)))
    by (unfold fexp64 in *; lia).
  destruct (@binary_round_aux_num 2148 le_1074_2148 (xorb sx sy)
              (Z.pos mx * Z.pos my) (ex + ey))
    as (Hf & _ & Hv & Hn); try lia.
  destruct (@binary_round_aux_bound 2148 le_1074_2148 (xorb sx sy)
              (Z.pos mx * Z.pos my) (ex + ey) loc_Exact)
    as (_ & _ & _ & Hb); try lia.
  repeat split; try assumption.
  - rewrite Hn. unfold V, Fnum. rewrite cond_Zopp_mul.
    assert (0 < 2 ^ (ex + 1074)) by (apply pow2_pos; lia).
    assert (0 < 2 ^ (ey + 1074)) by (apply pow2_pos; lia).
    assert (E : Z.pos mx * Z.pos my * 2 ^ (ex + ey + 2148)
                = Z.pos mx * 2 ^ (ex + 1074) * (Z.pos my * 2 ^ (ey + 1074))).
    { replace (ex + ey + 2148) with ((ex + 1074) + (ey + 1074)) by lia.
      rewrite Z.pow_add_r by lia. ring. }
    rewrite E. apply cond_Zopp_sRND; [exact le_1074_2148|nia].
  - lia.
Qed.

Lemma mul_sign (x y : float) :
  F64.is_finite x = true -> F64.is_finite y = true ->
  valid64 x = true -> valid64 y = true ->
  Fmag x + Fmag y <= 1023 ->
  Fsign (F64.mul x y) = xorb (Fsign x) (Fsign y).
Proof.
  intros Fx Fy Vx Vy HB. unfold F64.mul.
  destruct x as [sx|sx| |sx mx ex]; try discriminate;
    destruct y as [sy|sy| |sy my ey]; try discriminate;
    cbn [SFmul Fsign]; try reflexivity.
  pose proof (valid_finite_inv _ _ _ Vx) as (Cx & Ex & Dx).
  pose proof (valid_finite_inv _ _ _ Vy) as (Cy & Ey & Dy).
  pose proof (@Zdigits2_mul (Zpos mx) (Zpos my) ltac:(lia) ltac:(lia)) as [Dl Du].
  pose proof (@Zdigits2_pos (Zpos mx) ltac:(lia)).
  pose proof (@Zdigits2_pos (Zpos my) ltac:(lia)).
  cbn [Fmag] in *. rewrite Pos2Z.inj_mul.
  assert (Hal : ex + ey <= fexp64 (Zdigits2 (Z.pos mx * Z.pos my) + (ex + ey)))
    by (unfold fexp64 in *; lia).
  destruct (@binary_round_aux_bound 2148 le_1074_2148 (xorb sx sy)
              (Z.pos mx * Z.pos my) (ex + ey) loc_Exact)
    as (_ & Hs & _); try lia.
  exact Hs.
Qed.

(** The quotient and exponent handed to the rounding by [SFdiv]. *)
Lemma SFdiv_core_binary_spec (mx my : positive) (ex ey : Z) :
  let e' := Z.min (fexp64 (Zdigits2 (Zpos mx) + ex - (Zdigits2 (Zpos my) + ey)))
                  (ex - ey) in
  exists l,
    SFdiv_core_binary F64.prec F64.emax (Zpos mx) ex (Zpos my) ey
    = (Zpos mx * 2 ^ (ex - ey - e') / Zpos my, e', l).
Proof.
  intros e'. unfold SFdiv_core_binary. rewrite fexp_eq. fold e'.
  assert (Hs : 0 <= ex - ey - e') by (unfold e'; lia).
  set (m' := match ex - ey - e' with
             | 0 => Z.pos mx
             | Z.pos _ => Z.shiftl (Z.pos mx) (ex - ey - e')
             | Z.neg _ => 0
             end).
  assert (Hm' : m' = Zpos mx * 2 ^ (ex - ey - e')).
  { unfold m'. destruct (ex - ey - e') as [|p|p] eqn:E.
    - rewrite Z.mul_1_r. reflexivity.
    - rewrite Z.shiftl_mul_pow2 by lia. reflexivity.
    - lia. }
  unfold Z.div. rewrite <- Hm'.
  destruct (Z.div_eucl m' (Z.pos my)) as [q r].
  eexists. reflexivity.
Qed.

Theorem div_bound (x y : float) :
  F64.is_finite x = true -> F64.is_finite y = true ->
  valid64 x = true -> valid64 y = true ->
  F64.is_zero y = false ->
  Fmag x - Fmag y <= 1021 ->
  let z := F64.div x y in
  F64.is_finite z = true /\ valid64 z = true
  /\ Fsign z = xorb (Fsign x) (Fsign y)
  /\ Fmag z <= Z.max (Fmag x - Fmag y + 2) (-1073).
Proof.
  intros Fx Fy Vx Vy Zy HB z. subst z. unfold F64.div.
  destruct y as [sy|sy| |sy my ey]; try discriminate.
  destruct x as [sx|sx| |sx mx ex]; try discriminate; cbn [SFdiv].
  { cbn [Fmag Fsign]. repeat split. lia. }
  pose proof (valid_finite_inv _ _ _ Vx) as (Cx & Ex & Dx).
  pose proof (valid_finite_inv _ _ _ Vy) as (Cy & Ey & Dy).
  pose proof (@Zdigits2_bounds (Zpos mx) ltac:(lia)) as [Lx Ux].
  pose proof (@Zdigits2_bounds (Zpos my) ltac:(lia)) as [Ly Uy].
  pose proof (@Zdigits2_pos (Zpos mx) ltac:(lia)) as Px.
  pose proof (@Zdigits2_pos (Zpos my) ltac:(lia)) as Py.
  destruct (SFdiv_core_binary_spec mx my ex ey) as [l ->].
  cbn [Fmag Fsign] in *.
  set (dx := Zdigits2 (Zpos mx)) in *. set (dy := Zdigits2 (Zpos my)) in *.
  set (e' := Z.min (fexp64 (dx + ex - (dy + ey))) (ex - ey)).
  set (s := ex - ey - e').
  assert (Hs : 0 <= s) by (unfold s, e'; lia).
  pose proof (pow2_pos Hs) as Hps.
  set (q := Z.pos mx * 2 ^ s / Z.pos my).
  assert (Hq0 : 0 <= q) by (apply Z.div_pos; nia).
  assert (Hqm : q * Z.pos my <= Z.pos mx * 2 ^ s).
  { unfold q. rewrite Z.mul_comm. apply Z.mul_div_le. lia. }
  assert (Hqu : 0 < q -> Zdigits2 q <= dx + s - dy + 1).
  { intros Hqp.
    assert (Hge : 0 <= dx + s - dy + 1).
    { destruct (Z_le_gt_dec 0 (dx + s - dy + 1)) as [|Hneg]; [assumption|exfalso].
      assert (2 ^ (dx + s) <= 2 ^ (dy - 1)) by (apply Z.pow_le_mono_r; lia).
      assert (Z.pos mx * 2 ^ s < 2 ^ (dx + s)) by (rewrite Z.pow_add_r by lia; nia).
      nia. }
    apply Zdigits2_le; [assumption|assumption|].
    assert (q * 2 ^ (dy - 1) < 2 ^ (dx + s - dy + 1) * 2 ^ (dy - 1)).
    { rewrite <- Z.pow_add_r by lia.
      replace (dx + s - dy + 1 + (dy - 1)) with (dx + s) by lia.
      rewrite Z.pow_add_r by lia. nia. }
    assert (0 < 2 ^ (dy - 1)) by (apply pow2_pos; lia). nia. }
  assert (Hal : e' <= fexp64 (Zdigits2 q + e')).
  { destruct (Z_le_gt_dec e' (-1074)) as [|Hgt]; [unfold fexp64; lia|].
    assert (He' : e' = dx + ex - (dy + ey) - 53) by (unfold e', fexp64 in *; lia).
    assert (Hsv : s = 53 - dx + dy) by (unfold s; lia).
    assert (2 ^ 52 <= q).
    { unfold q. apply Z.div_le_lower_bound; [lia|].
      apply Z.le_trans with (2 ^ dy * 2 ^ 52); [nia|].
      apply Z.le_trans with (2 ^ (dx - 1) * 2 ^ s); [|nia].
      rewrite <- !Z.pow_add_r by lia. apply Z.pow_le_mono_r; lia. }
    assert (53 <= Zdigits2 q) by (apply Zdigits2_ge; lia).
    unfold fexp64; lia. }
  assert (Hmag : Zdigits2 q + e' <= Z.max (dx + ex - (dy + ey) + 1) (-1074)).
  { destruct (Z.eq_dec q 0) as [Hz|Hq].
    - rewrite Hz. change (Zdigits2 0) with 0. unfold e', fexp64 in *. lia.
    - specialize (Hqu ltac:(lia)). unfold s in Hqu. lia. }
  destruct (@binary_round_aux_bound 2148 le_1074_2148 (xorb sx sy) q e' l)
    as (Hf & Hsg & Hv & Hb); try lia.
  repeat split; try assumption. lia.
Qed.

End MulDiv.

Section Decode.

Lemma Zdigits2_cond_Zopp (s : bool) (z : Z) : Zdigits2 (cond_Zopp s z) = Zdigits2 z.
Proof. destruct s; [apply Zdigits2_opp|reflexivity]. Qed.

(** Every binary32 datum is a canonical binary64 float, far from the
    binary64 overflow threshold. *)
Theorem float_of_bits32_valid (x : Z) :
  valid64 (float_of_bits32 x) = true /\ Fmag (float_of_bits32 x) <= 129.
Proof.
  unfold float_of_bits32, F64.of_scaled.
  change (2 ^ 23 - 1) with (Z.ones 23). change 255 with (Z.ones 8).
  rewrite !Z.land_ones by lia.
  pose proof (Z.mod_pos_bound x (2 ^ 23) ltac:(lia)) as Hm.
  pose proof (Z.mod_pos_bound (Z.shiftr x 23) (2 ^ 8) ltac:(lia)) as He.
  set (m := x mod 2 ^ 23) in *. set (e := Z.shiftr x 23 mod 2 ^ 8) in *.
  change (Z.ones 8) with 255.
  destruct (Z.eqb_spec e 255) as [E255|N255].
  { destruct (m =? 0); split; try reflexivity; cbn [Fmag]; lia. }
  destruct (Z.eqb_spec e 0) as [E0|N0].
  - assert (Zdigits2 (cond_Zopp (Z.testbit x 31) m) <= 23).
    { rewrite Zdigits2_cond_Zopp. apply Zdigits2_abs_le; lia. }
    destruct (@binary_normalize_num 1074 le_1074_1074
                (cond_Zopp (Z.testbit x 31) m) (-149) (Z.testbit x 31))
      as (_ & Hv & _ & Hb & _); try lia.
    split; [assumption|lia].
  - assert (Zdigits2 (cond_Zopp (Z.testbit x 31) (m + 2 ^ 23)) <= 24).
    { rewrite Zdigits2_cond_Zopp. apply Zdigits2_abs_le; lia. }
    destruct (@binary_normalize_num 1074 le_1074_1074
                (cond_Zopp (Z.testbit x 31) (m + 2 ^ 23)) (e - 150) (Z.testbit x 31))
      as (_ & Hv & _ & Hb & _); try lia.
    split; [assumption|lia].
Qed.

End Decode.

Section Axis.

Lemma Fsign_V (f : float) :
  (Fsign f = false -> 0 <= V f) /\ (Fsign f = true -> V f <= 0).
Proof.
  destruct f as [s|s| |s m e]; unfold V, Fnum; cbn [Fsign]; try lia.
  assert (0 <= 2 ^ (e + 1074)) by (apply Z.pow_nonneg; lia).
  split; intros ->; cbn [cond_Zopp]; nia.
Qed.

Lemma float_of_int_ssize (i : Z) :
  0 <= i <= PY_SSIZE_T_MAX ->
  exists f,
    float_of_int i = Ok f /\ F64.is_finite f = true /\ valid64 f = true
    /\ V f = RND 1074 (i * 2 ^ 1074) /\ Fsign f = false /\ Fmag f <= 64.
Proof.
  intros Hi. pose proof (Zdigits2_ssize Hi).
  destruct (@float_of_int_num i) as (f & H1 & H2 & H3 & H4 & H5 & H6); try lia.
  exists f. repeat split; try assumption. lia.
Qed.

Lemma float_of_int_pos (i : Z) (f : float) :
  0 < i <= PY_SSIZE_T_MAX -> float_of_int i = Ok f ->
  F64.is_zero f = false /\ 1 <= Fmag f.
Proof.
  intros Hi Hf.
  destruct (@float_of_int_ssize i) as (f' & H1 & H2 & H3 & H4 & H5 & H6); [lia|].
  rewrite Hf in H1. injection H1 as <-.
  assert (P : 0 < 2 ^ 1074) by reflexivity.
  assert (HX : 0 < i * 2 ^ 1074) by nia.
  pose proof (@RND_ge_pow2 1074 le_1074_1074 (i * 2 ^ 1074) HX) as Hge.
  unfold gexp in Hge. rewrite !Zdigits2_mul_pow2 in Hge by lia.
  pose proof (@Zdigits2_pos i ltac:(lia)).
  assert (2 ^ 1074 <= V f).
  { rewrite H4. etransitivity; [|apply Hge; unfold fexp64; lia].
    apply Z.pow_le_mono_r; lia. }
  pose proof (V_abs_lt _ H3) as Habs.
  split.
  - destruct f; try reflexivity. unfold V, Fnum in *. lia.
  - destruct (Z_le_gt_dec 1 (Fmag f)) as [|Hlt]; [assumption|exfalso].
    assert (2 ^ (Fmag f + 1074) <= 2 ^ 1074).
    { destruct (Z_le_gt_dec 0 (Fmag f + 1074)).
      - apply Z.pow_le_mono_r; lia.
      - rewrite Z.pow_neg_r by lia. lia. }
    lia.
Qed.

(** One wavelength, and how it moves with the index. *)
Theorem wavelength_at_mono (start_wl step : float) (i j : Z) :
  F64.is_finite start_wl = true -> valid64 start_wl = true ->
  F64.is_finite step = true -> valid64 step = true ->
  Fmag start_wl <= 129 -> Fmag step <= 132 ->
  0 <= i -> i <= j -> j <= PY_SSIZE_T_MAX ->
  exists wi wj,
    wavelength_at start_wl (PyFloat step) i = Ok (PyFloat wi)
    /\ wavelength_at start_wl (PyFloat step) j = Ok (PyFloat wj)
    /\ (Fsign step = false -> F64.leb wi wj = true)
    /\ (Fsign step = true -> F64.leb wj wi = true).
Proof.
  intros Fs Vs Ft Vt Bs Bt Hi Hij Hj.
  destruct (@float_of_int_ssize i) as (fi & Ei & Ffi & Vfi & Ni & _ & Bi); [lia|].
  destruct (@float_of_int_ssize j) as (fj & Ej & Ffj & Vfj & Nj & _ & Bj); [lia|].
  pose proof (Fmag_lower _ Vt) as Lt. pose proof (Fmag_lower _ Vfi) as Li.
  pose proof (Fmag_lower _ Vfj) as Lj. pose proof (Fmag_lower _ Vs) as Ls.
  destruct (@mul_V fi step) as (Fai & Vai & Nai & Bai); try assumption; [lia|].
  destruct (@mul_V fj step) as (Faj & Vaj & Naj & Baj); try assumption; [lia|].
  destruct (@add_V start_wl (F64.mul fi step) 197)
    as (Fwi & Vwi & Nwi & _); try assumption; try lia.
  destruct (@add_V start_wl (F64.mul fj step) 197)
    as (Fwj & Vwj & Nwj & _); try assumption; try lia.
  exists (F64.add start_wl (F64.mul fi step)), (F64.add start_wl (F64.mul fj step)).
  unfold wavelength_at, py_mul, py_add, to_float. rewrite Ei, Ej. cbn [bind].
  split; [reflexivity|]. split; [reflexivity|].
  assert (Hfij : V fi <= V fj).
  { rewrite Ni, Nj. apply RND_mono; [exact le_1074_1074|lia|nia]. }
  rewrite Fnum_scale in Nai, Naj by assumption.
  assert (P : 0 < 2 ^ 1074) by reflexivity.
  rewrite !SFleb_V by assumption. rewrite Nwi, Nwj.
  split; intros Hsg; apply Z.leb_le; apply sRND_mono;
    try exact le_1074_1074.
  - apply (proj1 (Fsign_V step)) in Hsg.
    assert (V fi * V step <= V fj * V step) by nia.
    pose proof (@sRND_mono 2148 le_1074_2148 _ _ H). nia.
  - apply (proj2 (Fsign_V step)) in Hsg.
    assert (V fj * V step <= V fi * V step) by nia.
    pose proof (@sRND_mono 2148 le_1074_2148 _ _ H). nia.
Qed.

(** The step of an axis between two finite binary32 endpoints. *)
Theorem axis_step_sign (start_wl end_wl : float) (n : Z) :
  F64.is_finite start_wl = true -> valid64 start_wl = true ->
  F64.is_finite end_wl = true -> valid64 end_wl = true ->
  Fmag start_wl <= 129 -> Fmag end_wl <= 129 ->
  1 < n -> n <= PY_SSIZE_T_MAX ->
  exists step,
    axis_step start_wl end_wl n = Ok (PyFloat step)
    /\ F64.is_finite step = true /\ valid64 step = true /\ Fmag step <= 132
    /\ (F64.ltb start_wl end_wl = true -> Fsign step = false)
    /\ (F64.ltb end_wl start_wl = true -> Fsign step = true).
Proof.
  intros Fs Vs Fe Ve Bs Be Hn1 Hn.
  destruct (@sub_V end_wl start_wl 129) as (Fd & Vd & Nd & Bd); try assumption; try lia.
  destruct (@float_of_int_ssize (n - 1)) as (fn & En & Ffn & Vfn & Nn & Sn & Bn); [lia|].
  destruct (@float_of_int_pos (n - 1) fn) as [Zn Ln]; [lia|assumption|].
  pose proof (Fmag_lower _ Vd) as Ld.
  destruct (@div_bound (F64.sub end_wl start_wl) fn)
    as (Fq & Vq & Sq & Bq); try assumption; try lia.
  exists (F64.div (F64.sub end_wl start_wl) fn).
  unfold axis_step, py_truediv, to_float.
  destruct (Z.ltb_spec 1 n); [|lia].
  rewrite En. cbn [bind]. rewrite Zn.
  split; [reflexivity|]. split; [assumption|]. split; [assumption|].
  split; [lia|].
  rewrite Sq, Sn, xorb_false_r.
  unfold F64.ltb. rewrite !SFltb_V by assumption.
  split; intros Hlt; apply Z.ltb_lt in Hlt.
  - apply V_pos_sign. rewrite Nd. unfold sRND.
    destruct (Z.ltb_spec (V end_wl - V start_wl) 0); [lia|].
    apply RND_pos. lia.
  - assert (Hneg : V (F64.sub end_wl start_wl) < 0).
    { rewrite Nd. unfold sRND.
      destruct (Z.ltb_spec (V end_wl - V start_wl) 0); [|lia].
      pose proof (@RND_pos (- (V end_wl - V start_wl)) ltac:(lia)). lia. }
    destruct (F64.sub end_wl start_wl) as [s|s| |s m e]; unfold V, Fnum in Hneg;
      try lia.
    destruct s; [reflexivity|]. cbn [cond_Zopp] in Hneg.
    assert (0 <= 2 ^ (e + 1074)) by (apply Z.pow_nonneg; lia). nia.
Qed.

End Axis.

(** * Facts about [bytes] operations *)

Section Bytes.

Lemma len_nonneg (A : Type) (l : list A) : 0 <= len l.
Proof. unfold len. lia. Qed.

Lemma len_app (A : Type) (l1 l2 : list A) : len (l1 ++ l2) = len l1 + len l2.
Proof. unfold len. rewrite length_app. lia. Qed.

Lemma starts_with_firstn (sub s : bytes) :
  starts_with sub s = true <-> firstn (length sub) s = sub.
Proof.
  revert s; induction sub as [|x sub IH]; intros s; cbn [starts_with length firstn].
  - tauto.
  - destruct s as [|y s].
    + split; discriminate.
    + rewrite andb_true_iff, IH. split.
      * intros [H1 H2]. apply Byte.byte_dec_bl in H1. congruence.
      * intros H. injection H as -> H. split; [apply Byte.byte_dec_lb; reflexivity|assumption].
Qed.

Lemma starts_with_length (sub s : bytes) :
  starts_with sub s = true -> (length sub <= length s)%nat.
Proof.
  intros H. apply starts_with_firstn in H.
  rewrite <- H at 1. rewrite length_firstn. lia.
Qed.

Lemma find_at_none (sub s : bytes) (pos : Z) :
  find_at sub s pos = -1 -> 0 <= pos ->
  forall k : nat, starts_with sub (skipn k s) = false.
Proof.
  revert pos; induction s as [|y s IH]; intros pos H Hpos k; cbn [find_at] in H.
  - destruct (starts_with sub []) eqn:E; [lia|].
    destruct k; exact E.
  - destruct (starts_with sub (y :: s)) eqn:E; [lia|].
    destruct k as [|k]; [exact E|].
    cbn [skipn]. apply IH with (pos := pos + 1); [assumption|lia].
Qed.

Lemma find_at_found (sub s : bytes) (pos : Z) :
  find_at sub s pos <> -1 -> 0 <= pos ->
  exists k : nat,
    find_at sub s pos = pos + Z.of_nat k
    /\ (k <= length s)%nat
    /\ starts_with sub (skipn k s) = true
    /\ forall k' : nat, (k' < k)%nat -> starts_with sub (skipn k' s) = false.
Proof.
  revert pos; induction s as [|y s IH]; intros pos H Hpos; cbn [find_at] in *.
  - destruct (starts_with sub []) eqn:E; [|contradiction].
    exists 0%nat. repeat split; [lia|cbn [length]; lia|exact E|intros; lia].
  - destruct (starts_with sub (y :: s)) eqn:E.
    + exists 0%nat. repeat split; [lia|cbn [length]; lia|exact E|intros; lia].
    + destruct (IH (pos + 1) H ltac:(lia)) as (k & Hk & Hle & Hs & Hmin).
      exists (S k). repeat split.
      * lia.
      * cbn [length]; lia.
      * exact Hs.
      * intros [|k'] Hlt; [exact E|]. apply Hmin. lia.
Qed.

Lemma skipn_skipn_add (A : Type) (a b : nat) (l : list A) :
  skipn a (skipn b l) = skipn (b + a) l.
Proof.
  revert l; induction b as [|b IH]; intros l; [reflexivity|].
  destruct l as [|x l]; [rewrite !skipn_nil; reflexivity|].
  cbn [skipn Nat.add]. apply IH.
Qed.

(** [bytes.find] returns the first occurrence at or after [start]. *)
Theorem bytes_find_found (s sub : bytes) (start : Z) :
  0 <= start -> bytes_find s sub start <> -1 ->
  let r := bytes_find s sub start in
  start <= r /\ r + len sub <= len s /\ occurs_at sub s r
  /\ forall i, start <= i < r -> ~ occurs_at sub s i.
Proof.
  intros Hs Hr r. subst r. unfold bytes_find in *.
  destruct (Z.ltb_spec start 0) as [|_]; [lia|].
  destruct (Z.ltb_spec (len s) start) as [Hlt|Hle]; [contradiction|].
  destruct (find_at_found _ _ Hr Hs) as (k & -> & Hkl & Hk & Hmin).
  rewrite skipn_skipn_add in Hk.
  pose proof (starts_with_length _ _ Hk) as Hl.
  rewrite length_skipn in Hl, Hkl.
  unfold len in *.
  split; [lia|]. split.
  - lia.
  - split.
    + split; [lia|]. apply starts_with_firstn.
      replace (Z.to_nat (start + Z.of_nat k)) with (Z.to_nat start + k)%nat by lia.
      exact Hk.
    + intros i Hi [_ Ho]. apply starts_with_firstn in Ho.
      specialize (Hmin (Z.to_nat (i - start)) ltac:(lia)).
      rewrite skipn_skipn_add in Hmin.
      replace (Z.to_nat start + Z.to_nat (i - start))%nat with (Z.to_nat i) in Hmin by lia.
      congruence.
Qed.

(** [bytes.find] returns [-1] only when there is no occurrence. *)
Theorem bytes_find_none (s sub : bytes) (start : Z) :
  0 <= start -> sub <> [] -> bytes_find s sub start = -1 ->
  forall i, start <= i -> ~ occurs_at sub s i.
Proof.
  intros Hs Hne Hr i Hi [_ Ho]. apply starts_with_firstn in Ho.
  unfold bytes_find in Hr.
  destruct (Z.ltb_spec start 0) as [|_]; [lia|].
  destruct (Z.ltb_spec (len s) start) as [Hlt|Hle].
  - unfold len in Hlt. rewrite skipn_all2 in Ho by lia.
    destruct sub; [contradiction|discriminate].
  - pose proof (find_at_none _ _ Hr Hs (Z.to_nat (i - start))) as H.
    rewrite skipn_skipn_add in H.
    replace (Z.to_nat start + Z.to_nat (i - start))%nat with (Z.to_nat i) in H by lia.
    congruence.
Qed.

(** The converses: [-1] exactly when nothing occurs from [start] on. *)
Lemma bytes_find_absent (s sub : bytes) (start : Z) :
  0 <= start -> (forall i, start <= i -> ~ occurs_at sub s i) ->
  bytes_find s sub start = -1.
Proof.
  intros Hs Hno.
  destruct (Z.eq_dec (bytes_find s sub start) (-1)) as [|Hne]; [assumption|].
  destruct (bytes_find_found s sub Hs Hne) as (H1 & _ & Ho & _).
  exfalso. exact (Hno _ H1 Ho).
Qed.

Lemma bytes_find_present (s sub : bytes) (start i : Z) :
  0 <= start -> sub <> [] -> start <= i -> occurs_at sub s i ->
  start <= bytes_find s sub start <= i.
Proof.
  intros Hs Hne Hi Ho.
  destruct (Z.eq_dec (bytes_find s sub start) (-1)) as [E|Hr].
  { exfalso. exact (bytes_find_none Hs Hne E Hi Ho). }
  destruct (bytes_find_found s sub Hs Hr) as (H1 & _ & _ & Hmin).
  split; [exact H1|].
  destruct (Z_le_gt_dec (bytes_find s sub start) i) as [|Hgt]; [assumption|].
  exfalso. apply (Hmin i); [lia|exact Ho].
Qed.

Lemma bytes_find_range (s sub : bytes) (start : Z) :
  0 <= start ->
  bytes_find s sub start = -1
  \/ (start <= bytes_find s sub start
      /\ bytes_find s sub start + len sub <= len s).
Proof.
  intros Hs. destruct (Z.eq_dec (bytes_find s sub start) (-1)) as [|Hne]; [auto|].
  right. destruct (bytes_find_found s sub Hs Hne) as (H1 & H2 & _). auto.
Qed.

(** Slices *)

Lemma py_slice_from_len (A : Type) (s : list A) (a : Z) :
  0 <= a -> len (py_slice_from s a) = Z.max 0 (len s - a).
Proof.
  intros Ha. unfold py_slice_from, slice_index, len.
  destruct (Z.ltb_spec a 0); [lia|]. rewrite length_skipn. lia.
Qed.

Lemma py_slice_inside (A : Type) (s : list A) (a b : Z) :
  0 <= a -> a <= b -> b <= len s ->
  py_slice s a b = firstn (Z.to_nat (b - a)) (skipn (Z.to_nat a) s)
  /\ len (py_slice s a b) = b - a.
Proof.
  intros Ha Hab Hb. unfold py_slice, slice_index.
  destruct (Z.ltb_spec a 0); [lia|]. destruct (Z.ltb_spec b 0); [lia|].
  rewrite !Z.min_l by lia. split; [reflexivity|].
  unfold len in *. rewrite length_firstn, length_skipn. lia.
Qed.

Lemma py_slice_len (A : Type) (s : list A) (a b : Z) :
  len (py_slice s a b)
  = Z.max 0 (slice_index (len s) b - slice_index (len s) a).
Proof.
  unfold py_slice.
  assert (Hi : forall i, 0 <= slice_index (len s) i <= len s).
  { intros i. unfold slice_index. pose proof (len_nonneg s).
    destruct (Z.ltb_spec i 0); lia. }
  pose proof (Hi a). pose proof (Hi b).
  unfold len in *. rewrite length_firstn, length_skipn. lia.
Qed.

End Bytes.

(** * Header location *)

Section Header.

Variable content : bytes.

Lemma wav_header_end_range : 0 <= wav_header_end content <= len content.
Proof.
  unfold wav_header_end. pose proof (len_nonneg content).
  destruct (Z.eqb_spec (bytes_find content WAV 0) (-1)) as [|Hi]; cbn [negb]; [lia|].
  destruct (bytes_find_found content WAV (Z.le_refl 0) Hi) as (Hi0 & _).
  destruct (Z.eqb_spec (bytes_find content [x00] (bytes_find content WAV 0)) (-1))
    as [|Hn]; cbn [negb]; [lia|].
  destruct (bytes_find_found content [x00] Hi0 Hn) as (H1 & H2 & _).
  change (len [x00]) with 1 in H2. lia.
Qed.

Lemma locate_header_found :
  snd (locate_header content) <> -1 ->
  wav_header_end content <= snd (locate_header content)
  /\ fst (locate_header content) = snd (locate_header content) + 8
  /\ fst (locate_header content) <= len content.
Proof.
  unfold locate_header. pose proof wav_header_end_range as [H0 _].
  destruct (Z.eqb_spec (bytes_find content pattern (wav_header_end content)) (-1))
    as [E|Hp]; cbn [negb fst snd]; [intros; contradiction|intros _].
  destruct (bytes_find_found content pattern H0 Hp) as (H1 & H2 & _).
  change (len pattern) with 8 in *. lia.
Qed.

Lemma locate_header_not_found :
  snd (locate_header content) = -1 ->
  fst (locate_header content) = Z.max (wav_header_end content) 100.
Proof.
  unfold locate_header.
  destruct (Z.eqb_spec (bytes_find content pattern (wav_header_end content)) (-1))
    as [E|Hp]; cbn [negb fst snd]; [reflexivity|intros; contradiction].
Qed.

Lemma locate_header_pat_idx :
  snd (locate_header content) = bytes_find content pattern (wav_header_end content).
Proof.
  unfold locate_header.
  destruct (negb _); reflexivity.
Qed.

End Header.

(** Where the boundary can lie, and what is left after it. *)
Lemma locate_header_range (content : bytes) :
  let header_end := fst (locate_header content) in
  0 <= header_end <= Z.max (len content) 100
  /\ (snd (locate_header content) <> -1 -> header_end <= len content)
  /\ len (py_slice_from content header_end) = Z.max 0 (len content - header_end).
Proof.
  intros header_end. subst header_end.
  pose proof (wav_header_end_range content) as Hw.
  assert (H : 0 <= fst (locate_header content) <= Z.max (len content) 100
              /\ (snd (locate_header content) <> -1 ->
                  fst (locate_header content) <= len content)).
  { destruct (Z.eq_dec (snd (locate_header content)) (-1)) as [E|NE].
    - rewrite (locate_header_not_found content E). split; [lia|contradiction].
    - destruct (locate_header_found content NE) as (H1 & H2 & H3).
      split; [lia|auto]. }
  destruct H as [H1 H2]. split; [exact H1|]. split; [exact H2|].
  apply py_slice_from_len. lia.
Qed.

(** C4, amended: the boundary is never negative and stays inside the buffer
    whenever the marker is found; without the marker it is at least 100 and
    may exceed the buffer only through that 100-byte minimum skip, so
    [0 <= HeaderBoundary <= max(length(RawBuffer), 100)]; the data region is
    what is left of the buffer after the boundary, empty when the boundary
    is past the end. *)
Theorem header_boundary_range (content : bytes) :
  let header_end := fst (locate_header content) in
  0 <= header_end <= Z.max (len content) 100
  /\ (snd (locate_header content) <> -1 -> header_end <= len content)
  /\ (snd (locate_header content) = -1 -> 100 <= header_end)
  /\ len (py_slice_from content header_end) = Z.max 0 (len content - header_end).
Proof.
  intros header_end.
  destruct (locate_header_range content) as (H1 & H2 & H3).
  fold header_end in H1, H2, H3.
  repeat split; try assumption; try lia.
  intros E. unfold header_end. rewrite (locate_header_not_found content E). lia.
Qed.

(** C4 as stated fails on a 7-byte buffer without marker: the boundary is
    100. *)
Lemma header_boundary_exceeds_buffer :
  let content := repeat "A"%byte 7 in
  ~ (0 <= fst (locate_header content) <= len content).
Proof. vm_compute. intros [_ H]. apply H. reflexivity. Qed.

(** C10: [".WAV"] without a null byte at or after it leaves the provisional
    boundary at 0, so the marker search and the 100-byte fallback run from
    offset 0, as they do when [".WAV"] is absent. *)
Theorem wav_without_null (content : bytes) :
  bytes_find content WAV 0 <> -1 ->
  bytes_find content [x00] (bytes_find content WAV 0) = -1 ->
  wav_header_end content = 0
  /\ locate_header content
     = (let pat_idx := bytes_find content pattern 0 in
        if pat_idx =? -1 then (100, -1) else (pat_idx + 8, pat_idx)).
Proof.
  intros Hw Hn.
  assert (E : wav_header_end content = 0).
  { unfold wav_header_end.
    destruct (Z.eqb_spec (bytes_find content WAV 0) (-1)); [contradiction|].
    cbn [negb]. rewrite Hn. reflexivity. }
  split; [exact E|].
  unfold locate_header. rewrite E. cbv zeta.
  destruct (Z.eqb_spec (bytes_find content pattern 0) (-1)) as [->|]; reflexivity.
Qed.

Lemma wav_without_null_witness :
  let content := WAV ++ repeat "A"%byte 3 in
  bytes_find content WAV 0 <> -1
  /\ bytes_find content [x00] (bytes_find content WAV 0) = -1
  /\ wav_header_end content = 0
  /\ locate_header content
     = (let pat_idx := bytes_find content pattern 0 in
        if pat_idx =? -1 then (100, -1) else (pat_idx + 8, pat_idx)).
Proof.
  split; [vm_compute; discriminate|]. split; [reflexivity|].
  apply (@wav_without_null (WAV ++ repeat "A"%byte 3)).
  - vm_compute. discriminate.
  - vm_compute. reflexivity.
Defined.

(** The same boundary is computed when [".WAV"] is absent altogether. *)
Lemma wav_absent (content : bytes) :
  bytes_find content WAV 0 = -1 ->
  wav_header_end content = 0
  /\ locate_header content
     = (let pat_idx := bytes_find content pattern 0 in
        if pat_idx =? -1 then (100, -1) else (pat_idx + 8, pat_idx)).
Proof.
  intros Hw.
  assert (E : wav_header_end content = 0).
  { unfold wav_header_end. rewrite Hw. reflexivity. }
  split; [exact E|].
  unfold locate_header. rewrite E. cbv zeta.
  destruct (Z.eqb_spec (bytes_find content pattern 0) (-1)) as [->|]; reflexivity.
Qed.

(** * Format detection and decoding *)

Section Detect.

Lemma plausible_in_range (x : float) : plausible x = in_range x.
Proof.
  unfold plausible, in_range.
  destruct x as [s|s| |s m e].
  - destruct s; reflexivity.
  - destruct s; reflexivity.
  - reflexivity.
  - assert (Hrefl : F64.eqb (S754_finite s m e) (S754_finite s m e) = true).
    { unfold F64.eqb, SFeqb. cbn [SFcompare].
      rewrite Z.compare_refl, Pos.compare_cont_refl. destruct s; reflexivity. }
    assert (Hinf : F64.eqb (S754_finite s m e) F64.inf = false)
      by (destruct s; reflexivity).
    assert (Hninf : F64.eqb (S754_finite s m e) F64.neg_inf = false)
      by (destruct s; reflexivity).
    rewrite Hrefl, Hinf, Hninf. reflexivity.
Qed.

(** The two comparisons, read on values counted in units of [2^-1074]. *)
Lemma in_range_value (x : float) :
  valid64 x = true ->
  in_range x
  = F64.is_finite x && (-1000 * 2 ^ 1074 <? V x) && (V x <? 1000 * 2 ^ 1074).
Proof.
  intros Hv. unfold in_range, F64.ltb.
  destruct (F64.is_finite x) eqn:Hf; [|reflexivity].
  rewrite !SFltb_V by (assumption || reflexivity).
  reflexivity.
Qed.

Lemma score_fold (arr : list float) (acc : Z) :
  fold_left (fun valid_vals x => if plausible x then valid_vals + 1 else valid_vals)
            arr acc
  = acc + plausibility_score arr.
Proof.
  revert acc; induction arr as [|x arr IH]; intros acc; cbn [fold_left].
  - unfold plausibility_score, len. cbn. lia.
  - rewrite IH. unfold plausibility_score. cbn [filter].
    rewrite <- plausible_in_range.
    destruct (plausible x); unfold len; cbn [length]; lia.
Qed.

Lemma score_float_array_spec (arr : list float) :
  score_float_array arr = plausibility_score arr.
Proof. unfold score_float_array. rewrite score_fold. lia. Qed.

Lemma decode_f_length (big : bool) (k : nat) (s : bytes) :
  (4 * k <= length s < 4 * k + 4)%nat -> length (decode_f big s) = k.
Proof.
  revert s; induction k as [|k IH]; intros s H.
  - destruct s as [|a [|b [|c [|d s]]]]; cbn [length] in H; try reflexivity; lia.
  - destruct s as [|a [|b [|c [|d s]]]]; cbn [length] in H; try lia.
    cbn [decode_f length]. f_equal. apply IH. lia.
Qed.

Lemma decode_H_length (k : nat) (s : bytes) :
  (2 * k <= length s < 2 * k + 2)%nat -> length (decode_H s) = k.
Proof.
  revert s; induction k as [|k IH]; intros s H.
  - destruct s as [|a [|b s]]; cbn [length] in H; try reflexivity; lia.
  - destruct s as [|a [|b s]]; cbn [length] in H; try lia.
    cbn [decode_H length]. f_equal. apply IH. lia.
Qed.

Lemma decode_f_len (big : bool) (s : bytes) : len (decode_f big s) = len s / 4.
Proof.
  unfold len.
  rewrite (@decode_f_length big (Z.to_nat (Z.of_nat (length s) / 4)) s).
  - rewrite Z2Nat.id; [reflexivity|]. apply Z.div_pos; lia.
  - pose proof (Z.div_mod (Z.of_nat (length s)) 4 ltac:(lia)).
    pose proof (Z.mod_pos_bound (Z.of_nat (length s)) 4 ltac:(lia)).
    assert (0 <= Z.of_nat (length s) / 4) by (apply Z.div_pos; lia). lia.
Qed.

Lemma decode_H_len (s : bytes) : len (decode_H s) = len s / 2.
Proof.
  unfold len.
  rewrite (@decode_H_length (Z.to_nat (Z.of_nat (length s) / 2)) s).
  - rewrite Z2Nat.id; [reflexivity|]. apply Z.div_pos; lia.
  - pose proof (Z.div_mod (Z.of_nat (length s)) 2 ltac:(lia)).
    pose proof (Z.mod_pos_bound (Z.of_nat (length s)) 2 ltac:(lia)).
    assert (0 <= Z.of_nat (length s) / 2) by (apply Z.div_pos; lia). lia.
Qed.

Lemma unpack_f_ok (big : bool) (s : bytes) :
  len s mod 4 = 0 -> unpack_f big (len s / 4) s = Ok (decode_f big s).
Proof.
  intros H. unfold unpack_f.
  pose proof (Z.div_mod (len s) 4 ltac:(lia)). pose proof (len_nonneg s).
  assert (0 <= len s / 4) by (apply Z.div_pos; lia).
  destruct (Z.eqb_spec (len s) (4 * Z.max (len s / 4) 0)); [reflexivity|lia].
Qed.

Lemma unpack_H_ok (s : bytes) :
  len s mod 2 = 0 -> unpack_H (len s / 2) s = Ok (decode_H s).
Proof.
  intros H. unfold unpack_H.
  pose proof (Z.div_mod (len s) 2 ltac:(lia)). pose proof (len_nonneg s).
  assert (0 <= len s / 2) by (apply Z.div_pos; lia).
  destruct (Z.eqb_spec (len s) (2 * Z.max (len s / 2) 0)); [reflexivity|lia].
Qed.

(** What [decode_data] returns, by the class of the region length. *)
Lemma decode_data_float (data_bytes : bytes) :
  len data_bytes mod 4 = 0 -> 0 < len data_bytes ->
  decode_data data_bytes
  = if plausibility_score (decode_f false data_bytes)
       <=? plausibility_score (decode_f true data_bytes)
    then Ok (float32_be, len data_bytes / 4, map PyFloat (decode_f true data_bytes))
    else Ok (float32_le, len data_bytes / 4, map PyFloat (decode_f false data_bytes)).
Proof.
  intros H4 H0. unfold decode_data.
  rewrite H4. destruct (Z.ltb_spec 0 (len data_bytes)); [|lia].
  cbn [Z.eqb andb]. rewrite !unpack_f_ok by assumption. cbn [bind].
  rewrite !score_float_array_spec. reflexivity.
Qed.

Lemma decode_data_int16 (data_bytes : bytes) :
  len data_bytes mod 4 <> 0 -> len data_bytes mod 2 = 0 ->
  decode_data data_bytes
  = Ok (int16, len data_bytes / 2, map PyInt (decode_H data_bytes)).
Proof.
  intros H4 H2. unfold decode_data.
  destruct (Z.eqb_spec (len data_bytes mod 4) 0); [contradiction|].
  cbn [andb]. rewrite H2.
  assert (0 < len data_bytes).
  { pose proof (len_nonneg data_bytes).
    destruct (Z.eq_dec (len data_bytes) 0) as [E|]; [|lia].
    rewrite E in H4. exfalso. apply H4. reflexivity. }
  destruct (Z.ltb_spec 0 (len data_bytes)); [|lia].
  cbn [Z.eqb andb]. rewrite unpack_H_ok by assumption. reflexivity.
Qed.

Lemma decode_data_bytes (data_bytes : bytes) :
  (len data_bytes mod 2 <> 0 \/ len data_bytes = 0) ->
  decode_data data_bytes
  = Ok (raw_bytes, len data_bytes, map (fun b => PyInt (byte_val b)) data_bytes).
Proof.
  intros H. unfold decode_data.
  assert (H' : (len data_bytes mod 4 =? 0) && (0 <? len data_bytes) = false).
  { destruct H as [H|H].
    - destruct (Z.eqb_spec (len data_bytes mod 4) 0) as [E|]; [|reflexivity].
      exfalso. apply H.
      rewrite <- (Z.mod_mod_divide (len data_bytes) 4 2) by (exists 2; lia).
      rewrite E. reflexivity.
    - rewrite H. reflexivity. }
  rewrite H'.
  assert (H'' : (len data_bytes mod 2 =? 0) && (0 <? len data_bytes) = false).
  { destruct H as [H|H].
    - destruct (Z.eqb_spec (len data_bytes mod 2) 0); [contradiction|reflexivity].
    - rewrite H. reflexivity. }
  rewrite H''. reflexivity.
Qed.

(** Decoding never raises; the count and the number of values follow the
    length class of the region. *)
Theorem decode_data_total (data_bytes : bytes) :
  exists t values,
    decode_data data_bytes = Ok (t, sample_count (len data_bytes), values)
    /\ len values = sample_count (len data_bytes)
    /\ t = (if (len data_bytes mod 4 =? 0) && (0 <? len data_bytes) then
              if plausibility_score (decode_f false data_bytes)
                 <=? plausibility_score (decode_f true data_bytes)
              then float32_be else float32_le
            else if (len data_bytes mod 2 =? 0) && (0 <? len data_bytes)
                 then int16 else raw_bytes).
Proof.
  pose proof (len_nonneg data_bytes) as Hn. unfold sample_count.
  destruct (Z.eqb_spec (len data_bytes mod 4) 0) as [E4|N4].
  - destruct (Z.ltb_spec 0 (len data_bytes)) as [H0|H0]; cbn [andb].
    + rewrite decode_data_float by assumption.
      destruct (_ <=? _); do 2 eexists; (split; [reflexivity|]);
        (split; [|reflexivity]); unfold len at 1;
        rewrite length_map; apply decode_f_len.
    + assert (E0 : len data_bytes = 0) by lia.
      rewrite decode_data_bytes by auto. rewrite E0. cbn.
      do 2 eexists. split; [reflexivity|]. split; [|reflexivity].
      unfold len in *. rewrite length_map. lia.
  - cbn [andb].
    destruct (Z.eqb_spec (len data_bytes mod 2) 0) as [E2|N2].
    + assert (0 < len data_bytes).
      { destruct (Z.eq_dec (len data_bytes) 0) as [E|]; [|lia].
        rewrite E in N4. exfalso. apply N4. reflexivity. }
      destruct (Z.ltb_spec 0 (len data_bytes)); [|lia]. cbn [andb].
      rewrite decode_data_int16 by assumption.
      do 2 eexists. split; [reflexivity|]. split; [|reflexivity].
      unfold len at 1. rewrite length_map. apply decode_H_len.
    + cbn [andb]. rewrite decode_data_bytes by auto.
      do 2 eexists. split; [reflexivity|]. split; [|reflexivity].
      unfold len. rewrite length_map. reflexivity.
Qed.

End Detect.

(** C1: on a region whose length is a positive multiple of 4 the detector
    decodes both byte orders, scores each decoding by the number of values
    that are finite and strictly inside (-1000, 1000), and returns the
    big-endian decoding exactly when its score is at least the
    little-endian one, otherwise the little-endian decoding. *)
Theorem endianness_selection (data_bytes : bytes) :
  len data_bytes mod 4 = 0 -> 0 < len data_bytes ->
  let floats_le := decode_f false data_bytes in
  let floats_be := decode_f true data_bytes in
  len floats_le = len data_bytes / 4
  /\ len floats_be = len data_bytes / 4
  /\ score_float_array floats_le = plausibility_score floats_le
  /\ score_float_array floats_be = plausibility_score floats_be
  /\ (plausibility_score floats_le <= plausibility_score floats_be ->
      decode_data data_bytes
      = Ok (float32_be, len data_bytes / 4, map PyFloat floats_be))
  /\ (plausibility_score floats_be < plausibility_score floats_le ->
      decode_data data_bytes
      = Ok (float32_le, len data_bytes / 4, map PyFloat floats_le)).
Proof.
  intros H4 H0 floats_le floats_be. subst floats_le floats_be.
  rewrite !decode_f_len, !score_float_array_spec.
  rewrite decode_data_float by assumption.
  repeat split.
  - intros H. destruct (Z.leb_spec (plausibility_score (decode_f false data_bytes))
                                   (plausibility_score (decode_f true data_bytes)));
      [reflexivity|lia].
  - intros H. destruct (Z.leb_spec (plausibility_score (decode_f false data_bytes))
                                   (plausibility_score (decode_f true data_bytes)));
      [lia|reflexivity].
Qed.

Lemma endianness_selection_witness :
  let data_bytes := [x3f; x80; x00; x00; x40; x00; x00; x00] in
  len data_bytes mod 4 = 0 /\ 0 < len data_bytes
  /\ decode_data data_bytes
     = Ok (float32_be, 2, map PyFloat (decode_f true data_bytes)).
Proof.
  split; [reflexivity|]. split; [reflexivity|].
  apply (@endianness_selection [x3f; x80; x00; x00; x40; x00; x00; x00]);
    vm_compute; congruence.
Defined.

(** * Axis reconstruction *)

Section AxisFacts.

Lemma float_of_int_eq (z : Z) :
  0 <= z <= PY_SSIZE_T_MAX -> float_of_int z = Ok (float_of_Z z).
Proof.
  intros Hz. destruct (float_of_int_ssize Hz) as (f & Hf & _).
  unfold float_of_int, float_of_Z in *.
  destruct (F64.of_scaled z 0 false); try discriminate; reflexivity.
Qed.

Lemma axis_step_spec (start_wl end_wl : float) (n : Z) :
  n <= PY_SSIZE_T_MAX ->
  axis_step start_wl end_wl n
  = Ok (if 1 <? n then PyFloat (spec_step start_wl end_wl n) else PyInt 0).
Proof.
  intros Hn. unfold axis_step, spec_step.
  destruct (Z.ltb_spec 1 n); [|reflexivity].
  unfold py_truediv, to_float.
  rewrite float_of_int_eq by lia. cbn [bind].
  destruct (@float_of_int_pos (n - 1) (float_of_Z (n - 1))) as [Hz _];
    [lia|apply float_of_int_eq; lia|].
  rewrite Hz. reflexivity.
Qed.

Lemma wavelength_at_spec (start_wl end_wl : float) (n i : Z) :
  1 <= n <= PY_SSIZE_T_MAX -> 0 <= i < n ->
  wavelength_at start_wl
    (if 1 <? n then PyFloat (spec_step start_wl end_wl n) else PyInt 0) i
  = Ok (PyFloat (spec_wavelength start_wl (spec_step start_wl end_wl n) i)).
Proof.
  intros Hn Hi. unfold wavelength_at, spec_wavelength, spec_step.
  destruct (Z.ltb_spec 1 n).
  - unfold py_mul, py_add, to_float. rewrite float_of_int_eq by lia. reflexivity.
  - assert (i = 0) by lia. subst i. reflexivity.
Qed.

Lemma map_result_ok (A B : Type) (f : A -> result B) (g : A -> B) (l : list A) :
  (forall x, In x l -> f x = Ok (g x)) -> map_result f l = Ok (map g l).
Proof.
  induction l as [|x l IH]; intros H; cbn [map_result map]; [reflexivity|].
  rewrite (H x) by (left; reflexivity). cbn [bind].
  rewrite IH by (intros; apply H; right; assumption). reflexivity.
Qed.

Lemma In_py_range (n i : Z) : In i (py_range n) <-> 0 <= i < n.
Proof.
  unfold py_range. rewrite in_map_iff. split.
  - intros (k & <- & Hk). apply in_seq in Hk. lia.
  - intros H. exists (Z.to_nat i). split; [lia|]. apply in_seq. lia.
Qed.

Lemma py_range_len (n : Z) : len (py_range n) = Z.max n 0.
Proof. unfold py_range, len. rewrite length_map, length_seq. lia. Qed.

Lemma nth_error_py_range (n : Z) (k : nat) :
  Z.of_nat k < n -> nth_error (py_range n) k = Some (Z.of_nat k).
Proof.
  intros H. unfold py_range.
  rewrite nth_error_map, nth_error_seq.
  destruct (Nat.ltb_spec k (Z.to_nat n)); [reflexivity|lia].
Qed.

Lemma unpack_one_f_4 (b0 b1 b2 b3 : byte) :
  unpack_one_f [b0; b1; b2; b3] = Ok (float_of_bits32 (bits32 true b0 b1 b2 b3)).
Proof. reflexivity. Qed.

Lemma unpack_one_f_raise (s : bytes) :
  len s <> 4 -> unpack_one_f s = Raise StructError.
Proof.
  intros H. unfold unpack_one_f, unpack_f.
  destruct (Z.eqb_spec (len s) (4 * Z.max 1 0)); [lia|reflexivity].
Qed.

Lemma read_axis_range_total (content : bytes) (pat_idx : Z) :
  exists r, read_axis_range content pat_idx = Ok r.
Proof.
  unfold read_axis_range. destruct (negb _); [|eauto].
  destruct (_ <- _ ;; _); cbn [try_except]; eauto.
Qed.

(** A marker at offset 8 or more: the eight bytes before it are the
    endpoints. *)
Lemma read_axis_range_read (content : bytes) (pat_idx : Z) :
  8 <= pat_idx -> pat_idx + 8 <= len content ->
  exists b0 b1 b2 b3 b4 b5 b6 b7,
    firstn 8 (skipn (Z.to_nat (pat_idx - 8)) content)
    = [b0; b1; b2; b3; b4; b5; b6; b7]
    /\ read_axis_range content pat_idx
       = Ok (Some (float_of_bits32 (bits32 true b0 b1 b2 b3),
                   float_of_bits32 (bits32 true b4 b5 b6 b7))).
Proof.
  intros H8 Hl. unfold read_axis_range.
  destruct (Z.eqb_spec pat_idx (-1)); [lia|]. cbn [negb].
  destruct (@py_slice_inside _ content (pat_idx - 8) (pat_idx - 4)) as [E1 _]; try lia.
  destruct (@py_slice_inside _ content (pat_idx - 4) pat_idx) as [E2 _]; try lia.
  rewrite E1, E2.
  replace (Z.to_nat (pat_idx - 4 - (pat_idx - 8))) with 4%nat by lia.
  replace (Z.to_nat (pat_idx - (pat_idx - 4))) with 4%nat by lia.
  replace (Z.to_nat (pat_idx - 4)) with (Z.to_nat (pat_idx - 8) + 4)%nat by lia.
  rewrite <- skipn_skipn_add.
  assert (Hlen : (8 <= length (skipn (Z.to_nat (pat_idx - 8)) content))%nat).
  { rewrite length_skipn. unfold len in Hl. lia. }
  destruct (skipn (Z.to_nat (pat_idx - 8)) content)
    as [|b0 [|b1 [|b2 [|b3 [|b4 [|b5 [|b6 [|b7 rest]]]]]]]];
    cbn [length] in Hlen; try lia.
  exists b0, b1, b2, b3, b4, b5, b6, b7. split; reflexivity.
Qed.

(** A marker before offset 8: one of the two reads gets no bytes, the
    exception is caught and the endpoints stay unset. *)
Lemma read_axis_range_short (content : bytes) (pat_idx : Z) :
  0 <= pat_idx < 8 -> pat_idx + 8 <= len content ->
  read_axis_range content pat_idx = Ok None.
Proof.
  intros H8 Hl. unfold read_axis_range.
  destruct (Z.eqb_spec pat_idx (-1)); [lia|]. cbn [negb].
  destruct (Z_lt_le_dec pat_idx 4) as [H4|H4].
  - assert (R : unpack_one_f (py_slice content (pat_idx - 4) pat_idx)
                = Raise StructError).
    { apply unpack_one_f_raise. rewrite py_slice_len. unfold slice_index.
      destruct (Z.ltb_spec (pat_idx - 4) 0); [|lia].
      destruct (Z.ltb_spec pat_idx 0); lia. }
    rewrite R.
    destruct (unpack_one_f (py_slice content (pat_idx - 8) (pat_idx - 4)));
      reflexivity.
  - assert (R : unpack_one_f (py_slice content (pat_idx - 8) (pat_idx - 4))
                = Raise StructError).
    { apply unpack_one_f_raise. rewrite py_slice_len. unfold slice_index.
      destruct (Z.ltb_spec (pat_idx - 8) 0); [|lia].
      destruct (Z.ltb_spec (pat_idx - 4) 0); lia. }
    rewrite R. reflexivity.
Qed.

Lemma axis_range_total (content : bytes) (pat_idx n : Z) :
  1 <= n <= PY_SSIZE_T_MAX ->
  exists start_wl end_wl,
    axis_range content pat_idx n = Ok (start_wl, end_wl)
    /\ (read_axis_range content pat_idx = Ok (Some (start_wl, end_wl))
        \/ (read_axis_range content pat_idx = Ok None
            /\ start_wl = F64.zero /\ end_wl = float_of_Z (n - 1))).
Proof.
  intros Hn. unfold axis_range.
  destruct (read_axis_range_total content pat_idx) as [[[s e]|] ->]; cbn [bind].
  - exists s, e. auto.
  - rewrite float_of_int_eq by lia. cbn [bind].
    exists F64.zero, (float_of_Z (n - 1)). auto.
Qed.

(** The axis of a float32 decode is the specification's formula at every
    index. *)
Lemma wavelength_axis_float (content : bytes) (t : data_type) (pat_idx n : Z)
      (start_wl end_wl : float) :
  is_float32 t = true -> 1 <= n <= PY_SSIZE_T_MAX ->
  axis_range content pat_idx n = Ok (start_wl, end_wl) ->
  wavelength_axis content t pat_idx n
  = Ok (map (fun i => PyFloat (spec_wavelength start_wl
                                 (spec_step start_wl end_wl n) i))
            (py_range n)).
Proof.
  intros Ht Hn Ha. unfold wavelength_axis. rewrite Ht, Ha. cbn [bind fst snd].
  rewrite axis_step_spec by lia. cbn [bind].
  apply map_result_ok. intros i Hi. apply In_py_range in Hi.
  apply wavelength_at_spec; assumption.
Qed.

Lemma wavelength_axis_total (content : bytes) (t : data_type) (pat_idx n : Z) :
  0 <= n <= PY_SSIZE_T_MAX -> (is_float32 t = true -> 1 <= n) ->
  exists wavelengths,
    wavelength_axis content t pat_idx n = Ok wavelengths
    /\ len wavelengths = n.
Proof.
  intros Hn Ht. destruct (is_float32 t) eqn:E.
  - specialize (Ht eq_refl).
    destruct (@axis_range_total content pat_idx n) as (s & e & Ha & _); [lia|].
    rewrite (@wavelength_axis_float content t pat_idx n s e E ltac:(lia) Ha).
    eexists. split; [reflexivity|].
    unfold len. rewrite length_map. fold (len (py_range n)).
    rewrite py_range_len. lia.
  - unfold wavelength_axis. rewrite E.
    eexists. split; [reflexivity|].
    unfold len. rewrite length_map. fold (len (py_range n)).
    rewrite py_range_len. lia.
Qed.

End AxisFacts.

(** * The whole pipeline *)

Section Pipeline.

Lemma sample_count_range (n : Z) : 0 <= n -> 0 <= sample_count n <= n.
Proof.
  intros Hn. unfold sample_count.
  destruct (n mod 4 =? 0); [|destruct (n mod 2 =? 0)].
  - pose proof (Z.div_pos n 4 Hn ltac:(lia)).
    pose proof (Z.div_le_upper_bound n 4 n ltac:(lia) ltac:(lia)). lia.
  - pose proof (Z.div_pos n 2 Hn ltac:(lia)).
    pose proof (Z.div_le_upper_bound n 2 n ltac:(lia) ltac:(lia)). lia.
  - lia.
Qed.

Lemma sample_count_float (n : Z) :
  n mod 4 = 0 -> 0 < n -> 1 <= sample_count n.
Proof.
  intros H4 H0. unfold sample_count. rewrite H4. cbn.
  pose proof (Z.div_mod n 4 ltac:(lia)). lia.
Qed.

Lemma float32_count_pos (n : Z) (t : data_type) :
  format_class n t -> is_float32 t = true -> 1 <= sample_count n.
Proof.
  unfold format_class. intros Hc Hf.
  destruct (Z.eqb_spec (n mod 4) 0); destruct (Z.ltb_spec 0 n); cbn [andb] in Hc;
    try (apply sample_count_float; assumption);
    destruct ((n mod 2 =? 0) && _); subst t; discriminate.
Qed.

(** Every step of the pipeline returns, and what each returns. *)
Theorem process_spectro_file_total (content : bytes) :
  len content <= PY_SSIZE_T_MAX ->
  let header_end := fst (locate_header content) in
  let pat_idx := snd (locate_header content) in
  let data_bytes := py_slice_from content header_end in
  let n := sample_count (len data_bytes) in
  exists t values wavelengths,
    decode_data data_bytes = Ok (t, n, values)
    /\ wavelength_axis content t pat_idx n = Ok wavelengths
    /\ len values = n /\ len wavelengths = n
    /\ 0 <= n <= PY_SSIZE_T_MAX
    /\ format_class (len data_bytes) t
    /\ process_spectro_file content
       = Ok {| sp_type := t; sp_header_end := header_end; sp_pat_idx := pat_idx;
               sp_count := n; sp_wavelengths := wavelengths;
               sp_values := values; sp_rows := combine wavelengths values |}.
Proof.
  intros Hmax header_end pat_idx data_bytes n.
  destruct (locate_header_range content) as (Hh & _ & Hl).
  fold header_end in Hh, Hl. fold data_bytes in Hl.
  pose proof (len_nonneg content) as Hlc.
  assert (Hd : 0 <= len data_bytes <= len content) by lia.
  pose proof (sample_count_range (proj1 Hd)) as Hn. fold n in Hn.
  destruct (decode_data_total data_bytes) as (t & values & Hdec & Hvl & Ht).
  fold n in Hdec, Hvl.
  assert (Hc : format_class (len data_bytes) t).
  { unfold format_class. subst t.
    destruct ((len data_bytes mod 4 =? 0) && (0 <? len data_bytes)).
    - destruct (_ <=? _); auto.
    - destruct ((len data_bytes mod 2 =? 0) && (0 <? len data_bytes)); reflexivity. }
  destruct (@wavelength_axis_total content t pat_idx n) as (ws & Hws & Hwl);
    [lia|exact (@float32_count_pos _ _ Hc)|].
  exists t, values, ws.
  repeat (split; [first [assumption|lia]|]).
  unfold process_spectro_file.
  destruct (locate_header content) as [h p] eqn:EL.
  cbn [fst snd] in *. subst header_end pat_idx. fold data_bytes.
  rewrite Hdec. cbn [bind]. rewrite Hws. reflexivity.
Qed.

Lemma combine_len (A B : Type) (l1 : list A) (l2 : list B) :
  len (combine l1 l2) = Z.min (len l1) (len l2).
Proof. unfold len. rewrite length_combine. lia. Qed.

End Pipeline.

(** C6: the core decode returns for every buffer a Python [bytes] object can
    hold, and the length of the data region selects exactly one format. *)
Theorem decode_never_raises (content : bytes) :
  len content <= PY_SSIZE_T_MAX ->
  exists sp,
    process_spectro_file content = Ok sp
    /\ format_class (len (py_slice_from content (sp_header_end sp))) (sp_type sp).
Proof.
  intros Hmax.
  destruct (process_spectro_file_total content Hmax)
    as (t & values & ws & _ & _ & _ & _ & _ & Hc & Hp).
  eexists. split; [exact Hp|]. exact Hc.
Qed.

Lemma decode_never_raises_witness :
  let content := repeat "A"%byte 7 in
  len content <= PY_SSIZE_T_MAX
  /\ exists sp,
       process_spectro_file content = Ok sp
       /\ format_class (len (py_slice_from content (sp_header_end sp))) (sp_type sp).
Proof.
  split; [vm_compute; discriminate|].
  apply (@decode_never_raises (repeat "A"%byte 7)). vm_compute; discriminate.
Defined.

(** C2: the output has [L/4] rows when the data-region length [L] is
    divisible by 4, [L/2] when it is divisible by 2 only, [L] otherwise, and
    as many rows as decoded samples. *)
Theorem row_count (content : bytes) :
  len content <= PY_SSIZE_T_MAX ->
  exists sp,
    process_spectro_file content = Ok sp
    /\ sp_header_end sp = fst (locate_header content)
    /\ let L := len (py_slice_from content (sp_header_end sp)) in
       L = Z.max 0 (len content - sp_header_end sp)
       /\ len (sp_rows sp)
          = (if L mod 4 =? 0 then L / 4 else if L mod 2 =? 0 then L / 2 else L)
       /\ len (sp_rows sp) = len (sp_values sp)
       /\ len (sp_rows sp) = sp_count sp.
Proof.
  intros Hmax.
  destruct (process_spectro_file_total content Hmax)
    as (t & values & ws & _ & _ & Hv & Hw & _ & _ & Hp).
  destruct (locate_header_range content) as (_ & _ & Hl).
  eexists. split; [exact Hp|]. cbn [sp_header_end sp_rows sp_values sp_count].
  split; [reflexivity|]. split; [exact Hl|].
  rewrite combine_len, Hv, Hw. unfold sample_count. lia.
Qed.

Lemma row_count_witness :
  let content := repeat "A"%byte 106 in
  len content <= PY_SSIZE_T_MAX
  /\ exists sp,
       process_spectro_file content = Ok sp
       /\ sp_header_end sp = fst (locate_header content)
       /\ let L := len (py_slice_from content (sp_header_end sp)) in
          L = Z.max 0 (len content - sp_header_end sp)
          /\ len (sp_rows sp)
             = (if L mod 4 =? 0 then L / 4 else if L mod 2 =? 0 then L / 2 else L)
          /\ len (sp_rows sp) = len (sp_values sp)
          /\ len (sp_rows sp) = sp_count sp.
Proof.
  split; [vm_compute; discriminate|].
  apply (@row_count (repeat "A"%byte 106)). vm_compute; discriminate.
Defined.

(** C8: in a float32 decode the wavelength of sample [i] is
    [start + i*step], with [step = (end - start)/(N - 1)] when [N > 1] and
    [step = 0] otherwise, every operation being the binary64 one. *)
Theorem wavelength_formula (content : bytes) :
  len content <= PY_SSIZE_T_MAX ->
  exists sp,
    process_spectro_file content = Ok sp
    /\ (is_float32 (sp_type sp) = true ->
        exists start_wl end_wl,
          axis_range content (sp_pat_idx sp) (sp_count sp) = Ok (start_wl, end_wl)
          /\ forall i, 0 <= i < sp_count sp ->
               nth_error (sp_wavelengths sp) (Z.to_nat i)
               = Some (PyFloat
                         (F64.add start_wl
                            (F64.mul (float_of_Z i)
                               (if 1 <? sp_count sp
                                then F64.div (F64.sub end_wl start_wl)
                                             (float_of_Z (sp_count sp - 1))
                                else F64.zero))))).
Proof.
  intros Hmax.
  destruct (process_spectro_file_total content Hmax)
    as (t & values & ws & Hd & Hws & _ & _ & Hn & Hc & Hp).
  eexists. split; [exact Hp|]. cbn [sp_type sp_pat_idx sp_count sp_wavelengths].
  intros Hf.
  set (n := sample_count (len (py_slice_from content (fst (locate_header content))))) in *.
  pose proof (@float32_count_pos _ _ Hc Hf) as H1. fold n in H1.
  destruct (@axis_range_total content (snd (locate_header content)) n)
    as (s & e & Ha & _); [lia|].
  exists s, e. split; [exact Ha|].
  rewrite (@wavelength_axis_float content t (snd (locate_header content)) n s e
             Hf ltac:(lia) Ha) in Hws.
  injection Hws as <-. intros i Hi.
  rewrite nth_error_map, nth_error_py_range by lia.
  cbn [option_map]. rewrite Z2Nat.id by lia. reflexivity.
Qed.

Lemma wavelength_formula_witness :
  let content := repeat "A"%byte 108 in
  len content <= PY_SSIZE_T_MAX
  /\ exists sp,
    process_spectro_file content = Ok sp
    /\ (is_float32 (sp_type sp) = true ->
        exists start_wl end_wl,
          axis_range content (sp_pat_idx sp) (sp_count sp) = Ok (start_wl, end_wl)
          /\ forall i, 0 <= i < sp_count sp ->
               nth_error (sp_wavelengths sp) (Z.to_nat i)
               = Some (PyFloat
                         (F64.add start_wl
                            (F64.mul (float_of_Z i)
                               (if 1 <? sp_count sp
                                then F64.div (F64.sub end_wl start_wl)
                                             (float_of_Z (sp_count sp - 1))
                                else F64.zero))))).
Proof.
  split; [vm_compute; discriminate|].
  apply (@wavelength_formula (repeat "A"%byte 108)). vm_compute; discriminate.
Defined.

(** C3: with the marker found and a float32 format, the 8 bytes before the
    marker are read as two big-endian float32 values, the start and end
    wavelengths; when the marker lies less than 8 bytes into the buffer the
    read fails and the axis is the index-based default [0.0 .. N-1]. *)
Theorem axis_metadata_read (content : bytes) :
  len content <= PY_SSIZE_T_MAX ->
  exists sp,
    process_spectro_file content = Ok sp
    /\ (is_float32 (sp_type sp) = true -> sp_pat_idx sp <> -1 ->
        let pat_idx := sp_pat_idx sp in
        (8 <= pat_idx ->
         exists b0 b1 b2 b3 b4 b5 b6 b7,
           firstn 8 (skipn (Z.to_nat (pat_idx - 8)) content)
           = [b0; b1; b2; b3; b4; b5; b6; b7]
           /\ axis_range content pat_idx (sp_count sp)
              = Ok (float_of_bits32 (bits32 true b0 b1 b2 b3),
                    float_of_bits32 (bits32 true b4 b5 b6 b7)))
        /\ (pat_idx < 8 \/ read_axis_range content pat_idx = Ok None ->
            axis_range content pat_idx (sp_count sp)
            = Ok (F64.zero, float_of_Z (sp_count sp - 1)))).
Proof.
  intros Hmax.
  destruct (process_spectro_file_total content Hmax)
    as (t & values & ws & Hd & Hws & _ & _ & Hn & Hc & Hp).
  eexists. split; [exact Hp|]. cbn [sp_type sp_pat_idx sp_count].
  intros Hf Hpat.
  set (n := sample_count (len (py_slice_from content (fst (locate_header content))))) in *.
  pose proof (@float32_count_pos _ _ Hc Hf) as H1. fold n in H1.
  destruct (locate_header_found content Hpat) as (Hlo & Hhe & Hhi).
  pose proof (wav_header_end_range content) as Hw.
  cbv zeta. split.
  - intros H8.
    destruct (@read_axis_range_read content (snd (locate_header content)))
      as (b0 & b1 & b2 & b3 & b4 & b5 & b6 & b7 & Hb & Hr); try lia.
    exists b0, b1, b2, b3, b4, b5, b6, b7. split; [exact Hb|].
    unfold axis_range. rewrite Hr. reflexivity.
  - intros H8.
    assert (Hr : read_axis_range content (snd (locate_header content)) = Ok None).
    { destruct H8 as [H8|H8]; [|exact H8]. apply read_axis_range_short; lia. }
    unfold axis_range. rewrite Hr. cbn [bind].
    rewrite float_of_int_eq by lia. reflexivity.
Qed.

Lemma axis_metadata_read_witness :
  let content := pattern ++ [x3f; x80; x00; x00; x40; x00; x00; x00] in
  len content <= PY_SSIZE_T_MAX
  /\ exists sp,
    process_spectro_file content = Ok sp
    /\ (is_float32 (sp_type sp) = true -> sp_pat_idx sp <> -1 ->
        let pat_idx := sp_pat_idx sp in
        (8 <= pat_idx ->
         exists b0 b1 b2 b3 b4 b5 b6 b7,
           firstn 8 (skipn (Z.to_nat (pat_idx - 8)) content)
           = [b0; b1; b2; b3; b4; b5; b6; b7]
           /\ axis_range content pat_idx (sp_count sp)
              = Ok (float_of_bits32 (bits32 true b0 b1 b2 b3),
                    float_of_bits32 (bits32 true b4 b5 b6 b7)))
        /\ (pat_idx < 8 \/ read_axis_range content pat_idx = Ok None ->
            axis_range content pat_idx (sp_count sp)
            = Ok (F64.zero, float_of_Z (sp_count sp - 1)))).
Proof.
  split; [vm_compute; discriminate|].
  apply (@axis_metadata_read (pattern ++ [x3f; x80; x00; x00; x40; x00; x00; x00])).
  vm_compute; discriminate.
Defined.

(** C7: a buffer with neither [".WAV"] nor the marker has its boundary at
    exactly 100; when such a buffer has 7 bytes the data region is empty, the
    format is [bytes] and there are no rows. *)
Theorem no_header_no_marker (content : bytes) :
  bytes_find content WAV 0 = -1 ->
  bytes_find content pattern 0 = -1 ->
  fst (locate_header content) = 100
  /\ (len content = 7 ->
      py_slice_from content 100 = []
      /\ exists sp,
           process_spectro_file content = Ok sp
           /\ sp_header_end sp = 100
           /\ sp_type sp = raw_bytes
           /\ sp_rows sp = []).
Proof.
  intros Hw Hp.
  destruct (wav_absent content Hw) as [_ HL]. rewrite Hp in HL. cbn in HL.
  rewrite HL. split; [reflexivity|].
  intros H7.
  assert (Hs : py_slice_from content 100 = []).
  { unfold py_slice_from, slice_index. rewrite H7. cbn.
    apply skipn_all2. unfold len in H7. lia. }
  split; [exact Hs|].
  unfold process_spectro_file. rewrite HL, Hs.
  eexists. split; [reflexivity|]. cbn. auto.
Qed.

Lemma no_header_no_marker_witness :
  let content := repeat "A"%byte 7 in
  bytes_find content WAV 0 = -1
  /\ bytes_find content pattern 0 = -1
  /\ fst (locate_header content) = 100
  /\ (len content = 7 ->
      py_slice_from content 100 = []
      /\ exists sp,
           process_spectro_file content = Ok sp
           /\ sp_header_end sp = 100
           /\ sp_type sp = raw_bytes
           /\ sp_rows sp = []).
Proof.
  split; [reflexivity|]. split; [reflexivity|].
  apply (@no_header_no_marker (repeat "A"%byte 7)); reflexivity.
Defined.

(** * Scenario 1 *)

(** C5 as stated fails: with the axis bytes after the marker they are
    decoded as two more samples (four rows), and the wavelengths come from
    the last 8 filler bytes. *)
Lemma scenario1_as_stated_fails :
  let content := scenario1_as_stated (repeat "A"%byte 92) in
  ~ (exists sp,
       process_spectro_file content = Ok sp
       /\ sp_type sp = float32_be
       /\ sp_header_end sp = 105
       /\ sp_rows sp = scenario1_rows).
Proof.
  intros content (sp & Hp & _ & _ & Hr).
  vm_compute in Hp. injection Hp as <-. discriminate Hr.
Qed.

(** C5, amended: ".WAV\x00", 84 header bytes, the 8 bytes of (400.0, 700.0),
    the marker and the 8 bytes of [1.0, 2.0], where the marker does not
    occur earlier than offset 97: float32_be, boundary 105 just after the
    marker, and exactly the rows (400.0, 1.0), (700.0, 2.0). *)
Theorem scenario1_decodes (filler : bytes) :
  length filler = 84%nat ->
  bytes_find (scenario1 filler) pattern 5 = 97 ->
  process_spectro_file (scenario1 filler)
  = Ok {| sp_type := float32_be;
          sp_header_end := 105;
          sp_pat_idx := 97;
          sp_count := 2;
          sp_wavelengths := [PyFloat (float_of_Z 400); PyFloat (float_of_Z 700)];
          sp_values := [PyFloat (float_of_Z 1); PyFloat (float_of_Z 2)];
          sp_rows := scenario1_rows |}.
Proof.
  intros Hlen Hfind.
  do 84 (destruct filler as [|? filler]; [discriminate Hlen|]).
  destruct filler; [|discriminate Hlen]. clear Hlen.
  unfold process_spectro_file, locate_header.
  match goal with
  | |- context [wav_header_end ?c] =>
      replace (wav_header_end c) with 5 by (vm_compute; reflexivity)
  end.
  rewrite Hfind. vm_compute. reflexivity.
Qed.

Lemma scenario1_decodes_witness :
  let filler := repeat x00 84 in
  length filler = 84%nat
  /\ bytes_find (scenario1 filler) pattern 5 = 97
  /\ process_spectro_file (scenario1 filler)
     = Ok {| sp_type := float32_be;
             sp_header_end := 105;
             sp_pat_idx := 97;
             sp_count := 2;
             sp_wavelengths := [PyFloat (float_of_Z 400); PyFloat (float_of_Z 700)];
             sp_values := [PyFloat (float_of_Z 1); PyFloat (float_of_Z 2)];
             sp_rows := scenario1_rows |}.
Proof.
  split; [reflexivity|]. split; [reflexivity|].
  apply (@scenario1_decodes (repeat x00 84)); reflexivity.
Defined.

(** * Monotonicity of the axis *)

Section Monotone.

Lemma unpack_one_f_some (s : bytes) (f : float) :
  unpack_one_f s = Ok f -> exists x, f = float_of_bits32 x.
Proof.
  unfold unpack_one_f, unpack_f.
  destruct (len s =? 4 * Z.max 1 0); [|discriminate]. cbn [bind].
  destruct s as [|b0 [|b1 [|b2 [|b3 s]]]]; cbn [decode_f]; try discriminate.
  intros H. injection H as <-. eauto.
Qed.

Lemma read_axis_range_some (content : bytes) (pat_idx : Z) (start_wl end_wl : float) :
  read_axis_range content pat_idx = Ok (Some (start_wl, end_wl)) ->
  exists x y, start_wl = float_of_bits32 x /\ end_wl = float_of_bits32 y.
Proof.
  unfold read_axis_range. destruct (negb _); [|discriminate].
  destruct (unpack_one_f (py_slice content (pat_idx - 8) (pat_idx - 4)))
    as [s|] eqn:E1; cbn [bind try_except]; [|discriminate].
  destruct (unpack_one_f (py_slice content (pat_idx - 4) pat_idx))
    as [e|] eqn:E2; cbn [bind try_except]; [|discriminate].
  intros H. injection H as <- <-.
  destruct (unpack_one_f_some _ E1) as [x ->].
  destruct (unpack_one_f_some _ E2) as [y ->]. eauto.
Qed.

(** The axis between two finite binary32 endpoints never turns back. *)
Lemma spec_wavelength_mono (start_wl end_wl : float) (n i j : Z) :
  F64.is_finite start_wl = true -> valid64 start_wl = true ->
  F64.is_finite end_wl = true -> valid64 end_wl = true ->
  Fmag start_wl <= 129 -> Fmag end_wl <= 129 ->
  1 <= n <= PY_SSIZE_T_MAX -> 0 <= i -> i <= j -> j < n ->
  let w := spec_wavelength start_wl (spec_step start_wl end_wl n) in
  (F64.ltb start_wl end_wl = true -> F64.leb (w i) (w j) = true)
  /\ (F64.ltb end_wl start_wl = true -> F64.leb (w j) (w i) = true).
Proof.
  intros Fs Vs Fe Ve Bs Be Hn Hi Hij Hj w. subst w.
  destruct (Z_le_gt_dec n 1) as [H1|H1].
  - assert (i = 0) by lia. assert (j = 0) by lia. subst i j.
    unfold spec_wavelength, spec_step.
    destruct (Z.ltb_spec 1 n); [lia|].
    change (F64.mul (float_of_Z 0) F64.zero) with (S754_zero false).
    pose proof (Fmag_lower _ Vs).
    destruct (@add_V start_wl (S754_zero false) 129) as (Fw & Vw & _);
      try assumption; try reflexivity; try (cbn [Fmag]; lia).
    unfold F64.leb. rewrite SFleb_V by assumption.
    split; intros _; apply Z.leb_refl.
  - destruct (@axis_step_sign start_wl end_wl n)
      as (step & Hst & Ft & Vt & Bt & Hinc & Hdec); try assumption; try lia.
    rewrite axis_step_spec in Hst by lia.
    pose proof (@wavelength_at_spec start_wl end_wl n i ltac:(lia) ltac:(lia)) as Si.
    pose proof (@wavelength_at_spec start_wl end_wl n j ltac:(lia) ltac:(lia)) as Sj.
    destruct (Z.ltb_spec 1 n); [|lia].
    injection Hst as Hst.
    destruct (@wavelength_at_mono start_wl step i j)
      as (wi & wj & Hwi & Hwj & Hle & Hge); try assumption; try lia.
    rewrite Hst in Si, Sj |- *. rewrite Hwi in Si. rewrite Hwj in Sj.
    injection Si as Si. injection Sj as Sj. subst wi wj.
    split; intros Hlt; [apply Hle, Hinc, Hlt|apply Hge, Hdec, Hlt].
Qed.

End Monotone.

(** C9 as stated fails: an infinite end wavelength read from the metadata
    gives an infinite step, [0*step] is NaN, and the first wavelength is NaN:
    the sequence is not increasing although [end > start]. *)
Lemma axis_not_monotone_with_infinite_endpoint :
  let content := [x00; x00; x00; x00; x7f; x80; x00; x00] ++ pattern ++ data_1_2 in
  exists sp w0 w1,
    process_spectro_file content = Ok sp
    /\ read_axis_range content (sp_pat_idx sp) = Ok (Some (F64.zero, F64.inf))
    /\ F64.ltb F64.zero F64.inf = true
    /\ sp_wavelengths sp = [PyFloat w0; PyFloat w1]
    /\ F64.ltb w0 w1 = false.
Proof.
  eexists. exists S754_nan, (S754_infinity false).
  split; [vm_compute; reflexivity|].
  repeat split.
Qed.

(** C9, amended: when the axis range is read from the metadata and both
    endpoints are finite, the wavelength sequence never turns back: it is
    non-decreasing if [end > start] and non-increasing if [end < start]; it
    is a single value when [N = 1]. *)
Theorem axis_monotone (content : bytes) :
  len content <= PY_SSIZE_T_MAX ->
  exists sp,
    process_spectro_file content = Ok sp
    /\ forall start_wl end_wl,
         is_float32 (sp_type sp) = true ->
         read_axis_range content (sp_pat_idx sp) = Ok (Some (start_wl, end_wl)) ->
         F64.is_finite start_wl = true -> F64.is_finite end_wl = true ->
         exists ws,
           sp_wavelengths sp = map PyFloat ws
           /\ (F64.ltb start_wl end_wl = true ->
               forall (i j : nat) x y, (i <= j)%nat ->
                 nth_error ws i = Some x -> nth_error ws j = Some y ->
                 F64.leb x y = true)
           /\ (F64.ltb end_wl start_wl = true ->
               forall (i j : nat) x y, (i <= j)%nat ->
                 nth_error ws i = Some x -> nth_error ws j = Some y ->
                 F64.leb y x = true)
           /\ (sp_count sp = 1 -> exists w, ws = [w]).
Proof.
  intros Hmax.
  destruct (process_spectro_file_total content Hmax)
    as (t & values & ws & Hd & Hws & _ & _ & Hn & Hc & Hp).
  eexists. split; [exact Hp|]. cbn [sp_type sp_pat_idx sp_count sp_wavelengths].
  intros start_wl end_wl Hf Hr Fs Fe.
  set (n := sample_count (len (py_slice_from content (fst (locate_header content))))) in *.
  pose proof (@float32_count_pos _ _ Hc Hf) as H1. fold n in H1.
  assert (Ha : axis_range content (snd (locate_header content)) n
               = Ok (start_wl, end_wl)).
  { unfold axis_range. rewrite Hr. reflexivity. }
  rewrite (@wavelength_axis_float content t (snd (locate_header content)) n
             start_wl end_wl Hf ltac:(lia) Ha) in Hws.
  injection Hws as <-.
  destruct (read_axis_range_some _ _ Hr) as (x0 & y0 & -> & ->).
  destruct (float_of_bits32_valid x0) as [Vs Bs].
  destruct (float_of_bits32_valid y0) as [Ve Be].
  set (w := spec_wavelength (float_of_bits32 x0)
              (spec_step (float_of_bits32 x0) (float_of_bits32 y0) n)).
  exists (map w (py_range n)).
  split; [rewrite map_map; reflexivity|].
  assert (Hnth : forall (i : nat) x, nth_error (map w (py_range n)) i = Some x ->
                   Z.of_nat i < n /\ x = w (Z.of_nat i)).
  { intros i x Hx.
    assert (Hi : (i < length (map w (py_range n)))%nat)
      by (apply nth_error_Some; congruence).
    rewrite length_map in Hi. fold (len (py_range n)) in Hi.
    assert (Z.of_nat i < n).
    { pose proof (py_range_len n). unfold len in *. lia. }
    split; [assumption|].
    rewrite nth_error_map, nth_error_py_range in Hx by assumption.
    cbn [option_map] in Hx. congruence. }
  split; [|split].
  - intros Hlt i j x y Hij Hx Hy.
    apply Hnth in Hx as [Hi ->]. apply Hnth in Hy as [Hj ->].
    apply (@spec_wavelength_mono (float_of_bits32 x0) (float_of_bits32 y0) n
             (Z.of_nat i) (Z.of_nat j)); try assumption; lia.
  - intros Hlt i j x y Hij Hx Hy.
    apply Hnth in Hx as [Hi ->]. apply Hnth in Hy as [Hj ->].
    apply (@spec_wavelength_mono (float_of_bits32 x0) (float_of_bits32 y0) n
             (Z.of_nat i) (Z.of_nat j)); try assumption; lia.
  - intros E. rewrite E. exists (w 0). reflexivity.
Qed.

Lemma axis_monotone_witness :
  let content := axis_400_700 ++ pattern ++ data_1_2 in
  len content <= PY_SSIZE_T_MAX
  /\ exists sp,
    process_spectro_file content = Ok sp
    /\ forall start_wl end_wl,
         is_float32 (sp_type sp) = true ->
         read_axis_range content (sp_pat_idx sp) = Ok (Some (start_wl, end_wl)) ->
         F64.is_finite start_wl = true -> F64.is_finite end_wl = true ->
         exists ws,
           sp_wavelengths sp = map PyFloat ws
           /\ (F64.ltb start_wl end_wl = true ->
               forall (i j : nat) x y, (i <= j)%nat ->
                 nth_error ws i = Some x -> nth_error ws j = Some y ->
                 F64.leb x y = true)
           /\ (F64.ltb end_wl start_wl = true ->
               forall (i j : nat) x y, (i <= j)%nat ->
                 nth_error ws i = Some x -> nth_error ws j = Some y ->
                 F64.leb y x = true)
           /\ (sp_count sp = 1 -> exists w, ws = [w]).
Proof.
  split; [vm_compute; discriminate|].
  apply (@axis_monotone (axis_400_700 ++ pattern ++ data_1_2)).
  vm_compute; discriminate.
Defined.

(** * A long data region between adjacent endpoints *)

Section LongRegion.

Lemma Ok_inj (A : Type) (a b : A) : Ok a = Ok b -> a = b.
Proof. intros H. injection H as H. exact H. Qed.

Lemma occurs_at_In (x : byte) (sub s : bytes) (i : Z) :
  occurs_at (x :: sub) s i -> In x s.
Proof.
  intros [_ H]. rewrite <- (firstn_skipn (Z.to_nat i) s).
  apply in_or_app. right.
  destruct (skipn (Z.to_nat i) s) as [|y t]; [discriminate|].
  cbn [length firstn] in H. injection H as -> _. left. reflexivity.
Qed.

Variable tail : bytes.
Hypothesis tail_len : len tail = 4 * (2 ^ 30 + 1).
Hypothesis tail_zero : forall b, In b tail -> b = x00.

Lemma long_region_len : len (long_region tail) = 16 + 4 * (2 ^ 30 + 1).
Proof using tail_len.
  unfold long_region. rewrite !len_app, tail_len. reflexivity.
Qed.

Lemma long_region_no_wav : bytes_find (long_region tail) WAV 0 = -1.
Proof using tail_zero.
  destruct (Z.eq_dec (bytes_find (long_region tail) WAV 0) (-1)) as [|Hne]; [assumption|].
  destruct (bytes_find_found (long_region tail) WAV (Z.le_refl 0) Hne) as (_ & _ & Ho & _).
  apply occurs_at_In in Ho. unfold long_region, pattern in Ho.
  cbn [app] in Ho.
  repeat (destruct Ho as [Ho|Ho]; [discriminate Ho|]).
  apply tail_zero in Ho. discriminate Ho.
Qed.

Lemma long_region_marker : bytes_find (long_region tail) pattern 0 = 8.
Proof using Type.
  assert (H8 : occurs_at pattern (long_region tail) 8) by (split; [lia|reflexivity]).
  destruct (Z.eq_dec (bytes_find (long_region tail) pattern 0) (-1)) as [E|Hne].
  { exfalso. apply (@bytes_find_none (long_region tail) pattern 0 (Z.le_refl 0)) with (i := 8);
      [discriminate|exact E|lia|exact H8]. }
  destruct (bytes_find_found (long_region tail) pattern (Z.le_refl 0) Hne) as (H0 & _ & Ho & Hmin).
  set (r := bytes_find (long_region tail) pattern 0) in *.
  destruct (Z_lt_le_dec 8 r) as [Hgt|Hle].
  { exfalso. apply (Hmin 8); [lia|exact H8]. }
  destruct Ho as [_ Ho].
  assert (Hr : r = 0 \/ r = 1 \/ r = 2 \/ r = 3 \/ r = 4 \/ r = 5 \/ r = 6
               \/ r = 7 \/ r = 8) by lia.
  destruct Hr as [Hr|[Hr|[Hr|[Hr|[Hr|[Hr|[Hr|[Hr|Hr]]]]]]]]; try exact Hr;
    rewrite Hr in Ho; discriminate Ho.
Qed.

Lemma long_region_header : locate_header (long_region tail) = (16, 8).
Proof using tail_zero.
  destruct (wav_absent (long_region tail) long_region_no_wav) as [_ ->].
  rewrite long_region_marker. reflexivity.
Qed.

(** The wavelengths of samples 0 and 1 are the same float. *)
Lemma long_region_not_strict :
  exists sp w,
    process_spectro_file (long_region tail) = Ok sp
    /\ is_float32 (sp_type sp) = true
    /\ read_axis_range (long_region tail) (sp_pat_idx sp)
       = Ok (Some (float_of_bits32 1904214016, float_of_bits32 1904214017))
    /\ F64.is_finite (float_of_bits32 1904214016) = true
    /\ F64.is_finite (float_of_bits32 1904214017) = true
    /\ F64.ltb (float_of_bits32 1904214016) (float_of_bits32 1904214017) = true
    /\ nth_error (sp_wavelengths sp) 0 = Some (PyFloat w)
    /\ nth_error (sp_wavelengths sp) 1 = Some (PyFloat w).
Proof using tail_len tail_zero.
  pose proof long_region_len as Hlen.
  assert (Hmax : len (long_region tail) <= PY_SSIZE_T_MAX)
    by (rewrite Hlen; vm_compute; discriminate).
  destruct (process_spectro_file_total (long_region tail) Hmax)
    as (t & values & ws & _ & Hws & _ & _ & _ & Hc & Hp).
  rewrite long_region_header in *. cbn [fst snd] in *.
  assert (Hd : len (py_slice_from (long_region tail) 16) = 4 * (2 ^ 30 + 1)).
  { rewrite py_slice_from_len, Hlen by lia. reflexivity. }
  rewrite Hd in *.
  change (sample_count (4 * (2 ^ 30 + 1))) with (2 ^ 30 + 1) in *.
  assert (Hf : is_float32 t = true).
  { change (format_class (4 * (2 ^ 30 + 1)) t)
      with (t = float32_be \/ t = float32_le) in Hc.
    destruct Hc as [-> | ->]; reflexivity. }
  assert (Hr : read_axis_range (long_region tail) 8
               = Ok (Some (float_of_bits32 1904214016, float_of_bits32 1904214017))).
  { destruct (@read_axis_range_read (long_region tail) 8)
      as (b0 & b1 & b2 & b3 & b4 & b5 & b6 & b7 & Hb & Hr);
      [lia|rewrite Hlen; vm_compute; discriminate|].
    change (firstn 8 (skipn (Z.to_nat (8 - 8)) (long_region tail)))
      with [x71; x80; x00; x00; x71; x80; x00; x01] in Hb.
    injection Hb as <- <- <- <- <- <- <- <-. exact Hr. }
  assert (Ha : axis_range (long_region tail) 8 (2 ^ 30 + 1)
               = Ok (float_of_bits32 1904214016, float_of_bits32 1904214017)).
  { unfold axis_range. rewrite Hr. reflexivity. }
  rewrite (@wavelength_axis_float (long_region tail) t 8 (2 ^ 30 + 1) _ _ Hf
             ltac:(vm_compute; split; discriminate) Ha) in Hws.
  apply Ok_inj in Hws. subst ws.
  eexists. exists (float_of_bits32 1904214016).
  split; [exact Hp|]. cbn [sp_type sp_pat_idx sp_wavelengths].
  split; [exact Hf|]. split; [exact Hr|].
  split; [reflexivity|]. split; [reflexivity|]. split; [reflexivity|].
  rewrite !nth_error_map.
  rewrite (@nth_error_py_range (2 ^ 30 + 1) 0), (@nth_error_py_range (2 ^ 30 + 1) 1)
    by reflexivity.
  cbn [option_map]. split; do 2 f_equal; vm_compute; reflexivity.
Qed.

End LongRegion.

(** Why the amended C9 cannot keep "strictly": a 4 GiB region of zero bytes
    after the endpoints [2^100] and its binary32 successor has [2^30 + 1]
    samples and a step of half a binary64 unit in the last place of the
    start wavelength; the first two wavelengths are equal. *)
Lemma axis_not_strict_on_long_region :
  let content := long_region (repeat x00 (Z.to_nat (4 * (2 ^ 30 + 1)))) in
  exists sp w,
    process_spectro_file content = Ok sp
    /\ is_float32 (sp_type sp) = true
    /\ read_axis_range content (sp_pat_idx sp)
       = Ok (Some (float_of_bits32 1904214016, float_of_bits32 1904214017))
    /\ F64.is_finite (float_of_bits32 1904214016) = true
    /\ F64.is_finite (float_of_bits32 1904214017) = true
    /\ F64.ltb (float_of_bits32 1904214016) (float_of_bits32 1904214017) = true
    /\ nth_error (sp_wavelengths sp) 0 = Some (PyFloat w)
    /\ nth_error (sp_wavelengths sp) 1 = Some (PyFloat w).
Proof.
  apply long_region_not_strict.
  - unfold len. rewrite repeat_length. rewrite Z2Nat.id; [reflexivity|discriminate].
  - intros b Hb. apply repeat_spec in Hb. exact Hb.
Qed.

(** * The other scenarios of the specification, evaluated *)

(** Scenario 3: a data region of 6 bytes is decoded as three unsigned
    little-endian 16-bit integers on the index axis. *)
Example scenario3_int16 :
  process_spectro_file (repeat "A"%byte 100 ++ [x01; x00; x02; x00; x00; x01])
  = Ok {| sp_type := int16;
          sp_header_end := 100;
          sp_pat_idx := -1;
          sp_count := 3;
          sp_wavelengths := [PyInt 0; PyInt 1; PyInt 2];
          sp_values := [PyInt 1; PyInt 2; PyInt 256];
          sp_rows := [(PyInt 0, PyInt 1); (PyInt 1, PyInt 2); (PyInt 2, PyInt 256)] |}.
Proof. vm_compute. reflexivity. Qed.

(** Scenario 4: four bytes that are a NaN when read big-endian and a value
    near 1 when read little-endian are decoded little-endian. *)
Example scenario4_little_endian :
  let data_bytes := [x7f; x80; x80; x3f] in
  plausibility_score (decode_f true data_bytes) = 0
  /\ plausibility_score (decode_f false data_bytes) = 1
  /\ exists sp,
       process_spectro_file (repeat "A"%byte 100 ++ data_bytes) = Ok sp
       /\ sp_type sp = float32_le
       /\ sp_values sp = [PyFloat (float_of_bits32 1065386111)].
Proof.
  split; [reflexivity|]. split; [reflexivity|].
  eexists. split; [vm_compute; reflexivity|]. split; reflexivity.
Qed.

(** A marker at offset 0 of the buffer: the wrapped-around slice of the
    metadata read is empty and the axis is the index axis [0.0, 1.0]. *)
Example marker_at_start :
  exists sp,
    process_spectro_file (pattern ++ data_1_2) = Ok sp
    /\ sp_pat_idx sp = 0
    /\ sp_wavelengths sp = [PyFloat F64.zero; PyFloat (float_of_Z 1)].
Proof. eexists. split; [vm_compute; reflexivity|]. split; reflexivity. Qed.

(** * What a returned spectrum is made of *)

Section Inversion.

Lemma map_result_length (A B : Type) (f : A -> result B) (l : list A) (ys : list B) :
  map_result f l = Ok ys -> length ys = length l.
Proof.
  revert ys; induction l as [|x l IH]; intros ys H; cbn [map_result] in H.
  - injection H as <-. reflexivity.
  - destruct (f x) as [y|]; cbn [bind] in H; [|discriminate].
    destruct (map_result f l) as [ys'|]; cbn [bind] in H; [|discriminate].
    injection H as <-. cbn [length]. f_equal. apply IH. reflexivity.
Qed.

Lemma wavelength_axis_length (content : bytes) (t : data_type) (pat_idx n : Z)
      (ws : list pynum) :
  wavelength_axis content t pat_idx n = Ok ws -> len ws = Z.max n 0.
Proof.
  unfold wavelength_axis. destruct (is_float32 t).
  - destruct (axis_range content pat_idx n) as [se|]; cbn [bind]; [|discriminate].
    destruct (axis_step (fst se) (snd se) n) as [step|]; cbn [bind]; [|discriminate].
    intros H. apply map_result_length in H.
    unfold len. rewrite H. fold (len (py_range n)). apply py_range_len.
  - intros H. injection H as <-.
    unfold len. rewrite length_map. fold (len (py_range n)). apply py_range_len.
Qed.

(** A returned spectrum is the result of the four steps on the buffer. *)
Lemma process_spectro_file_inv (content : bytes) (sp : spectrum) :
  process_spectro_file content = Ok sp ->
  sp_header_end sp = fst (locate_header content)
  /\ sp_pat_idx sp = snd (locate_header content)
  /\ decode_data (py_slice_from content (sp_header_end sp))
     = Ok (sp_type sp, sp_count sp, sp_values sp)
  /\ wavelength_axis content (sp_type sp) (sp_pat_idx sp) (sp_count sp)
     = Ok (sp_wavelengths sp)
  /\ sp_rows sp = combine (sp_wavelengths sp) (sp_values sp).
Proof.
  unfold process_spectro_file.
  destruct (locate_header content) as [h p]. cbn [fst snd].
  destruct (decode_data (py_slice_from content h)) as [[[t n] vals]|] eqn:Ed;
    cbn [bind]; [|discriminate].
  destruct (wavelength_axis content t p n) as [ws|] eqn:Ew; cbn [bind]; [|discriminate].
  intros H. injection H as <-. cbn. auto.
Qed.

(** What [decode_data] returned, read off the format. *)
Lemma decode_data_inv (data_bytes : bytes) (t : data_type) (n : Z) (values : list pynum) :
  decode_data data_bytes = Ok (t, n, values) ->
  match t with
  | float32_be =>
      len data_bytes mod 4 = 0 /\ 0 < len data_bytes /\ n = len data_bytes / 4
      /\ values = map PyFloat (decode_f true data_bytes)
      /\ plausibility_score (decode_f false data_bytes)
         <= plausibility_score (decode_f true data_bytes)
  | float32_le =>
      len data_bytes mod 4 = 0 /\ 0 < len data_bytes /\ n = len data_bytes / 4
      /\ values = map PyFloat (decode_f false data_bytes)
      /\ plausibility_score (decode_f true data_bytes)
         < plausibility_score (decode_f false data_bytes)
  | int16 =>
      len data_bytes mod 4 <> 0 /\ len data_bytes mod 2 = 0
      /\ n = len data_bytes / 2 /\ values = map PyInt (decode_H data_bytes)
  | raw_bytes =>
      (len data_bytes mod 2 <> 0 \/ len data_bytes = 0)
      /\ n = len data_bytes
      /\ values = map (fun b => PyInt (byte_val b)) data_bytes
  end.
Proof.
  intros H. pose proof (len_nonneg data_bytes) as Hn.
  destruct (Z.eq_dec (len data_bytes mod 4) 0) as [E4|N4].
  - destruct (Z_lt_le_dec 0 (len data_bytes)) as [H0|H0].
    + rewrite decode_data_float in H by assumption.
      destruct (Z.leb_spec (plausibility_score (decode_f false data_bytes))
                           (plausibility_score (decode_f true data_bytes)));
        injection H as <- <- <-; auto.
    + rewrite decode_data_bytes in H by lia.
      injection H as <- <- <-. split; [right; lia|auto].
  - destruct (Z.eq_dec (len data_bytes mod 2) 0) as [E2|N2].
    + rewrite decode_data_int16 in H by assumption.
      injection H as <- <- <-. auto.
    + rewrite decode_data_bytes in H by auto.
      injection H as <- <- <-. auto.
Qed.

Lemma nth_error_decode_H (s : bytes) (i : nat) (b0 b1 : byte) :
  nth_error s (2 * i) = Some b0 -> nth_error s (2 * i + 1) = Some b1 ->
  nth_error (decode_H s) i
  = Some (Z.lor (Z.shiftl (byte_val b1) 8) (byte_val b0)).
Proof.
  revert s; induction i as [|i IH]; intros s H0 H1.
  - destruct s as [|a [|b s]]; try discriminate.
    cbn in H0, H1. injection H0 as ->. injection H1 as ->. reflexivity.
  - destruct s as [|a [|b s]].
    + discriminate.
    + replace (2 * S i)%nat with (S (S (2 * i))) in H0 by lia.
      cbn [nth_error] in H0. destruct (2 * i)%nat; discriminate.
    + replace (2 * S i)%nat with (S (S (2 * i))) in H0 by lia.
      replace (2 * S i + 1)%nat with (S (S (2 * i + 1))) in H1 by lia.
      cbn [nth_error decode_H] in *. apply IH; assumption.
Qed.

Lemma nth_error_decode_f (big : bool) (s : bytes) (i : nat) (b0 b1 b2 b3 : byte) :
  nth_error s (4 * i) = Some b0 -> nth_error s (4 * i + 1) = Some b1 ->
  nth_error s (4 * i + 2) = Some b2 -> nth_error s (4 * i + 3) = Some b3 ->
  nth_error (decode_f big s) i
  = Some (float_of_bits32 (bits32 big b0 b1 b2 b3)).
Proof.
  revert s; induction i as [|i IH]; intros s H0 H1 H2 H3.
  - destruct s as [|a [|b [|c [|d s]]]]; try discriminate.
    cbn in H0, H1, H2, H3.
    injection H0 as ->. injection H1 as ->. injection H2 as ->. injection H3 as ->.
    reflexivity.
  - replace (4 * S i)%nat with (S (S (S (S (4 * i))))) in H0 by lia.
    replace (4 * S i + 1)%nat with (S (S (S (S (4 * i + 1))))) in H1 by lia.
    replace (4 * S i + 2)%nat with (S (S (S (S (4 * i + 2))))) in H2 by lia.
    replace (4 * S i + 3)%nat with (S (S (S (S (4 * i + 3))))) in H3 by lia.
    destruct s as [|a [|b [|c [|d s]]]]; cbn [nth_error] in *; try discriminate.
    cbn [decode_f nth_error]. apply IH; assumption.
Qed.

Lemma byte_val_range (b : byte) : 0 <= byte_val b < 256.
Proof.
  unfold byte_val. pose proof (Byte.to_N_bounded b). lia.
Qed.

Lemma lor_shiftl_8 (hi lo : Z) :
  0 <= hi -> 0 <= lo < 256 -> Z.lor (Z.shiftl hi 8) lo = 256 * hi + lo.
Proof.
  intros Hh Hl. rewrite Z.shiftl_mul_pow2 by lia. change (2 ^ 8) with 256.
  enough (Hland : Z.land (hi * 256) lo = 0)
    by (pose proof (Z.add_lor_land (hi * 256) lo); lia).
  apply Z.bits_inj'. intros k Hk. rewrite Z.land_spec, Z.bits_0.
  destruct (Z_lt_le_dec k 8) as [H8|H8].
  - replace (hi * 256) with (hi * 2 ^ 8) by reflexivity.
    rewrite Z.mul_pow2_bits_low by lia. reflexivity.
  - replace (Z.testbit lo k) with false; [apply andb_false_r|].
    symmetry. destruct (Z.eq_dec lo 0) as [->|]; [apply Z.bits_0|].
    apply Z.bits_above_log2; [lia|].
    apply Z.log2_lt_pow2; [lia|].
    apply Z.lt_le_trans with (2 ^ 8); [lia|]. apply Z.pow_le_mono_r; lia.
Qed.

Lemma nth_error_some_lt (A : Type) (l : list A) (i : nat) :
  (i < length l)%nat -> exists x, nth_error l i = Some x.
Proof.
  intros H. destruct (nth_error l i) as [x|] eqn:E; [eauto|].
  apply nth_error_None in E. lia.
Qed.

End Inversion.

Section ListFacts.

Lemma occurs_at_nth (sub s : bytes) (i : Z) (k : nat) (x : byte) :
  occurs_at sub s i -> nth_error sub k = Some x ->
  nth_error s (Z.to_nat i + k) = Some x.
Proof.
  intros [_ H] Hk.
  assert (Hlt : (k < length sub)%nat) by (apply nth_error_Some; congruence).
  rewrite <- H in Hk. rewrite nth_error_firstn in Hk.
  destruct (Nat.ltb_spec k (length sub)); [|lia].
  rewrite nth_error_skipn in Hk. exact Hk.
Qed.

Lemma occurs_at_byte (s : bytes) (i : Z) (x : byte) :
  0 <= i -> (occurs_at [x] s i <-> nth_error s (Z.to_nat i) = Some x).
Proof.
  intros Hi. unfold occurs_at. cbn [length]. split.
  - intros [_ H]. destruct (skipn (Z.to_nat i) s) as [|y t] eqn:E; [discriminate|].
    cbn in H. injection H as ->.
    rewrite <- (Nat.add_0_r (Z.to_nat i)), <- nth_error_skipn, E. reflexivity.
  - intros H. split; [assumption|].
    rewrite <- (Nat.add_0_r (Z.to_nat i)), <- nth_error_skipn in H.
    destruct (skipn (Z.to_nat i) s) as [|y t]; [discriminate|].
    cbn in H. injection H as ->. reflexivity.
Qed.

Lemma nth_error_combine (A B : Type) (l1 : list A) (l2 : list B) (i : nat) :
  nth_error (combine l1 l2) i
  = match nth_error l1 i, nth_error l2 i with
    | Some a, Some b => Some (a, b)
    | _, _ => None
    end.
Proof.
  revert l2 i; induction l1 as [|a l1 IH]; intros l2 i.
  - destruct i; reflexivity.
  - destruct l2 as [|b l2]; destruct i as [|i]; cbn [combine nth_error];
      try reflexivity.
    + destruct (nth_error l1 i); reflexivity.
    + apply IH.
Qed.

Lemma combine_unzip (A B : Type) (l1 : list A) (l2 : list B) :
  length l1 = length l2 ->
  map fst (combine l1 l2) = l1 /\ map snd (combine l1 l2) = l2.
Proof.
  revert l2; induction l1 as [|a l1 IH]; intros [|b l2] H; try discriminate.
  - split; reflexivity.
  - cbn [length] in H. destruct (IH l2 ltac:(lia)) as [E1 E2].
    cbn [combine map fst snd]. rewrite E1, E2. split; reflexivity.
Qed.

Lemma forallb_filter_length (A : Type) (f : A -> bool) (l : list A) :
  forallb f l = true -> length (filter f l) = length l.
Proof.
  induction l as [|x l IH]; cbn [forallb filter]; [reflexivity|].
  intros H. apply andb_prop in H as [Hx Hl]. rewrite Hx. cbn [length].
  f_equal. apply IH. exact Hl.
Qed.

Lemma filter_short_exists (A : Type) (f : A -> bool) (l : list A) :
  (length (filter f l) < length l)%nat -> exists x, In x l /\ f x = false.
Proof.
  induction l as [|x l IH]; cbn [filter length]; [lia|].
  destruct (f x) eqn:E; cbn [length]; intros H.
  - destruct IH as (y & Hy & Hf); [lia|]. exists y. split; [right|]; assumption.
  - exists x. split; [left; reflexivity|exact E].
Qed.

Lemma filter_nonempty_exists (A : Type) (f : A -> bool) (l : list A) :
  (0 < length (filter f l))%nat -> exists x, In x l /\ f x = true.
Proof.
  intros H. destruct (filter f l) as [|x t] eqn:E; [cbn in H; lia|].
  assert (Hin : In x (filter f l)) by (rewrite E; left; reflexivity).
  apply filter_In in Hin. exists x. exact Hin.
Qed.

End ListFacts.

(** * Header location, the found branches *)

(** X1: when the marker is found it is the first occurrence at or after the
    provisional boundary (an occurrence that starts before the end of the
    [".WAV"] name is not used), the boundary is just after it and inside
    the buffer, and the data region is everything after the marker. *)
Theorem marker_found_boundary (content : bytes) :
  snd (locate_header content) <> -1 ->
  let pat_idx := snd (locate_header content) in
  let header_end := fst (locate_header content) in
  wav_header_end content <= pat_idx
  /\ header_end = pat_idx + 8 /\ header_end <= len content
  /\ firstn 8 (skipn (Z.to_nat pat_idx) content) = pattern
  /\ (forall i, wav_header_end content <= i < pat_idx ->
                ~ occurs_at pattern content i)
  /\ py_slice_from content header_end = skipn (Z.to_nat (pat_idx + 8)) content.
Proof.
  intros Hp pat_idx header_end.
  destruct (locate_header_found content Hp) as (H1 & H2 & H3).
  fold pat_idx header_end in H1, H2, H3.
  pose proof (wav_header_end_range content) as [Hw0 _].
  assert (Hf : bytes_find content pattern (wav_header_end content) <> -1)
    by (rewrite <- locate_header_pat_idx; exact Hp).
  destruct (bytes_find_found content pattern Hw0 Hf) as (_ & _ & [_ Ho] & Hmin).
  rewrite <- locate_header_pat_idx in Ho, Hmin. fold pat_idx in Ho, Hmin.
  repeat split; try assumption.
  unfold py_slice_from, slice_index.
  destruct (Z.ltb_spec header_end 0); [lia|].
  rewrite Z.min_l by lia. rewrite H2. reflexivity.
Qed.

Lemma marker_found_boundary_witness :
  let content := repeat "A"%byte 3 ++ pattern ++ data_1_2 in
  snd (locate_header content) <> -1
  /\ firstn 8 (skipn (Z.to_nat (snd (locate_header content))) content) = pattern.
Proof.
  split; [vm_compute; discriminate|].
  apply (@marker_found_boundary (repeat "A"%byte 3 ++ pattern ++ data_1_2)).
  vm_compute; discriminate.
Defined.

(** X2: when [".WAV"] is found at [idx] and a null byte follows it, the
    provisional boundary is one past the first null byte at or after [idx];
    that null byte lies at least 4 bytes after [idx], the bytes of [".WAV"]
    not being null. *)
Theorem wav_header_end_found (content : bytes) :
  bytes_find content WAV 0 <> -1 ->
  bytes_find content [x00] (bytes_find content WAV 0) <> -1 ->
  let idx := bytes_find content WAV 0 in
  let null_pos := bytes_find content [x00] idx in
  wav_header_end content = null_pos + 1
  /\ idx + 4 <= null_pos < len content
  /\ nth_error content (Z.to_nat null_pos) = Some x00
  /\ (forall i, idx <= i < null_pos -> nth_error content (Z.to_nat i) <> Some x00).
Proof.
  intros Hi Hn idx null_pos.
  destruct (bytes_find_found content WAV (Z.le_refl 0) Hi) as (Hi0 & _ & Hw & _).
  fold idx in Hi0, Hw.
  destruct (bytes_find_found content [x00] Hi0 Hn) as (H1 & H2 & Ho & Hmin).
  fold null_pos in H1, H2, Ho, Hmin. change (len [x00]) with 1 in H2.
  assert (Hnull : nth_error content (Z.to_nat null_pos) = Some x00)
    by (apply occurs_at_byte; [lia|exact Ho]).
  split.
  { unfold wav_header_end. fold idx.
    destruct (Z.eqb_spec idx (-1)); [contradiction|]. cbn [negb]. fold null_pos.
    destruct (Z.eqb_spec null_pos (-1)); [contradiction|]. reflexivity. }
  split.
  { split; [|lia].
    destruct (Z_le_gt_dec (idx + 4) null_pos) as [|Hlt]; [assumption|exfalso].
    assert (Hk : exists k : nat, (k < 4)%nat
                   /\ Z.to_nat null_pos = (Z.to_nat idx + k)%nat).
    { exists (Z.to_nat (null_pos - idx)). lia. }
    destruct Hk as (k & Hk & Ek). rewrite Ek in Hnull.
    destruct k as [|[|[|[|k]]]]; try lia.
    - rewrite (@occurs_at_nth WAV content idx 0%nat "."%byte Hw eq_refl) in Hnull.
      discriminate.
    - rewrite (@occurs_at_nth WAV content idx 1%nat "W"%byte Hw eq_refl) in Hnull.
      discriminate.
    - rewrite (@occurs_at_nth WAV content idx 2%nat "A"%byte Hw eq_refl) in Hnull.
      discriminate.
    - rewrite (@occurs_at_nth WAV content idx 3%nat "V"%byte Hw eq_refl) in Hnull.
      discriminate. }
  split; [exact Hnull|].
  intros i Hi' Hx. apply (Hmin i Hi'). apply occurs_at_byte; [lia|exact Hx].
Qed.

Lemma wav_header_end_found_witness :
  let content := repeat "A"%byte 2 ++ WAV ++ [x00; x00] in
  bytes_find content WAV 0 <> -1
  /\ bytes_find content [x00] (bytes_find content WAV 0) <> -1
  /\ wav_header_end content = 7.
Proof.
  split; [vm_compute; discriminate|]. split; [vm_compute; discriminate|].
  apply (@wav_header_end_found (repeat "A"%byte 2 ++ WAV ++ [x00; x00]));
    vm_compute; discriminate.
Defined.

(** X3: a buffer shorter than 8 bytes, or of at most 100 bytes without the
    marker after its header name, decodes to no rows at all, whatever it
    contains: the region is empty and the format is [bytes]. *)
Theorem short_buffer_no_rows (content : bytes) :
  len content < 8 \/ (snd (locate_header content) = -1 /\ len content <= 100) ->
  process_spectro_file content
  = Ok {| sp_type := raw_bytes;
          sp_header_end := Z.max (wav_header_end content) 100;
          sp_pat_idx := -1;
          sp_count := 0;
          sp_wavelengths := [];
          sp_values := [];
          sp_rows := [] |}.
Proof.
  intros H.
  pose proof (wav_header_end_range content) as [Hw0 Hw1].
  assert (Hp : snd (locate_header content) = -1 /\ len content <= 100).
  { destruct H as [H8|H]; [|exact H]. split; [|lia].
    rewrite locate_header_pat_idx.
    destruct (bytes_find_range content pattern Hw0) as [E|[Hr0 Hr]]; [exact E|].
    change (len pattern) with 8 in Hr. lia. }
  destruct Hp as [Hp Hl].
  pose proof (locate_header_not_found content Hp) as Hh.
  unfold process_spectro_file.
  destruct (locate_header content) as [h p] eqn:EL. cbn [fst snd] in Hp, Hh.
  subst h p.
  assert (Hs : py_slice_from content (Z.max (wav_header_end content) 100) = []).
  { unfold py_slice_from, slice_index.
    destruct (Z.ltb_spec (Z.max (wav_header_end content) 100) 0); [lia|].
    apply skipn_all2. unfold len in *. lia. }
  rewrite Hs. reflexivity.
Qed.

Lemma short_buffer_no_rows_witness :
  let content := WAV ++ [x00; x01; x02] in
  (len content < 8 \/ (snd (locate_header content) = -1 /\ len content <= 100))
  /\ exists sp, process_spectro_file content = Ok sp /\ sp_rows sp = [].
Proof.
  split; [left; reflexivity|].
  eexists. split.
  - apply (@short_buffer_no_rows (WAV ++ [x00; x01; x02])). left. reflexivity.
  - reflexivity.
Defined.

Section Values.

Lemma decode_data_count (data_bytes : bytes) (t : data_type) (n : Z)
      (values : list pynum) :
  decode_data data_bytes = Ok (t, n, values) -> len values = n /\ 0 <= n.
Proof.
  intros H. pose proof (len_nonneg data_bytes) as Hn.
  apply decode_data_inv in H. unfold len in *.
  destruct t.
  - destruct H as (_ & _ & -> & -> & _). rewrite length_map.
    pose proof (decode_f_len true data_bytes) as E. unfold len in E. rewrite E.
    split; [reflexivity|apply Z.div_pos; lia].
  - destruct H as (_ & _ & -> & -> & _). rewrite length_map.
    pose proof (decode_f_len false data_bytes) as E. unfold len in E. rewrite E.
    split; [reflexivity|apply Z.div_pos; lia].
  - destruct H as (_ & _ & -> & ->). rewrite length_map.
    pose proof (decode_H_len data_bytes) as E. unfold len in E. rewrite E.
    split; [reflexivity|apply Z.div_pos; lia].
  - destruct H as (_ & -> & ->). rewrite length_map. split; [reflexivity|lia].
Qed.

Lemma exact_div (n k q : Z) : 0 < k -> n mod k = 0 -> q = n / k -> n = k * q.
Proof.
  intros Hk Hm ->. pose proof (Z.div_mod n k ltac:(lia)). lia.
Qed.

End Values.

(** * The decoded values *)

(** X4: for the [int16] and [bytes] formats the wavelength column is the
    sample index: row [i] is [(i, values[i])]. *)
Theorem index_axis (content : bytes) (sp : spectrum) :
  process_spectro_file content = Ok sp ->
  is_float32 (sp_type sp) = false ->
  sp_wavelengths sp = map PyInt (py_range (sp_count sp))
  /\ forall (i : nat) (v : pynum),
       nth_error (sp_values sp) i = Some v ->
       nth_error (sp_rows sp) i = Some (PyInt (Z.of_nat i), v).
Proof.
  intros H Hf.
  destruct (@process_spectro_file_inv content sp H) as (_ & _ & Hd & Hw & Hr).
  unfold wavelength_axis in Hw. rewrite Hf in Hw. apply Ok_inj in Hw.
  split; [symmetry; exact Hw|].
  intros i v Hv. rewrite Hr, nth_error_combine, Hv, <- Hw, nth_error_map.
  pose proof Hd as Hc; apply decode_data_count in Hc; destruct Hc as [Hl _].
  assert (Hi : (i < length (sp_values sp))%nat) by (apply nth_error_Some; congruence).
  rewrite nth_error_py_range by (unfold len in Hl; lia). reflexivity.
Qed.

Lemma index_axis_witness :
  exists sp,
    process_spectro_file (repeat x00 100 ++ [x01; x02; x03; x04; x05; x06]) = Ok sp
    /\ sp_wavelengths sp = map PyInt (py_range (sp_count sp)).
Proof.
  eexists. split; [vm_compute; reflexivity|].
  eapply (@index_axis (repeat x00 100 ++ [x01; x02; x03; x04; x05; x06]));
    vm_compute; reflexivity.
Defined.

(** X5: in the [int16] format the data region has exactly two bytes per
    sample, and sample [i] is the unsigned little-endian value of bytes [2i]
    and [2i+1] of the region, between 0 and 65535. *)
Theorem int16_values (content : bytes) (sp : spectrum) :
  process_spectro_file content = Ok sp ->
  sp_type sp = int16 ->
  let data_bytes := py_slice_from content (sp_header_end sp) in
  len data_bytes = 2 * sp_count sp
  /\ forall i : nat, Z.of_nat i < sp_count sp ->
       exists b0 b1,
         nth_error data_bytes (2 * i) = Some b0
         /\ nth_error data_bytes (2 * i + 1) = Some b1
         /\ nth_error (sp_values sp) i
            = Some (PyInt (byte_val b0 + 256 * byte_val b1))
         /\ 0 <= byte_val b0 + 256 * byte_val b1 <= 65535.
Proof.
  intros H Ht data_bytes.
  destruct (@process_spectro_file_inv content sp H) as (_ & _ & Hd & _).
  fold data_bytes in Hd. apply decode_data_inv in Hd. rewrite Ht in Hd.
  destruct Hd as (_ & H2 & Hn & Hv).
  assert (Hl : len data_bytes = 2 * sp_count sp)
    by (apply exact_div; [lia|assumption|assumption]).
  split; [exact Hl|].
  intros i Hi. unfold len in Hl.
  destruct (@nth_error_some_lt _ data_bytes (2 * i)) as [b0 E0]; [lia|].
  destruct (@nth_error_some_lt _ data_bytes (2 * i + 1)) as [b1 E1]; [lia|].
  exists b0, b1.
  pose proof (byte_val_range b0). pose proof (byte_val_range b1).
  repeat split; try assumption; try lia.
  rewrite Hv, nth_error_map, (@nth_error_decode_H data_bytes i b0 b1 E0 E1).
  cbn [option_map]. rewrite lor_shiftl_8 by lia. do 2 f_equal. lia.
Qed.

Lemma int16_values_witness :
  exists sp,
    process_spectro_file (repeat x00 100 ++ [x01; x02; x03; x04; x05; x06]) = Ok sp
    /\ len (py_slice_from (repeat x00 100 ++ [x01; x02; x03; x04; x05; x06])
                          (sp_header_end sp)) = 2 * sp_count sp.
Proof.
  eexists. split; [vm_compute; reflexivity|].
  eapply (@int16_values (repeat x00 100 ++ [x01; x02; x03; x04; x05; x06]));
    vm_compute; reflexivity.
Defined.

(** X6: in the [bytes] format the data region is empty or of odd length,
    every byte of it is one sample, and sample [i] is the unsigned value of
    byte [i], between 0 and 255. *)
Theorem raw_bytes_values (content : bytes) (sp : spectrum) :
  process_spectro_file content = Ok sp ->
  sp_type sp = raw_bytes ->
  let data_bytes := py_slice_from content (sp_header_end sp) in
  (len data_bytes mod 2 = 1 \/ len data_bytes = 0)
  /\ sp_count sp = len data_bytes
  /\ forall (i : nat) (b : byte), nth_error data_bytes i = Some b ->
       nth_error (sp_values sp) i = Some (PyInt (byte_val b))
       /\ 0 <= byte_val b <= 255.
Proof.
  intros H Ht data_bytes.
  destruct (@process_spectro_file_inv content sp H) as (_ & _ & Hd & _).
  fold data_bytes in Hd. apply decode_data_inv in Hd. rewrite Ht in Hd.
  destruct Hd as (Hodd & Hn & Hv).
  split.
  { destruct Hodd as [Hodd|]; [left|right; assumption].
    pose proof (Z.mod_pos_bound (len data_bytes) 2 ltac:(lia)). lia. }
  split; [exact Hn|].
  intros i b Hb. pose proof (byte_val_range b).
  split; [|lia]. rewrite Hv, nth_error_map, Hb. reflexivity.
Qed.

Lemma raw_bytes_values_witness :
  exists sp,
    process_spectro_file (repeat x00 100 ++ [x01; x02; x03]) = Ok sp
    /\ sp_count sp = 3.
Proof.
  eexists. split; [vm_compute; reflexivity|].
  eapply (@raw_bytes_values (repeat x00 100 ++ [x01; x02; x03]));
    vm_compute; reflexivity.
Defined.

(** X7: in a [float32] format the data region has exactly four bytes per
    sample, there is at least one sample, and sample [i] is the binary32
    number held in bytes [4i..4i+3] of the region, in the byte order of the
    format, unchanged. *)
Theorem float32_values (content : bytes) (sp : spectrum) :
  process_spectro_file content = Ok sp ->
  is_float32 (sp_type sp) = true ->
  let data_bytes := py_slice_from content (sp_header_end sp) in
  let big := match sp_type sp with float32_be => true | _ => false end in
  len data_bytes = 4 * sp_count sp /\ 0 < sp_count sp
  /\ forall i : nat, Z.of_nat i < sp_count sp ->
       exists b0 b1 b2 b3,
         nth_error data_bytes (4 * i) = Some b0
         /\ nth_error data_bytes (4 * i + 1) = Some b1
         /\ nth_error data_bytes (4 * i + 2) = Some b2
         /\ nth_error data_bytes (4 * i + 3) = Some b3
         /\ nth_error (sp_values sp) i
            = Some (PyFloat (float_of_bits32 (bits32 big b0 b1 b2 b3))).
Proof.
  intros H Ht data_bytes big.
  destruct (@process_spectro_file_inv content sp H) as (_ & _ & Hd & _).
  fold data_bytes in Hd. apply decode_data_inv in Hd.
  assert (Hc : len data_bytes mod 4 = 0 /\ 0 < len data_bytes
               /\ sp_count sp = len data_bytes / 4
               /\ sp_values sp = map PyFloat (decode_f big data_bytes)).
  { subst big. destruct (sp_type sp); try discriminate;
      destruct Hd as (? & ? & ? & ? & _); auto. }
  clear Hd. destruct Hc as (H4 & H0 & Hn & Hv).
  assert (Hl : len data_bytes = 4 * sp_count sp)
    by (apply exact_div; [lia|assumption|assumption]).
  split; [exact Hl|]. split; [lia|].
  intros i Hi. unfold len in Hl.
  destruct (@nth_error_some_lt _ data_bytes (4 * i)) as [b0 E0]; [lia|].
  destruct (@nth_error_some_lt _ data_bytes (4 * i + 1)) as [b1 E1]; [lia|].
  destruct (@nth_error_some_lt _ data_bytes (4 * i + 2)) as [b2 E2]; [lia|].
  destruct (@nth_error_some_lt _ data_bytes (4 * i + 3)) as [b3 E3]; [lia|].
  exists b0, b1, b2, b3. repeat split; try assumption.
  rewrite Hv, nth_error_map, (@nth_error_decode_f big data_bytes i b0 b1 b2 b3 E0 E1 E2 E3).
  reflexivity.
Qed.

Lemma float32_values_witness :
  exists sp,
    process_spectro_file (repeat x00 100 ++ data_1_2) = Ok sp
    /\ len (py_slice_from (repeat x00 100 ++ data_1_2) (sp_header_end sp))
       = 4 * sp_count sp.
Proof.
  eexists. split; [vm_compute; reflexivity|].
  eapply (@float32_values (repeat x00 100 ++ data_1_2)); vm_compute; reflexivity.
Defined.

(** X8: the rows pair the wavelengths with the values and lose neither:
    both columns have one entry per sample, the first column of the rows is
    the wavelength list and the second is the value list. *)
Theorem rows_unzip (content : bytes) (sp : spectrum) :
  process_spectro_file content = Ok sp ->
  len (sp_wavelengths sp) = sp_count sp
  /\ len (sp_values sp) = sp_count sp
  /\ map fst (sp_rows sp) = sp_wavelengths sp
  /\ map snd (sp_rows sp) = sp_values sp.
Proof.
  intros H.
  destruct (@process_spectro_file_inv content sp H) as (_ & _ & Hd & Hw & Hr).
  pose proof Hd as Hc; apply decode_data_count in Hc; destruct Hc as [Hl Hn].
  apply wavelength_axis_length in Hw. rewrite Z.max_l in Hw by lia.
  split; [exact Hw|]. split; [exact Hl|].
  rewrite Hr. apply combine_unzip. unfold len in *. lia.
Qed.

Lemma rows_unzip_witness :
  exists sp,
    process_spectro_file (repeat x00 100 ++ data_1_2) = Ok sp
    /\ map snd (sp_rows sp) = sp_values sp.
Proof.
  eexists. split; [vm_compute; reflexivity|].
  eapply (@rows_unzip (repeat x00 100 ++ data_1_2)). vm_compute. reflexivity.
Defined.

(** * Consequences of the endianness rule *)

(** X9: when every big-endian value of a float32 region passes the
    plausibility test, the region is decoded big-endian, whatever the
    little-endian reading looks like. *)
Theorem all_plausible_big_endian (data_bytes : bytes) :
  len data_bytes mod 4 = 0 -> 0 < len data_bytes ->
  forallb plausible (decode_f true data_bytes) = true ->
  decode_data data_bytes
  = Ok (float32_be, len data_bytes / 4, map PyFloat (decode_f true data_bytes)).
Proof.
  intros H4 H0 Hall. rewrite decode_data_float by assumption.
  rewrite <- !score_float_array_spec.
  destruct (Z.leb_spec (score_float_array (decode_f false data_bytes))
                       (score_float_array (decode_f true data_bytes)))
    as [|Hlt]; [reflexivity|exfalso].
  rewrite !score_float_array_spec in Hlt. unfold plausibility_score in Hlt.
  assert (E : filter in_range (decode_f true data_bytes)
              = filter plausible (decode_f true data_bytes)).
  { apply filter_ext. intros x. symmetry. apply plausible_in_range. }
  rewrite E in Hlt. clear E.
  pose proof Hall as Hfl; apply forallb_filter_length in Hfl.
  pose proof (filter_length_le in_range (decode_f false data_bytes)) as Hle.
  pose proof (decode_f_len true data_bytes) as E1.
  pose proof (decode_f_len false data_bytes) as E2.
  unfold len in *. lia.
Qed.

Lemma all_plausible_big_endian_witness :
  decode_data data_1_2
  = Ok (float32_be, len data_1_2 / 4, map PyFloat (decode_f true data_1_2)).
Proof.
  apply (@all_plausible_big_endian data_1_2); vm_compute; reflexivity.
Defined.

(** X10: a region is decoded little-endian only if some big-endian value
    fails the plausibility test and some little-endian value passes it. *)
Theorem little_endian_only_if (data_bytes : bytes) (n : Z) (values : list pynum) :
  decode_data data_bytes = Ok (float32_le, n, values) ->
  (exists x, In x (decode_f true data_bytes) /\ plausible x = false)
  /\ (exists y, In y (decode_f false data_bytes) /\ plausible y = true).
Proof.
  intros H. apply decode_data_inv in H. destruct H as (_ & _ & _ & _ & Hlt).
  unfold plausibility_score in Hlt.
  assert (E : forall l, filter in_range l = filter plausible l).
  { intros l. apply filter_ext. intros x. symmetry. apply plausible_in_range. }
  rewrite !E in Hlt.
  pose proof (filter_length_le plausible (decode_f false data_bytes)) as Hle.
  pose proof (decode_f_len true data_bytes) as E1.
  pose proof (decode_f_len false data_bytes) as E2.
  unfold len in *. split.
  - apply filter_short_exists. lia.
  - apply filter_nonempty_exists. lia.
Qed.

Lemma little_endian_only_if_witness :
  exists y, In y (decode_f false [x7f; x80; x00; x00])
            /\ plausible y = true.
Proof.
  refine (proj2 (@little_endian_only_if [x7f; x80; x00; x00]
                   1 (map PyFloat (decode_f false
                        [x7f; x80; x00; x00])) _)).
  vm_compute. reflexivity.
Defined.

Section ExactOperations.

Lemma eqb_refl_finite (x : float) : F64.is_finite x = true -> F64.eqb x x = true.
Proof.
  destruct x as [s|s| |s m e]; try discriminate; intros _.
  - reflexivity.
  - unfold F64.eqb, SFeqb. cbn [SFcompare].
    rewrite Z.compare_refl, Pos.compare_cont_refl. destruct s; reflexivity.
Qed.

Lemma eqb_zero_zero (s s' : bool) : F64.eqb (S754_zero s) (S754_zero s') = true.
Proof. reflexivity. Qed.

(** [x + 0.0 == x], whatever the sign of the zero. *)
Lemma add_zero_eqb (x : float) (s : bool) :
  F64.is_finite x = true -> F64.eqb (F64.add x (S754_zero s)) x = true.
Proof.
  destruct x as [sx|sx| |sx m e]; try discriminate; intros _.
  - destruct sx, s; reflexivity.
  - unfold F64.add. cbn [SFadd]. apply eqb_refl_finite. reflexivity.
Qed.

Lemma mul_zero_r (x : float) (s : bool) :
  F64.is_finite x = true ->
  F64.mul x (S754_zero s) = S754_zero (xorb (Fsign x) s).
Proof. destruct x; try discriminate; reflexivity. Qed.

Lemma mul_zero_l (x : float) (s : bool) :
  F64.is_finite x = true ->
  F64.mul (S754_zero s) x = S754_zero (xorb s (Fsign x)).
Proof. destruct x; try discriminate; reflexivity. Qed.

Lemma finite_V_zero (x : float) :
  F64.is_finite x = true -> valid64 x = true -> V x = 0 ->
  exists s, x = S754_zero s.
Proof.
  destruct x as [s|s| |s m e]; try discriminate; intros _ Hv H0.
  - exists s. reflexivity.
  - exfalso. apply valid_finite_inv in Hv as (_ & B & _).
    assert (0 < 2 ^ (e + 1074)) by (apply pow2_pos; lia).
    unfold V, Fnum in H0. destruct s; cbn [cond_Zopp] in H0; nia.
Qed.

Lemma SFdiv_core_binary_self (m : positive) (e : Z) :
  SFdiv_core_binary F64.prec F64.emax (Zpos m) e (Zpos m) e
  = (2 ^ 53, -53, loc_Exact).
Proof.
  unfold SFdiv_core_binary. rewrite fexp_eq.
  replace (Zdigits2 (Z.pos m) + e - (Zdigits2 (Z.pos m) + e)) with 0 by lia.
  replace (e - e) with 0 by lia.
  change (Z.min (fexp64 0) 0) with (-53).
  change (0 - -53) with 53. cbv iota.
  rewrite Z.shiftl_mul_pow2 by lia.
  assert (E : Z.div_eucl (Z.pos m * 2 ^ 53) (Z.pos m) = (2 ^ 53, 0)).
  { pose proof (Z.div_eucl_eq (Z.pos m * 2 ^ 53) (Z.pos m) ltac:(lia)) as Hq.
    pose proof (Z.mod_pos_bound (Z.pos m * 2 ^ 53) (Z.pos m) ltac:(lia)) as Hr.
    unfold Z.modulo in Hr.
    destruct (Z.div_eucl (Z.pos m * 2 ^ 53) (Z.pos m)) as [q r].
    assert (Hqq : q = 2 ^ 53) by nia. subst q. f_equal. lia. }
  rewrite E. unfold new_location.
  destruct (Z.even (Z.pos m)); reflexivity.
Qed.

(** [x / x] is exactly [1.0] for every finite non-zero [x]. *)
Lemma div_self (s : bool) (m : positive) (e : Z) :
  F64.div (S754_finite s m e) (S754_finite s m e) = one_f64.
Proof.
  unfold F64.div. cbn [SFdiv]. rewrite SFdiv_core_binary_self.
  rewrite xorb_nilpotent. vm_compute. reflexivity.
Qed.

(** [x * 1.0] is exactly [x]. *)
Lemma mul_one (s : bool) (m : positive) (e : Z) :
  valid64 (S754_finite s m e) = true -> e <= 970 ->
  F64.mul (S754_finite s m e) one_f64 = S754_finite s m e.
Proof.
  intros Hv He. apply valid_finite_inv in Hv as (C & B & D).
  unfold F64.mul, one_f64. cbn [SFmul]. rewrite xorb_false_r.
  change (Z.pos (m * 4503599627370496)) with (Z.pos m * 2 ^ 52).
  assert (Hd : Zdigits2 (Z.pos m * 2 ^ 52) + (e + -52) = Zdigits2 (Z.pos m) + e)
    by (rewrite Zdigits2_mul_pow2 by lia; lia).
  destruct (@binary_round_aux_pack s (Z.pos m * 2 ^ 52) (e + -52) loc_Exact)
    as (q & Hr & _ & Hq); [lia|rewrite Hd, C; lia|].
  rewrite Hd, C in Hr, Hq. rewrite Hr.
  replace (e - (e + -52)) with 52 in Hq by lia.
  rewrite rne_exact in Hq by lia. rewrite (Hq eq_refl).
  pose proof (@Zdigits2_bounds (Z.pos m) ltac:(lia)) as [_ Hhi].
  assert (Z.pos m < 2 ^ 53).
  { apply Z.lt_le_trans with (2 ^ Zdigits2 (Z.pos m)); [assumption|].
    apply Z.pow_le_mono_r; lia. }
  destruct (@pack_cases s (Z.pos m) e) as [[H0 _]|[(_ & _ & E)|[H0 _]]];
    try lia.
  exact E.
Qed.

Lemma float_of_Z_0 : float_of_Z 0 = F64.zero.
Proof. reflexivity. Qed.

(** [float(i)] for an index: [0.0], or a finite positive number below
    the exponent bound of [mul_one]. *)
Lemma float_of_Z_index (i : Z) :
  0 < i <= PY_SSIZE_T_MAX ->
  exists m e, float_of_Z i = S754_finite false m e
              /\ valid64 (S754_finite false m e) = true /\ e <= 970.
Proof.
  intros Hi.
  destruct (@float_of_int_ssize i ltac:(lia)) as (f & Ef & Hfin & Hv & _ & Hs & Hm).
  rewrite float_of_int_eq in Ef by lia. apply Ok_inj in Ef.
  pose proof (@float_of_int_pos i f Hi) as Hp.
  rewrite float_of_int_eq in Hp by lia. rewrite Ef in Hp.
  destruct (Hp eq_refl) as [Hz _].
  rewrite Ef. destruct f as [s0|s0| |s0 m e]; try discriminate.
  cbn [Fsign] in Hs. subst s0. exists m, e. split; [reflexivity|].
  split; [assumption|].
  apply valid_finite_inv in Hv as (C & _ & _). cbn [Fmag] in Hm.
  unfold fexp64 in C. lia.
Qed.

(** The default axis, entry by entry: [0.0 + float(i) * 1.0 = float(i)]. *)
Lemma default_wavelength (n i : Z) :
  1 <= n <= PY_SSIZE_T_MAX -> 0 <= i < n ->
  spec_wavelength F64.zero (spec_step F64.zero (float_of_Z (n - 1)) n) i
  = float_of_Z i.
Proof.
  intros Hn Hi. unfold spec_wavelength, spec_step.
  destruct (Z.ltb_spec 1 n) as [H1|H1].
  - destruct (@float_of_Z_index (n - 1) ltac:(lia)) as (m & e & -> & _ & _).
    assert (Es : F64.sub (S754_finite false m e) F64.zero = S754_finite false m e)
      by reflexivity.
    rewrite Es, div_self.
    destruct (Z.eq_dec i 0) as [->|Hi0]; [reflexivity|].
    destruct (@float_of_Z_index i ltac:(lia)) as (mi & ei & -> & Hv & He).
    rewrite mul_one by assumption. reflexivity.
  - assert (i = 0) by lia. subst i. reflexivity.
Qed.

End ExactOperations.

Section FloatAxis.

Variable content : bytes.
Variable sp : spectrum.
Hypothesis Hlen : len content <= PY_SSIZE_T_MAX.
Hypothesis Hrun : process_spectro_file content = Ok sp.
Hypothesis Hfloat : is_float32 (sp_type sp) = true.

Lemma float_axis_count : 1 <= sp_count sp <= PY_SSIZE_T_MAX.
Proof using Hlen Hrun Hfloat.
  destruct (@process_spectro_file_inv content sp Hrun) as (Hh & _ & Hd & _).
  apply decode_data_inv in Hd.
  set (data_bytes := py_slice_from content (sp_header_end sp)) in *.
  assert (Hc : len data_bytes mod 4 = 0 /\ 0 < len data_bytes
               /\ sp_count sp = len data_bytes / 4).
  { destruct (sp_type sp); try discriminate;
      destruct Hd as (? & ? & ? & _); auto. }
  destruct Hc as (H4 & H0 & Hn).
  pose proof (Z.div_mod (len data_bytes) 4 ltac:(lia)).
  assert (len data_bytes <= len content).
  { unfold data_bytes, py_slice_from, len. rewrite length_skipn. lia. }
  lia.
Qed.

Lemma float_axis_inv :
  exists start_wl end_wl,
    (read_axis_range content (sp_pat_idx sp) = Ok (Some (start_wl, end_wl))
     \/ (read_axis_range content (sp_pat_idx sp) = Ok None
         /\ start_wl = F64.zero /\ end_wl = float_of_Z (sp_count sp - 1)))
    /\ sp_wavelengths sp
       = map (fun i => PyFloat (spec_wavelength start_wl
                                  (spec_step start_wl end_wl (sp_count sp)) i))
             (py_range (sp_count sp)).
Proof using Hlen Hrun Hfloat.
  pose proof float_axis_count as Hn.
  destruct (@process_spectro_file_inv content sp Hrun) as (_ & _ & _ & Hw & _).
  destruct (@axis_range_total content (sp_pat_idx sp) (sp_count sp) Hn)
    as (start_wl & end_wl & Ha & Hr).
  exists start_wl, end_wl. split; [exact Hr|].
  rewrite (@wavelength_axis_float content (sp_type sp) (sp_pat_idx sp)
             (sp_count sp) start_wl end_wl Hfloat Hn Ha) in Hw.
  apply Ok_inj in Hw. symmetry. exact Hw.
Qed.

Lemma first_wavelength (start_wl end_wl : float) :
  sp_wavelengths sp
  = map (fun i => PyFloat (spec_wavelength start_wl
                             (spec_step start_wl end_wl (sp_count sp)) i))
        (py_range (sp_count sp)) ->
  nth_error (sp_wavelengths sp) 0
  = Some (PyFloat (spec_wavelength start_wl
                     (spec_step start_wl end_wl (sp_count sp)) 0)).
Proof using Hlen Hrun Hfloat.
  intros ->. pose proof float_axis_count as Hn.
  rewrite nth_error_map, nth_error_py_range by (cbn; lia). reflexivity.
Qed.

Lemma no_metadata_read :
  sp_pat_idx sp < 8 -> read_axis_range content (sp_pat_idx sp) = Ok None.
Proof using Hrun.
  intros H8.
  destruct (@process_spectro_file_inv content sp Hrun) as (_ & Hp & _).
  destruct (Z.eq_dec (sp_pat_idx sp) (-1)) as [E|Hne].
  - rewrite E. reflexivity.
  - rewrite Hp in Hne.
    destruct (@locate_header_found content Hne) as (H1 & H2 & H3).
    pose proof (wav_header_end_range content) as [Hw0 _].
    rewrite <- Hp in *. apply read_axis_range_short; lia.
Qed.

End FloatAxis.

Section Step.

Lemma step_finite (start_wl end_wl : float) (n : Z) :
  F64.is_finite start_wl = true -> valid64 start_wl = true ->
  F64.is_finite end_wl = true -> valid64 end_wl = true ->
  Fmag start_wl <= 129 -> Fmag end_wl <= 129 ->
  1 <= n <= PY_SSIZE_T_MAX ->
  F64.is_finite (spec_step start_wl end_wl n) = true.
Proof.
  intros Fs Vs Fe Ve Bs Be Hn. unfold spec_step.
  destruct (Z.ltb_spec 1 n) as [H1|H1]; [|reflexivity].
  destruct (@sub_V end_wl start_wl 129 Fe Fs Ve Vs Be Bs ltac:(lia))
    as (Fd & Vd & _ & Bd).
  destruct (@float_of_int_ssize (n - 1) ltac:(lia)) as (f & Ef & Ff & Vf & _ & _ & Bf).
  pose proof (@float_of_int_pos (n - 1) f ltac:(lia) Ef) as [Zf Mf].
  rewrite float_of_int_eq in Ef by lia. apply Ok_inj in Ef. rewrite Ef.
  destruct (@div_bound (F64.sub end_wl start_wl) f Fd Ff Vd Vf Zf ltac:(lia))
    as (Fq & _).
  exact Fq.
Qed.

Lemma step_zero (start_wl end_wl : float) (n : Z) :
  F64.is_finite start_wl = true -> valid64 start_wl = true ->
  F64.is_finite end_wl = true -> valid64 end_wl = true ->
  Fmag start_wl <= 129 -> Fmag end_wl <= 129 ->
  1 <= n <= PY_SSIZE_T_MAX ->
  F64.eqb start_wl end_wl = true ->
  exists s, spec_step start_wl end_wl n = S754_zero s.
Proof.
  intros Fs Vs Fe Ve Bs Be Hn Heq. unfold spec_step.
  destruct (Z.ltb_spec 1 n) as [H1|H1]; [|exists false; reflexivity].
  destruct (@sub_V end_wl start_wl 129 Fe Fs Ve Vs Be Bs ltac:(lia))
    as (Fd & Vd & Ed & _).
  assert (EV : V start_wl = V end_wl).
  { unfold F64.eqb, SFeqb in Heq. rewrite SFcompare_V in Heq by assumption.
    destruct (Z.compare_spec (V start_wl) (V end_wl)); [assumption|discriminate..]. }
  rewrite EV, Z.sub_diag in Ed.
  change (sRND 1074 0) with 0 in Ed.
  destruct (@finite_V_zero (F64.sub end_wl start_wl) Fd Vd Ed) as [s Es].
  rewrite Es.
  destruct (@float_of_Z_index (n - 1) ltac:(lia)) as (m & e & -> & _ & _).
  eexists. reflexivity.
Qed.

Lemma index_finite (i : Z) :
  0 <= i <= PY_SSIZE_T_MAX -> F64.is_finite (float_of_Z i) = true.
Proof.
  intros Hi. destruct (@float_of_int_ssize i Hi) as (f & Ef & Ff & _).
  rewrite float_of_int_eq in Ef by lia. apply Ok_inj in Ef. rewrite Ef. exact Ff.
Qed.

(** With a non-finite endpoint and more than one sample, entry 0 of the
    axis is NaN: the step is infinite or NaN, and [0 * step] is NaN. *)
Lemma nonfinite_first (start_wl end_wl : float) (n : Z) :
  1 < n <= PY_SSIZE_T_MAX ->
  F64.is_finite start_wl && F64.is_finite end_wl = false ->
  spec_wavelength start_wl (spec_step start_wl end_wl n) 0 = S754_nan.
Proof.
  intros Hn Hnf. unfold spec_wavelength, spec_step.
  destruct (Z.ltb_spec 1 n); [|lia].
  destruct (@float_of_Z_index (n - 1) ltac:(lia)) as (m & e & -> & _ & _).
  rewrite float_of_Z_0.
  destruct start_wl as [s|s| |s ms es], end_wl as [s'|s'| |s' me ee];
    try discriminate Hnf; try reflexivity;
    try (destruct s; reflexivity); try (destruct s'; reflexivity);
    destruct s, s'; reflexivity.
Qed.

End Step.

(** * The reconstructed axis *)

(** X11: when a float32 spectrum has no usable axis metadata (no marker, or
    a marker less than 8 bytes into the buffer), the wavelength of sample
    [i] is exactly [float(i)]: the default step [(N-1)/(N-1)] is exactly
    [1.0] and the products and sums are exact. *)
Theorem default_axis_is_index (content : bytes) (sp : spectrum) :
  len content <= PY_SSIZE_T_MAX ->
  process_spectro_file content = Ok sp ->
  is_float32 (sp_type sp) = true ->
  sp_pat_idx sp < 8 ->
  sp_wavelengths sp = map (fun i => PyFloat (float_of_Z i)) (py_range (sp_count sp)).
Proof.
  intros Hlen Hrun Hfloat H8.
  pose proof (@float_axis_count content sp Hlen Hrun Hfloat) as Hn.
  destruct (@float_axis_inv content sp Hlen Hrun Hfloat) as (start_wl & end_wl & Hr & ->).
  rewrite (@no_metadata_read content sp Hrun H8) in Hr.
  destruct Hr as [Hr|(_ & -> & ->)]; [discriminate|].
  apply map_ext_in. intros i Hi. apply In_py_range in Hi.
  rewrite default_wavelength by lia. reflexivity.
Qed.

Lemma default_axis_is_index_witness :
  exists sp,
    process_spectro_file (pattern ++ data_1_2) = Ok sp
    /\ sp_wavelengths sp = map (fun i => PyFloat (float_of_Z i)) (py_range (sp_count sp)).
Proof.
  eexists. split; [vm_compute; reflexivity|].
  apply (@default_axis_is_index (pattern ++ data_1_2)).
  - vm_compute. discriminate.
  - vm_compute. reflexivity.
  - vm_compute. reflexivity.
  - vm_compute. reflexivity.
Defined.

(** X12: when the two endpoints read from the metadata are finite and equal,
    every wavelength equals the start wavelength. *)
Theorem equal_endpoints_constant_axis (content : bytes) (sp : spectrum)
        (start_wl end_wl : float) :
  len content <= PY_SSIZE_T_MAX ->
  process_spectro_file content = Ok sp ->
  is_float32 (sp_type sp) = true ->
  read_axis_range content (sp_pat_idx sp) = Ok (Some (start_wl, end_wl)) ->
  F64.is_finite start_wl = true -> F64.is_finite end_wl = true ->
  F64.eqb start_wl end_wl = true ->
  forall (i : nat) (w : pynum), nth_error (sp_wavelengths sp) i = Some w ->
    exists x, w = PyFloat x /\ F64.eqb x start_wl = true.
Proof.
  intros Hlen Hrun Hfloat Hread Fs Fe Heq i w Hw.
  pose proof (@float_axis_count content sp Hlen Hrun Hfloat) as Hn.
  destruct (@float_axis_inv content sp Hlen Hrun Hfloat) as (s0 & e0 & Hr & Hws).
  rewrite Hread in Hr. destruct Hr as [Hr|[Hr _]]; [|discriminate].
  injection Hr as <- <-.
  destruct (@read_axis_range_some content (sp_pat_idx sp) start_wl end_wl Hread) as (xs & xe & Es & Ee).
  destruct (float_of_bits32_valid xs) as [Vs Bs]. rewrite <- Es in Vs, Bs.
  destruct (float_of_bits32_valid xe) as [Ve Be]. rewrite <- Ee in Ve, Be.
  destruct (@step_zero start_wl end_wl (sp_count sp) Fs Vs Fe Ve Bs Be Hn Heq)
    as [sz Ez].
  rewrite Hws, Ez, nth_error_map in Hw.
  destruct (nth_error (py_range (sp_count sp)) i) as [k|] eqn:Ek; [|discriminate].
  injection Hw as <-.
  apply nth_error_In, In_py_range in Ek.
  eexists. split; [reflexivity|].
  unfold spec_wavelength.
  rewrite mul_zero_r by (apply index_finite; lia).
  apply add_zero_eqb. exact Fs.
Qed.

Lemma equal_endpoints_constant_axis_witness :
  exists sp,
    process_spectro_file ([x43; xc8; x00; x00; x43; xc8; x00; x00]
                            ++ pattern ++ data_1_2) = Ok sp
    /\ exists x, PyFloat (float_of_Z 400) = PyFloat x
                 /\ F64.eqb x (float_of_Z 400) = true.
Proof.
  eexists. split; [vm_compute; reflexivity|].
  eapply (@equal_endpoints_constant_axis
            ([x43; xc8; x00; x00; x43; xc8; x00; x00] ++ pattern ++ data_1_2)
            _ (float_of_Z 400) (float_of_Z 400)) with (i := 1%nat).
  - vm_compute. discriminate.
  - vm_compute. reflexivity.
  - vm_compute. reflexivity.
  - vm_compute. reflexivity.
  - vm_compute. reflexivity.
  - vm_compute. reflexivity.
  - vm_compute. reflexivity.
  - vm_compute. reflexivity.
Defined.

(** X13: with finite endpoints read from the metadata, the first wavelength
    equals the start wavelength. *)
Theorem first_wavelength_is_start (content : bytes) (sp : spectrum)
        (start_wl end_wl : float) :
  len content <= PY_SSIZE_T_MAX ->
  process_spectro_file content = Ok sp ->
  is_float32 (sp_type sp) = true ->
  read_axis_range content (sp_pat_idx sp) = Ok (Some (start_wl, end_wl)) ->
  F64.is_finite start_wl = true -> F64.is_finite end_wl = true ->
  exists x, nth_error (sp_wavelengths sp) 0 = Some (PyFloat x)
            /\ F64.eqb x start_wl = true.
Proof.
  intros Hlen Hrun Hfloat Hread Fs Fe.
  pose proof (@float_axis_count content sp Hlen Hrun Hfloat) as Hn.
  destruct (@float_axis_inv content sp Hlen Hrun Hfloat) as (s0 & e0 & Hr & Hws).
  rewrite Hread in Hr. destruct Hr as [Hr|[Hr _]]; [|discriminate].
  injection Hr as <- <-.
  destruct (@read_axis_range_some content (sp_pat_idx sp) start_wl end_wl Hread) as (xs & xe & Es & Ee).
  destruct (float_of_bits32_valid xs) as [Vs Bs]. rewrite <- Es in Vs, Bs.
  destruct (float_of_bits32_valid xe) as [Ve Be]. rewrite <- Ee in Ve, Be.
  pose proof (@step_finite start_wl end_wl (sp_count sp) Fs Vs Fe Ve Bs Be Hn)
    as Fstep.
  eexists. split; [apply (@first_wavelength content sp Hlen Hrun Hfloat start_wl end_wl Hws)|].
  unfold spec_wavelength. rewrite float_of_Z_0.
  unfold F64.zero. rewrite mul_zero_l by exact Fstep.
  apply add_zero_eqb. exact Fs.
Qed.

Lemma first_wavelength_is_start_witness :
  exists x,
    nth_error [PyFloat (float_of_Z 400); PyFloat (float_of_Z 700)] 0
    = Some (PyFloat x)
    /\ F64.eqb x (float_of_Z 400) = true.
Proof.
  refine (@first_wavelength_is_start (axis_400_700 ++ pattern ++ data_1_2)
            {| sp_type := float32_be; sp_header_end := 16; sp_pat_idx := 8;
               sp_count := 2;
               sp_wavelengths := [PyFloat (float_of_Z 400); PyFloat (float_of_Z 700)];
               sp_values := [PyFloat (float_of_Z 1); PyFloat (float_of_Z 2)];
               sp_rows := [(PyFloat (float_of_Z 400), PyFloat (float_of_Z 1));
                           (PyFloat (float_of_Z 700), PyFloat (float_of_Z 2))] |}
            (float_of_Z 400) (float_of_Z 700) _ _ _ _ _ _).
  - vm_compute. discriminate.
  - vm_compute. reflexivity.
  - vm_compute. reflexivity.
  - vm_compute. reflexivity.
  - vm_compute. reflexivity.
  - vm_compute. reflexivity.
Defined.

(** X14: when an endpoint read from the metadata is infinite or NaN and
    there is more than one sample, the first wavelength is NaN. *)
Theorem nonfinite_endpoint_first_nan (content : bytes) (sp : spectrum)
        (start_wl end_wl : float) :
  len content <= PY_SSIZE_T_MAX ->
  process_spectro_file content = Ok sp ->
  is_float32 (sp_type sp) = true ->
  read_axis_range content (sp_pat_idx sp) = Ok (Some (start_wl, end_wl)) ->
  F64.is_finite start_wl && F64.is_finite end_wl = false ->
  1 < sp_count sp ->
  nth_error (sp_wavelengths sp) 0 = Some (PyFloat S754_nan).
Proof.
  intros Hlen Hrun Hfloat Hread Hnf H1.
  pose proof (@float_axis_count content sp Hlen Hrun Hfloat) as Hn.
  destruct (@float_axis_inv content sp Hlen Hrun Hfloat) as (s0 & e0 & Hr & Hws).
  rewrite Hread in Hr. destruct Hr as [Hr|[Hr _]]; [|discriminate].
  injection Hr as <- <-.
  rewrite (@first_wavelength content sp Hlen Hrun Hfloat start_wl end_wl Hws).
  rewrite nonfinite_first by (assumption || lia). reflexivity.
Qed.

Lemma nonfinite_endpoint_first_nan_witness :
  exists sp,
    process_spectro_file ([x7f; x80; x00; x00; x44; x2f; x00; x00]
                            ++ pattern ++ data_1_2) = Ok sp
    /\ nth_error (sp_wavelengths sp) 0 = Some (PyFloat S754_nan).
Proof.
  eexists. split; [vm_compute; reflexivity|].
  eapply (@nonfinite_endpoint_first_nan
            ([x7f; x80; x00; x00; x44; x2f; x00; x00] ++ pattern ++ data_1_2)
            _ (S754_infinity false) (float_of_Z 700)).
  - vm_compute. discriminate.
  - vm_compute. reflexivity.
  - vm_compute. reflexivity.
  - vm_compute. reflexivity.
  - vm_compute. reflexivity.
  - vm_compute. reflexivity.
Defined.

Section OutputPath.

Lemma rfind_dot_none (s : bytes) :
  ~ In "."%byte s -> rfind_dot s = None.
Proof.
  induction s as [|c s IH]; intros H; [reflexivity|].
  cbn [rfind_dot]. rewrite IH by (intros Hin; apply H; right; exact Hin).
  destruct (Byte.eqb c ".") eqn:E; [|reflexivity].
  apply Byte.byte_dec_bl in E. exfalso. apply H. left. exact E.
Qed.

Lemma rfind_dot_last (p ext : bytes) :
  ~ In "."%byte ext -> rfind_dot (p ++ "."%byte :: ext) = Some (length p).
Proof.
  intros H. induction p as [|c p IH].
  - cbn [app rfind_dot length]. rewrite rfind_dot_none by assumption. reflexivity.
  - cbn [app rfind_dot length]. rewrite IH. reflexivity.
Qed.

Lemma rsplit_dot_head_last (p ext : bytes) :
  ~ In "."%byte ext -> rsplit_dot_head (p ++ "."%byte :: ext) = p.
Proof.
  intros H. unfold rsplit_dot_head. rewrite rfind_dot_last by assumption.
  rewrite firstn_app, Nat.sub_diag, firstn_all. cbn [firstn]. apply app_nil_r.
Qed.

Lemma output_path_last_dot (p ext : bytes) :
  ~ In "."%byte ext -> output_path (p ++ "."%byte :: ext) = p ++ csv_suffix.
Proof.
  intros H. unfold output_path. rewrite rsplit_dot_head_last by assumption.
  reflexivity.
Qed.

Lemma output_path_csv (p : bytes) : output_path (p ++ csv_suffix) = p ++ csv_suffix.
Proof.
  apply (@output_path_last_dot p ["c"; "s"; "v"]%byte).
  intros [H|[H|[H|[]]]]; discriminate H.
Qed.

End OutputPath.

(** * The name of the output file *)

(** X15: the output name is the input name with everything from its last
    ['.'] on replaced by [".csv"], and the input name with [".csv"] appended
    when it has no ['.'].  The last ['.'] is looked for in the whole path,
    not in the file name only. *)
Theorem output_path_extension (p ext : bytes) :
  ~ In "."%byte ext ->
  output_path (p ++ "."%byte :: ext) = p ++ csv_suffix
  /\ output_path ext = ext ++ csv_suffix.
Proof.
  intros H. split.
  - apply output_path_last_dot. exact H.
  - unfold output_path, rsplit_dot_head. rewrite rfind_dot_none by assumption.
    reflexivity.
Qed.

Lemma output_path_extension_witness :
  output_path (["r"; "u"; "n"; "."; "1"; "/"; "a"]%byte ++ "."%byte :: ["s"; "p"]%byte)
  = ["r"; "u"; "n"; "."; "1"; "/"; "a"]%byte ++ csv_suffix
  /\ output_path ["s"; "p"]%byte = ["s"; "p"]%byte ++ csv_suffix.
Proof.
  apply (@output_path_extension ["r"; "u"; "n"; "."; "1"; "/"; "a"]%byte
                                ["s"; "p"]%byte).
  intros [H|[H|[]]]; discriminate H.
Defined.

(** X16: the output name equals the input name exactly when the input name
    ends in [".csv"]; an output name is therefore its own output name. *)
Theorem output_path_fixed (input_path : bytes) :
  (output_path input_path = input_path
   <-> exists p, input_path = p ++ csv_suffix)
  /\ output_path (output_path input_path) = output_path input_path.
Proof.
  split; [split|].
  - intros H. exists (rsplit_dot_head input_path). symmetry. exact H.
  - intros [p ->]. apply output_path_csv.
  - unfold output_path at 2 3. apply output_path_csv.
Qed.

Section Format.

Lemma digit_field (d : Z) : 0 <= d < 10 -> field_byte (digit d) = true.
Proof.
  intros H.
  assert (E : d = 0 \/ d = 1 \/ d = 2 \/ d = 3 \/ d = 4 \/ d = 5 \/ d = 6
              \/ d = 7 \/ d = 8 \/ d = 9) by lia.
  repeat (destruct E as [->|E]; [reflexivity|]). subst d. reflexivity.
Qed.

Lemma bytes_of_uint_field (u : Decimal.uint) :
  forallb field_byte (bytes_of_uint u) = true.
Proof. induction u; cbn [bytes_of_uint forallb]; auto. Qed.

Lemma bytes_of_uint_nonempty (u : Decimal.uint) :
  u <> Decimal.Nil -> bytes_of_uint u <> [].
Proof. destruct u; intros H; try discriminate. contradiction. Qed.

Lemma decimal_field (n : Z) : forallb field_byte (decimal n) = true.
Proof. apply bytes_of_uint_field. Qed.

Lemma decimal_nonempty (n : Z) : decimal n <> [].
Proof.
  unfold decimal. apply bytes_of_uint_nonempty.
  destruct (Z.to_N n) as [|p]; [discriminate|].
  apply DecimalPos.Unsigned.to_uint_nonnil.
Qed.

Lemma fraction_digits_field (p : nat) (q : Z) :
  forallb field_byte (fraction_digits p q) = true.
Proof.
  induction p as [|p IH]; [reflexivity|].
  cbn [fraction_digits forallb]. rewrite IH, andb_true_r.
  apply digit_field. apply Z.mod_pos_bound. lia.
Qed.

Lemma fixed_field (p : nat) (q : Z) :
  forallb field_byte (fixed p q) = true /\ fixed p q <> [].
Proof.
  unfold fixed. split.
  - rewrite forallb_app, decimal_field. destruct p; [reflexivity|].
    cbn [forallb andb]. rewrite fraction_digits_field. reflexivity.
  - intros H. apply app_eq_nil in H as [H _]. exact (@decimal_nonempty _ H).
Qed.

Lemma sign_text_field (s : bool) (t : bytes) :
  forallb field_byte t = true /\ t <> [] ->
  forallb field_byte (sign_text s ++ t) = true /\ sign_text s ++ t <> [].
Proof.
  intros [H1 H2]. split.
  - rewrite forallb_app, H1. destruct s; reflexivity.
  - intros H. apply app_eq_nil in H as [_ H]. contradiction.
Qed.

(** A formatted number holds no comma and no newline, and is not empty. *)
Lemma format_float_field (p : nat) (x : float) :
  forallb field_byte (format_float p x) = true /\ format_float p x <> [].
Proof.
  destruct x as [s|s| |s m e]; cbn [format_float].
  - apply sign_text_field, fixed_field.
  - apply sign_text_field. split; [reflexivity|discriminate].
  - split; [reflexivity|discriminate].
  - apply sign_text_field, fixed_field.
Qed.

Lemma format_f_formattable (p : nat) (x : pynum) :
  formattable x -> format_f p x = Ok (format_float p (as_float x)).
Proof.
  destruct x as [z|f]; intros H; [|reflexivity].
  unfold format_f. cbn [to_float formattable] in *.
  rewrite float_of_int_eq by assumption. reflexivity.
Qed.

Lemma csv_line_formattable (row : pynum * pynum) :
  formattable (fst row) -> formattable (snd row) ->
  csv_line row = Ok (join_fields (csv_fields row)).
Proof.
  intros H1 H2. unfold csv_line.
  rewrite !format_f_formattable by assumption. reflexivity.
Qed.

Lemma csv_text_formattable (rows : list (pynum * pynum)) :
  (forall row, In row rows -> formattable (fst row) /\ formattable (snd row)) ->
  csv_text rows
  = Ok (csv_header ++ concat (map join_fields (map csv_fields rows))).
Proof.
  intros H. unfold csv_text.
  rewrite (@map_result_ok _ _ csv_line (fun row => join_fields (csv_fields row))).
  - cbn [bind]. rewrite map_map. reflexivity.
  - intros row Hin. destruct (H row Hin). apply csv_line_formattable; assumption.
Qed.

End Format.

Section Formattable.

Lemma decode_H_range (s : bytes) (z : Z) :
  In z (decode_H s) -> 0 <= z <= 65535.
Proof.
  intros Hin. apply In_nth_error in Hin as [i Hi].
  assert (Hlt : (i < length (decode_H s))%nat) by (apply nth_error_Some; congruence).
  pose proof (decode_H_len s) as Hl. unfold len in Hl.
  pose proof (Z.div_mod (Z.of_nat (length s)) 2 ltac:(lia)).
  pose proof (Z.mod_pos_bound (Z.of_nat (length s)) 2 ltac:(lia)).
  destruct (@nth_error_some_lt _ s (2 * i)) as [b0 E0]; [lia|].
  destruct (@nth_error_some_lt _ s (2 * i + 1)) as [b1 E1]; [lia|].
  rewrite (@nth_error_decode_H s i b0 b1 E0 E1) in Hi.
  assert (Ez : Z.lor (Z.shiftl (byte_val b1) 8) (byte_val b0) = z) by congruence.
  pose proof (byte_val_range b0). pose proof (byte_val_range b1).
  rewrite <- Ez, lor_shiftl_8 by lia. lia.
Qed.

Lemma values_formattable (data_bytes : bytes) (t : data_type) (n : Z)
      (values : list pynum) (v : pynum) :
  decode_data data_bytes = Ok (t, n, values) -> In v values -> formattable v.
Proof.
  intros H Hin. apply decode_data_inv in H.
  assert (B : 65535 <= PY_SSIZE_T_MAX) by (vm_compute; discriminate).
  destruct t.
  - destruct H as (_ & _ & _ & -> & _). apply in_map_iff in Hin as (f & <- & _).
    exact I.
  - destruct H as (_ & _ & _ & -> & _). apply in_map_iff in Hin as (f & <- & _).
    exact I.
  - destruct H as (_ & _ & _ & ->). apply in_map_iff in Hin as (z & <- & Hz).
    apply decode_H_range in Hz. cbn [formattable]. lia.
  - destruct H as (_ & _ & ->). apply in_map_iff in Hin as (b & <- & _).
    pose proof (byte_val_range b). cbn [formattable]. lia.
Qed.

Lemma wavelengths_formattable (content : bytes) (t : data_type) (pat_idx n : Z)
      (ws : list pynum) (w : pynum) :
  n <= PY_SSIZE_T_MAX ->
  wavelength_axis content t pat_idx n = Ok ws -> In w ws -> formattable w.
Proof.
  intros Hn H Hin. unfold wavelength_axis in H.
  destruct (is_float32 t).
  - destruct (axis_range content pat_idx n) as [se|]; [|discriminate].
    cbn [bind] in H.
    destruct (axis_step (fst se) (snd se) n) as [step|]; [|discriminate].
    cbn [bind] in H.
    assert (G : forall l ys, map_result (wavelength_at (fst se) step) l = Ok ys ->
                             forall y, In y ys -> exists f, y = PyFloat f).
    { induction l as [|i l IH]; intros ys Hys y Hy.
      - apply Ok_inj in Hys. subst ys. destruct Hy.
      - cbn [map_result] in Hys.
        destruct (wavelength_at (fst se) step i) as [y0|] eqn:E0; [|discriminate].
        cbn [bind] in Hys.
        destruct (map_result (wavelength_at (fst se) step) l) as [ys0|];
          [|discriminate].
        cbn [bind] in Hys. apply Ok_inj in Hys. subst ys.
        destruct Hy as [<-|Hy]; [|exact (IH ys0 eq_refl y Hy)].
        unfold wavelength_at in E0.
        destruct (py_mul (PyInt i) step) as [pr|]; [|discriminate].
        cbn [bind] in E0. unfold py_add in E0.
        destruct pr as [z|f]; cbn [to_float bind] in E0.
        + destruct (float_of_int z); [|discriminate].
          cbn [bind] in E0. apply Ok_inj in E0. eexists. symmetry. exact E0.
        + apply Ok_inj in E0. eexists. symmetry. exact E0. }
    destruct (G _ _ H w Hin) as [f ->]. exact I.
  - apply Ok_inj in H. subst ws. apply in_map_iff in Hin as (i & <- & Hi).
    apply In_py_range in Hi. cbn [formattable]. lia.
Qed.

End Formattable.

Section IntegerText.

Lemma pow10_pos (k : nat) : 0 < 10 ^ Z.of_nat k.
Proof. apply Z.pow_pos_nonneg; lia. Qed.

Lemma fraction_digits_zero (P k : nat) (z : Z) :
  (k <= P)%nat ->
  fraction_digits k (z * 10 ^ Z.of_nat P) = repeat "0"%byte k.
Proof.
  intros HP. induction k as [|k IH]; [reflexivity|].
  cbn [fraction_digits repeat]. rewrite IH by lia. f_equal.
  replace (Z.of_nat P) with (Z.of_nat k + 1 + Z.of_nat (P - S k)) by lia.
  rewrite !Z.pow_add_r by lia.
  pose proof (pow10_pos k).
  replace (z * (10 ^ Z.of_nat k * 10 ^ 1 * 10 ^ Z.of_nat (P - S k)))
    with (z * 10 ^ Z.of_nat (P - S k) * 10 * 10 ^ Z.of_nat k) by ring.
  rewrite Z.div_mul by lia. rewrite Z.mod_mul by lia. reflexivity.
Qed.

Lemma fixed_integer (p : nat) (z : Z) :
  fixed (S p) (z * 10 ^ Z.of_nat (S p))
  = decimal z ++ "."%byte :: repeat "0"%byte (S p).
Proof.
  unfold fixed. pose proof (pow10_pos (S p)).
  rewrite Z.div_mul by lia. rewrite fraction_digits_zero by lia. reflexivity.
Qed.

Lemma div_half_even_exact (q b : Z) : 0 < b -> div_half_even (q * b) b = q.
Proof.
  intros Hb. unfold div_half_even.
  rewrite Z.mod_mul, Z.div_mul by lia.
  destruct (Z.ltb_spec (2 * 0) b); [reflexivity|lia].
Qed.

(** An integer below [2^53] is a [float] exactly. *)
Lemma float_of_Z_exact (z : Z) :
  0 < z < 2 ^ 53 ->
  exists m e, float_of_Z z = S754_finite false m e /\ -1074 <= e
              /\ Zpos m * 2 ^ (e + 1074) = z * 2 ^ 1074.
Proof.
  intros Hz.
  assert (Hmax : 2 ^ 53 <= PY_SSIZE_T_MAX) by (vm_compute; discriminate).
  destruct (@float_of_Z_index z ltac:(lia)) as (m & e & Ef & Hv & _).
  destruct (@float_of_int_ssize z ltac:(lia)) as (f & Ei & _ & _ & HV & _).
  rewrite float_of_int_eq in Ei by lia. apply Ok_inj in Ei.
  exists m, e. split; [exact Ef|].
  apply valid_finite_inv in Hv as (_ & B & _). split; [lia|].
  rewrite <- Ei, Ef in HV. unfold V, Fnum in HV. cbn [cond_Zopp] in HV.
  rewrite HV.
  assert (Hd : Zdigits2 z <= 53) by (apply Zdigits2_abs_le; lia).
  pose proof (@RND_exact 1074 le_1074_1074 z 0 ltac:(lia) ltac:(lia)) as Hr.
  rewrite Z.add_0_l in Hr. apply Hr. rewrite Z.add_0_r. unfold fexp64. lia.
Qed.

Lemma scaled_digits_integer (p : nat) (m : positive) (e z : Z) :
  -1074 <= e -> Zpos m * 2 ^ (e + 1074) = z * 2 ^ 1074 ->
  scaled_digits p m e = z * 10 ^ Z.of_nat p.
Proof.
  intros He Hm. unfold scaled_digits.
  destruct (Z.leb_spec 0 e) as [H0|H0].
  - f_equal. rewrite Z.pow_add_r in Hm by lia.
    assert (0 < 2 ^ 1074) by (apply Z.pow_pos_nonneg; lia). nia.
  - assert (Hp : 0 < 2 ^ (- e)) by (apply Z.pow_pos_nonneg; lia).
    assert (Hq : 0 < 2 ^ (e + 1074)) by (apply Z.pow_pos_nonneg; lia).
    assert (Em : Zpos m = z * 2 ^ (- e)).
    { replace 1074 with (- e + (e + 1074)) in Hm at 2 by lia.
      rewrite (Z.pow_add_r 2 (- e) (e + 1074)) in Hm by lia. nia. }
    rewrite Em.
    replace (z * 2 ^ (- e) * 10 ^ Z.of_nat p)
      with (z * 10 ^ Z.of_nat p * 2 ^ (- e)) by ring.
    apply div_half_even_exact. exact Hp.
Qed.

(** An integer below [2^53] is written with its own digits and zeros
    after the point. *)
Lemma format_float_integer (p : nat) (z : Z) :
  0 <= z < 2 ^ 53 ->
  format_float (S p) (float_of_Z z)
  = decimal z ++ "."%byte :: repeat "0"%byte (S p).
Proof.
  intros Hz. destruct (Z.eq_dec z 0) as [->|Hne].
  - rewrite float_of_Z_0. unfold F64.zero. cbn [format_float sign_text app].
    apply (@fixed_integer p 0).
  - destruct (@float_of_Z_exact z ltac:(lia)) as (m & e & -> & He & Hm).
    cbn [format_float sign_text app].
    rewrite (@scaled_digits_integer (S p) m e z He Hm). apply fixed_integer.
Qed.

End IntegerText.

Section Rows.

Lemma count_le_len (content : bytes) (sp : spectrum) :
  process_spectro_file content = Ok sp -> sp_count sp <= len content.
Proof.
  intros H.
  destruct (@process_spectro_file_inv content sp H) as (_ & _ & Hd & _).
  apply decode_data_inv in Hd.
  set (data_bytes := py_slice_from content (sp_header_end sp)) in *.
  assert (Hl : 0 <= len data_bytes <= len content).
  { unfold data_bytes, py_slice_from, len. rewrite length_skipn. lia. }
  pose proof (Z.div_mod (len data_bytes) 4 ltac:(lia)).
  pose proof (Z.mod_pos_bound (len data_bytes) 4 ltac:(lia)).
  pose proof (Z.div_mod (len data_bytes) 2 ltac:(lia)).
  pose proof (Z.mod_pos_bound (len data_bytes) 2 ltac:(lia)).
  destruct (sp_type sp).
  - destruct Hd as (_ & _ & -> & _). lia.
  - destruct Hd as (_ & _ & -> & _). lia.
  - destruct Hd as (_ & _ & -> & _). lia.
  - destruct Hd as (_ & -> & _). lia.
Qed.

Lemma rows_formattable (content : bytes) (sp : spectrum) (row : pynum * pynum) :
  len content <= PY_SSIZE_T_MAX ->
  process_spectro_file content = Ok sp ->
  In row (sp_rows sp) -> formattable (fst row) /\ formattable (snd row).
Proof.
  intros Hlen H Hin. pose proof (@count_le_len content sp H) as Hc.
  destruct (@process_spectro_file_inv content sp H) as (_ & _ & Hd & Hw & Hr).
  rewrite Hr in Hin. destruct row as [wl val]. cbn [fst snd]. split.
  - apply in_combine_l in Hin.
    apply (@wavelengths_formattable content (sp_type sp) (sp_pat_idx sp)
             (sp_count sp) (sp_wavelengths sp) wl ltac:(lia) Hw Hin).
  - apply in_combine_r in Hin.
    apply (@values_formattable _ _ _ _ val Hd Hin).
Qed.

Lemma rows_length (content : bytes) (sp : spectrum) :
  process_spectro_file content = Ok sp -> len (sp_rows sp) = sp_count sp.
Proof.
  intros H.
  destruct (@process_spectro_file_inv content sp H) as (_ & _ & Hd & Hw & Hr).
  apply decode_data_count in Hd as [Hl Hn].
  apply wavelength_axis_length in Hw. rewrite Z.max_l in Hw by lia.
  rewrite Hr. unfold len in *. rewrite length_combine. lia.
Qed.

Lemma index_row (content : bytes) (sp : spectrum) (i : nat) (row : pynum * pynum) :
  process_spectro_file content = Ok sp ->
  is_float32 (sp_type sp) = false ->
  nth_error (sp_rows sp) i = Some row ->
  Z.of_nat i < sp_count sp
  /\ fst row = PyInt (Z.of_nat i)
  /\ exists z, snd row = PyInt z /\ 0 <= z <= 65535.
Proof.
  intros H Hf Hrow.
  assert (Hi : Z.of_nat i < sp_count sp).
  { rewrite <- (@rows_length content sp H). unfold len.
    assert (i < length (sp_rows sp))%nat by (apply nth_error_Some; congruence).
    lia. }
  destruct (@process_spectro_file_inv content sp H) as (_ & _ & Hd & Hw & Hr).
  unfold wavelength_axis in Hw. rewrite Hf in Hw. apply Ok_inj in Hw.
  rewrite Hr, nth_error_combine, <- Hw, nth_error_map in Hrow.
  rewrite nth_error_py_range in Hrow by assumption. cbn [option_map] in Hrow.
  destruct (nth_error (sp_values sp) i) as [v|] eqn:Ev; [|discriminate].
  assert (Er : row = (PyInt (Z.of_nat i), v)) by congruence. subst row.
  cbn [fst snd]. split; [assumption|]. split; [reflexivity|].
  apply nth_error_In in Ev. apply decode_data_inv in Hd.
  destruct (sp_type sp); try discriminate.
  - destruct Hd as (_ & _ & _ & Hv). rewrite Hv in Ev.
    apply in_map_iff in Ev as (z & <- & Hz). exists z. split; [reflexivity|].
    exact (@decode_H_range _ _ Hz).
  - destruct Hd as (_ & _ & Hv). rewrite Hv in Ev.
    apply in_map_iff in Ev as (b & <- & _). eexists. split; [reflexivity|].
    pose proof (byte_val_range b). lia.
Qed.

End Rows.

(** * The text of the output file *)

(** X17: writing the rows of a decoded spectrum never raises, and the text
    is the header line followed by one line per sample; each line is two
    non-empty fields, neither holding a comma or a newline, joined by a
    comma and ended by a newline. *)
Theorem csv_text_well_formed (content : bytes) (sp : spectrum) :
  len content <= PY_SSIZE_T_MAX ->
  process_spectro_file content = Ok sp ->
  exists fields : list (bytes * bytes),
    csv_text (sp_rows sp) = Ok (csv_header ++ concat (map join_fields fields))
    /\ len fields = sp_count sp
    /\ forall ab, In ab fields ->
         fst ab <> [] /\ snd ab <> []
         /\ forallb field_byte (fst ab) = true
         /\ forallb field_byte (snd ab) = true.
Proof.
  intros Hlen H. exists (map csv_fields (sp_rows sp)). split; [|split].
  - apply csv_text_formattable. intros row Hin.
    exact (@rows_formattable content sp row Hlen H Hin).
  - unfold len. rewrite length_map. exact (@rows_length content sp H).
  - intros ab Hin. apply in_map_iff in Hin as (row & <- & _).
    unfold csv_fields. cbn [fst snd].
    destruct (format_float_field 3 (as_float (fst row))) as [F1 N1].
    destruct (format_float_field 6 (as_float (snd row))) as [F2 N2].
    auto.
Qed.

Lemma csv_text_well_formed_witness :
  exists sp,
    process_spectro_file (axis_400_700 ++ pattern ++ data_1_2) = Ok sp
    /\ exists fields : list (bytes * bytes),
         csv_text (sp_rows sp) = Ok (csv_header ++ concat (map join_fields fields))
         /\ len fields = sp_count sp
         /\ forall ab, In ab fields ->
              fst ab <> [] /\ snd ab <> []
              /\ forallb field_byte (fst ab) = true
              /\ forallb field_byte (snd ab) = true.
Proof.
  eexists. split; [vm_compute; reflexivity|].
  apply (@csv_text_well_formed (axis_400_700 ++ pattern ++ data_1_2)).
  - vm_compute. discriminate.
  - vm_compute. reflexivity.
Defined.

(** X18: for the [int16] and [bytes] formats of a buffer shorter than 2^53
    bytes, line [i] of the output is the index [i] in decimal with [".000"],
    a comma, and the sample in decimal with [".000000"]. *)
Theorem csv_index_rows (content : bytes) (sp : spectrum) :
  len content < 2 ^ 53 ->
  process_spectro_file content = Ok sp ->
  is_float32 (sp_type sp) = false ->
  forall (i : nat) (row : pynum * pynum),
    nth_error (sp_rows sp) i = Some row ->
    exists z,
      snd row = PyInt z /\ 0 <= z <= 65535
      /\ csv_line row
         = Ok (decimal (Z.of_nat i) ++ "."%byte :: repeat "0"%byte 3
               ++ ","%byte :: decimal z ++ "."%byte :: repeat "0"%byte 6 ++ [x0a]).
Proof.
  intros Hlen H Hf i row Hrow.
  pose proof (@count_le_len content sp H) as Hc.
  destruct (@index_row content sp i row H Hf Hrow) as (Hi & Ew & z & Ez & Hz).
  exists z. split; [exact Ez|]. split; [exact Hz|].
  assert (Hmax : 2 ^ 53 <= PY_SSIZE_T_MAX) by (vm_compute; discriminate).
  rewrite csv_line_formattable
    by (rewrite ?Ew, ?Ez; cbn [formattable]; lia).
  unfold join_fields, csv_fields. cbn [fst snd]. rewrite Ew, Ez.
  cbn [as_float]. rewrite !format_float_integer by lia.
  rewrite <- !app_assoc. reflexivity.
Qed.

Lemma csv_index_rows_witness :
  exists z,
    PyInt 513 = PyInt z /\ 0 <= z <= 65535
    /\ csv_line (PyInt 0, PyInt 513)
       = Ok (decimal 0 ++ "."%byte :: repeat "0"%byte 3
             ++ ","%byte :: decimal z ++ "."%byte :: repeat "0"%byte 6 ++ [x0a]).
Proof.
  refine (@csv_index_rows (repeat x00 100 ++ [x01; x02])
            _ _ _ _ 0%nat (PyInt 0, PyInt 513) _);
    vm_compute; reflexivity.
Defined.

Section Files.

Lemma bytes_eqb_eq (p q : bytes) : bytes_eqb p q = true <-> p = q.
Proof.
  revert q; induction p as [|a p IH]; intros [|b q]; cbn [bytes_eqb];
    try (split; [discriminate|discriminate]); [split; reflexivity|].
  rewrite andb_true_iff, IH. split.
  - intros [Hab ->]. apply Byte.byte_dec_bl in Hab. subst b. reflexivity.
  - intros E. injection E as -> ->. split; [|reflexivity].
    apply Byte.byte_dec_lb. reflexivity.
Qed.

Lemma bytes_eqb_refl (p : bytes) : bytes_eqb p p = true.
Proof. apply bytes_eqb_eq. reflexivity. Qed.


Lemma fs_write_same (path data : bytes) (d : fs) :
  fs_write path data d path = Some data.
Proof. unfold fs_write. rewrite bytes_eqb_refl. reflexivity. Qed.






End Files.

(** * Files and the command line *)

(** X19: when the name of an existing input file ends in [".csv"], the
    output file is the input file: it is emptied before it is read, the run
    reports the [bytes] format, and the file is left holding the header line
    alone, whatever it held before. *)
Theorem csv_input_is_overwritten (p content : bytes) (d : fs) :
  d (p ++ csv_suffix) = Some content ->
  snd (process_spectro_file_io (p ++ csv_suffix) d)
  = inr (Processed (p ++ csv_suffix) raw_bytes (p ++ csv_suffix))
  /\ forall q, fst (process_spectro_file_io (p ++ csv_suffix) d) q
               = if bytes_eqb q (p ++ csv_suffix) then Some csv_header else d q.
Proof.
  intros Hd. unfold process_spectro_file_io.
  rewrite output_path_csv, Hd, fs_write_same.
  change (process_spectro_file []) with
    (Ok {| sp_type := raw_bytes; sp_header_end := 100; sp_pat_idx := -1;
           sp_count := 0; sp_wavelengths := []; sp_values := []; sp_rows := [] |}).
  cbn [sp_rows write_rows sp_type fst snd]. split; [reflexivity|].
  intros q. unfold fs_write. rewrite app_nil_r.
  destruct (bytes_eqb q (p ++ csv_suffix)); reflexivity.
Qed.

Lemma csv_input_is_overwritten_witness :
  snd (process_spectro_file_io (["a"]%byte ++ csv_suffix)
         (fs_write (["a"]%byte ++ csv_suffix) data_1_2 (fun _ => None)))
  = inr (Processed (["a"]%byte ++ csv_suffix) raw_bytes (["a"]%byte ++ csv_suffix)).
Proof.
  refine (proj1 (@csv_input_is_overwritten ["a"]%byte data_1_2
                   (fs_write (["a"]%byte ++ csv_suffix) data_1_2 (fun _ => None)) _)).
  vm_compute. reflexivity.
Defined.




